(** * 4TCT utilities ([src/utils.py]): a shallow embedding and its properties

    The module has three independent parts: the command-line validator
    [check_positive_float], the class [LoggerManager] and the configuration
    loader [load_and_validate_config].  Each is embedded below as an
    executable Rocq function; Python exceptions are values of type [exn]
    carried by the [result] type, and the interpreter's built-ins the code
    calls ([float], [json.load], [datetime], [pathlib], the file system) are
    either modelled after CPython or taken as section variables. *)

From Stdlib Require Import ZArith String Ascii List Lia Bool DecimalString.
From Stdlib Require Import Floats.SpecFloat.
From stdpp Require Import gmap strings list.

Local Open Scope string_scope.
Local Open Scope list_scope.
Local Open Scope Z_scope.
Local Set Warnings "-register-all".

(** ** Exceptions *)

Module Exn.

(** The exception classes the module can meet, with Python's hierarchy. *)
Inductive class :=
| Exception
| OSError
| FileNotFoundError
| FileExistsError
| IsADirectoryError
| NotADirectoryError
| ValueError
| JSONDecodeError
| TypeError
| ArithmeticError
| OverflowError
| RuntimeError
| AttributeError
| ArgumentTypeError.

Definition class_eqb (c d : class) : bool :=
  match c, d with
  | Exception, Exception | OSError, OSError
  | FileNotFoundError, FileNotFoundError | FileExistsError, FileExistsError
  | IsADirectoryError, IsADirectoryError
  | NotADirectoryError, NotADirectoryError
  | ValueError, ValueError | JSONDecodeError, JSONDecodeError
  | TypeError, TypeError | ArithmeticError, ArithmeticError
  | OverflowError, OverflowError | RuntimeError, RuntimeError
  | AttributeError, AttributeError
  | ArgumentTypeError, ArgumentTypeError => true
  | _, _ => false
  end.

(** Direct base class; [Exception] is the root of this fragment. *)
Definition base (c : class) : option class :=
  match c with
  | Exception => None
  | FileNotFoundError | FileExistsError
  | IsADirectoryError | NotADirectoryError => Some OSError
  | JSONDecodeError => Some ValueError
  | OverflowError => Some ArithmeticError
  | OSError | ValueError | TypeError | ArithmeticError
  | RuntimeError | AttributeError | ArgumentTypeError => Some Exception
  end.

Fixpoint issubclass_fuel (fuel : nat) (c d : class) : bool :=
  class_eqb c d ||
  match fuel, base c with
  | S fuel', Some b => issubclass_fuel fuel' b d
  | _, _ => false
  end.

(** [issubclass c d]: an [except d] clause catches an exception of class
    [c].  The hierarchy above has depth three. *)
Definition issubclass : class -> class -> bool := issubclass_fuel 3.

Record t := Build { cls : class; msg : string }.

End Exn.

Abbreviation exn := Exn.t.

(** ** Results: a value returned or an exception raised *)

Inductive result (A : Type) : Type :=
| Return (a : A)
| Raise (e : exn).
Arguments Return {A} a.
Arguments Raise {A} e.

(** Sequencing stops at the first exception; [x ← r; k] is stdpp's notation
    for it. *)
#[export] Instance result_ret : MRet result := fun A a => Return a.
#[export] Instance result_bind : MBind result := fun A B k r =>
  match r with
  | Return a => k a
  | Raise e => Raise e
  end.

Definition raise {A : Type} (c : Exn.class) (m : string) : result A :=
  Raise (Exn.Build c m).

(** ** Python values and the [float] built-in *)

Module Py.

(** Binary64, as [spec_float] with precision 53 and maximal exponent 1024. *)
Definition prec : Z := 53.
Definition emax : Z := 1024.

Definition float_of_Z (z : Z) : spec_float := binary_normalize prec emax z 0 false.

(** The float [1.0]; the comparison [fvalue < 1] with the integer [1] is
    the comparison with it. *)
Definition float_one : spec_float := Eval vm_compute in float_of_Z 1.

Definition float_lt (x y : spec_float) : bool := SFltb x y.
Definition float_ge (x y : spec_float) : bool := SFleb y x.

(** The values [check_positive_float] may be handed: argparse passes the
    command-line word (a [str]); a direct caller may pass a number. *)
Inductive value :=
| Str (s : string)
| Int (z : Z)
| Float (f : spec_float)
| None_.

(** Decimal rendering of an [int], as [str] does it. *)
Definition str_of_Z (z : Z) : string :=
  match z with
  | Z0 => "0"
  | Zpos p => NilEmpty.string_of_uint (Pos.to_uint p)
  | Zneg p => "-" +:+ NilEmpty.string_of_uint (Pos.to_uint p)
  end.

Section Builtins.

(** [float] on a [str] ([None]: the text is no float literal) and [repr]
    of a float are the interpreter's; the code only calls them. *)
Variable float_of_string : string -> option spec_float.
Variable float_repr : spec_float -> string.

(** [float(value)] *)
Definition float (v : value) : result spec_float :=
  match v with
  | Str s =>
      match float_of_string s with
      | Some f => Return f
      | None =>
          raise Exn.ValueError ("could not convert string to float: '" +:+ s +:+ "'")
      end
  | Int z =>
      match float_of_Z z with
      | S754_infinity _ => raise Exn.OverflowError "int too large to convert to float"
      | f => Return f
      end
  | Float f => Return f
  | None_ => raise Exn.TypeError "float() argument must be a string or a real number, not 'NoneType'"
  end.

(** [f"{value}"] *)
Definition format (v : value) : string :=
  match v with
  | Str s => s
  | Int z => str_of_Z z
  | Float f => float_repr f
  | None_ => "None"
  end.

End Builtins.

End Py.

(** ** [check_positive_float] *)

Section CheckPositiveFloat.

Variable float_of_string : string -> option spec_float.
Variable float_repr : spec_float -> string.

Definition check_positive_float (value : Py.value) : result spec_float :=
  fvalue ← Py.float float_of_string value;
  (if Py.float_lt fvalue Py.float_one
   then raise Exn.ArgumentTypeError
          ("--request-time-limit value should be at least 1, now is "
             +:+ Py.format float_repr value)
   else Return fvalue).

End CheckPositiveFloat.

(** ** Character and digit helpers *)

Module Text.

(** ASCII decimal digits. *)
Definition digit_of_ascii (c : ascii) : option Z :=
  let n := Z.of_N (N_of_ascii c) in
  if (48 <=? n) && (n <=? 57) then Some (n - 48) else None.

Definition is_digit (c : ascii) : bool :=
  match digit_of_ascii c with Some _ => true | None => false end.

(** Value of a string of digits, most significant first. *)
Fixpoint number_from (acc : Z) (s : string) : option Z :=
  match s with
  | EmptyString => Some acc
  | String c s' =>
      match digit_of_ascii c with
      | Some d => number_from (10 * acc + d) s'
      | None => None
      end
  end.

Definition number (s : string) : option Z :=
  match s with
  | EmptyString => None
  | _ => number_from 0 s
  end.

(** [s.split(sep)] for a one-character separator. *)
Fixpoint split (sep : ascii) (s : string) : list string :=
  match s with
  | EmptyString => [EmptyString]
  | String c s' =>
      if Ascii.eqb c sep then EmptyString :: split sep s'
      else match split sep s' with
           | w :: ws => String c w :: ws
           | [] => [String c EmptyString]
           end
  end.

(** [needle in hay] on strings. *)
Fixpoint contains (needle hay : string) : bool :=
  String.prefix needle hay ||
  match hay with
  | EmptyString => false
  | String _ hay' => contains needle hay'
  end.

(** [s.endswith(suffix)] *)
Definition endswith (s suffix : string) : bool :=
  let n := String.length s in
  let k := String.length suffix in
  (k <=? n)%nat && String.eqb (String.substring (n - k) k s) suffix.

End Text.

(** A decimal reader for the plain literals [ddd] and [ddd.ddd] of at most
    fifteen digits, where [float] is one correctly rounded division.  It is
    an instance of the [float_of_string] variable, used to run
    [check_positive_float] on concrete command-line words. *)
Definition decimal_float_of_string (s : string) : option spec_float :=
  match Text.split "." s with
  | [i] =>
      n ← Text.number i;
      if String.length i <=? 15 then Some (Py.float_of_Z n) else None
  | [i; fr] =>
      n ← Text.number (i +:+ fr);
      if String.length (i +:+ fr) <=? 15
      then Some (SFdiv Py.prec Py.emax (Py.float_of_Z n)
                   (Py.float_of_Z (10 ^ Z.of_nat (String.length fr))))
      else None
  | _ => None
  end%nat.

(** ** JSON values and the configuration loader *)

Module Json.

(** What [json.load] builds: [dict], [list], [str], [int], [float],
    [bool] and [None]. *)
Inductive value :=
| Null
| Bool (b : bool)
| Int (z : Z)
| Float (f : spec_float)
| Str (s : string)
| Arr (l : list value)
| Obj (m : gmap string value).

(** [field in config] for a [str] [field]: key membership in a [dict],
    element equality in a [list], substring test in a [str]; the other
    values are not containers. *)
Definition contains (field : string) (config : value) : result bool :=
  match config with
  | Obj m => Return (bool_decide (is_Some (m !! field)))
  | Arr l =>
      Return (existsb (fun x => match x with
                                | Str s => String.eqb s field
                                | _ => false
                                end) l)
  | Str s => Return (Text.contains field s)
  | Null => raise Exn.TypeError "argument of type 'NoneType' is not iterable"
  | Bool _ => raise Exn.TypeError "argument of type 'bool' is not iterable"
  | Int _ => raise Exn.TypeError "argument of type 'int' is not iterable"
  | Float _ => raise Exn.TypeError "argument of type 'float' is not iterable"
  end.

End Json.

Module Config.

(** The file system as [open] sees it: what each path string names.  The
    keys are path strings as they are passed to [open]; a world lists every
    spelling that names a file or a directory. *)
Inductive node :=
| File (text : string)
| Dir.

(** The limits of Linux on the length of a path and of one component, in
    bytes. *)
Definition PATH_MAX : nat := 4096.
Definition NAME_MAX : nat := 255.

(** [open] refuses a path with a NUL character before it asks the
    operating system. *)
Definition has_nul (path : string) : bool :=
  existsb (Ascii.eqb Ascii.zero) (list_ascii_of_string path).

(** Why the operating system finds nothing at a path. *)
Inductive errno := ENOENT | ENOTDIR | ENAMETOOLONG.

(** The walk along the components of a path that names nothing, [done]
    being the text before the component at hand: a component that is too
    long, a regular file in the place of a directory, or a name that is
    not there stops it.  The empty text before the first [/] is the
    root. *)
Fixpoint lookup_failure (fs : gmap string node) (done : string)
    (components : list string) : errno :=
  match components with
  | [] => ENOENT
  | c :: rest =>
      if (NAME_MAX <? String.length c)%nat then ENAMETOOLONG
      else
        match rest with
        | [] => ENOENT
        | _ :: _ =>
            if String.eqb (done +:+ c) ""
            then lookup_failure fs (done +:+ c +:+ "/") rest
            else
              match fs !! (done +:+ c) with
              | Some (File _) => ENOTDIR
              | Some Dir => lookup_failure fs (done +:+ c +:+ "/") rest
              | None => ENOENT
              end
        end
  end.

(** The proper prefixes of a path that end before a [/]: the places the
    walk goes through. *)
Fixpoint ancestors_from (done : string) (components : list string) : list string :=
  match components with
  | [] => []
  | c :: rest =>
      match rest with
      | [] => []
      | _ :: _ => (done +:+ c) :: ancestors_from (done +:+ c +:+ "/") rest
      end
  end.

Definition ancestors (path : string) : list string :=
  ancestors_from "" (Text.split "/" path).

(** A path in its plain spelling: no [.], no [..] and no empty component,
    but for the empty text before the [/] of an absolute path. *)
Definition plain (c : string) : bool :=
  negb (String.eqb c "" || String.eqb c "." || String.eqb c "..").

Definition canonical (path : string) : bool :=
  match Text.split "/" path with
  | [] => false
  | c :: rest =>
      forallb plain rest
      && (plain c || (String.eqb c "" && negb (Nat.eqb (length rest) 0)))
  end.

(** [open(path, "r")] followed by reading the whole file.  A path that
    names nothing fails with the error of the first obstacle. *)
Definition open_read (fs : gmap string node) (path : string) : result string :=
  match fs !! path with
  | Some (File text) => Return text
  | Some Dir => raise Exn.IsADirectoryError ("[Errno 21] Is a directory: '" +:+ path +:+ "'")
  | None =>
      if has_nul path then raise Exn.ValueError "embedded null byte"
      else if (PATH_MAX <=? String.length path)%nat
      then raise Exn.OSError ("[Errno 36] File name too long: '" +:+ path +:+ "'")
      else
        match lookup_failure fs "" (Text.split "/" path) with
        | ENOENT =>
            raise Exn.FileNotFoundError
              ("[Errno 2] No such file or directory: '" +:+ path +:+ "'")
        | ENOTDIR =>
            raise Exn.NotADirectoryError ("[Errno 20] Not a directory: '" +:+ path +:+ "'")
        | ENAMETOOLONG =>
            raise Exn.OSError ("[Errno 36] File name too long: '" +:+ path +:+ "'")
        end
  end.

Definition required_fields : list string :=
  [ "boards";
    "exclude_boards";
    "request_time_limit";
    "output_path";
    "save_log";
    "clean_log" ].

(** [[field for field in fields if field not in config]] *)
Fixpoint missing_fields (fields : list string) (config : Json.value)
  : result (list string) :=
  match fields with
  | [] => Return []
  | field :: fields' =>
      present ← Json.contains field config;
      rest ← missing_fields fields' config;
      Return (if (present : bool) then rest else field :: rest)
  end.

Section Loader.

(** [json.load] on the text of the file: the decoded value, or the
    exception the decoder raises ([json.JSONDecodeError] on malformed
    text). *)
Variable json_load : string -> result Json.value.

Definition load_and_validate_config (fs : gmap string node) (config_path : string)
  : result Json.value :=
  match (config_file ← open_read fs config_path; json_load config_file) with
  | Raise e =>
      if Exn.issubclass (Exn.cls e) Exn.FileNotFoundError
      then raise Exn.FileNotFoundError ("Config file not found at " +:+ config_path)
      else if Exn.issubclass (Exn.cls e) Exn.JSONDecodeError
      then raise Exn.ValueError ("Invalid JSON format in " +:+ config_path)
      else Raise e
  | Return config =>
      missing ← missing_fields required_fields config;
      match missing return result Json.value with
      | _ :: _ =>
          raise Exn.ValueError
            ("Missing required fields in config: " +:+ String.concat ", " missing)
      | [] => Return config
      end
  end.

End Loader.

End Config.

(** A decoder for a fragment of JSON: objects, arrays, strings without
    escapes, integers, [true], [false], [null] and white space.  It is an
    instance of the [json_load] variable, used to run the loader on concrete
    files; the theorems below hold for every decoder. *)
Module JsonText.

(** The double quote, and a way to write JSON texts with ['] in its place. *)
Definition quote : string := String (ascii_of_nat 34) EmptyString.

Fixpoint quoted (s : string) : string :=
  match s with
  | EmptyString => EmptyString
  | String c s' =>
      String (if Ascii.eqb c "'" then ascii_of_nat 34 else c) (quoted s')
  end.

Definition is_ws (c : ascii) : bool :=
  let n := N_of_ascii c in
  (n =? 32)%N || (n =? 9)%N || (n =? 10)%N || (n =? 13)%N.

Fixpoint skip_ws (s : string) : string :=
  match s with
  | String c s' => if is_ws c then skip_ws s' else s
  | EmptyString => s
  end.

Fixpoint strip_prefix (p s : string) : option string :=
  match p, s with
  | EmptyString, _ => Some s
  | String a p', String b s' => if Ascii.eqb a b then strip_prefix p' s' else None
  | String _ _, EmptyString => None
  end.

(** The characters of a string literal after its opening quote. *)
Fixpoint string_body (s : string) : option (string * string) :=
  match s with
  | EmptyString => None
  | String c s' =>
      let n := N_of_ascii c in
      if (n =? 34)%N then Some (EmptyString, s')
      else if (n =? 92)%N || (n <? 32)%N then None
      else '(b, r) ← string_body s'; Some (String c b, r)
  end.

Fixpoint take_digits (s : string) : string * string :=
  match s with
  | String c s' =>
      if Text.is_digit c
      then let '(d, r) := take_digits s' in (String c d, r)
      else (EmptyString, s)
  | EmptyString => (EmptyString, s)
  end.

Definition natural (s : string) : option (Z * string) :=
  let '(d, r) := take_digits s in
  match d with
  | String c (String _ _) =>
      if Ascii.eqb c "0" then None else n ← Text.number d; Some (n, r)
  | _ => n ← Text.number d; Some (n, r)
  end.

Fixpoint parse_value (fuel : nat) (s : string) : option (Json.value * string) :=
  match fuel with
  | O => None
  | S fuel =>
      let s := skip_ws s in
      match strip_prefix "null" s, strip_prefix "true" s, strip_prefix "false" s with
      | Some r, _, _ => Some (Json.Null, r)
      | _, Some r, _ => Some (Json.Bool true, r)
      | _, _, Some r => Some (Json.Bool false, r)
      | _, _, _ =>
          match strip_prefix quote s, strip_prefix "[" s, strip_prefix "{" s with
          | Some r, _, _ => '(b, r') ← string_body r; Some (Json.Str b, r')
          | _, Some r, _ =>
              match strip_prefix "]" (skip_ws r) with
              | Some r' => Some (Json.Arr [], r')
              | None => '(l, r') ← parse_elements fuel r; Some (Json.Arr l, r')
              end
          | _, _, Some r =>
              match strip_prefix "}" (skip_ws r) with
              | Some r' => Some (Json.Obj ∅, r')
              | None =>
                  '(l, r') ← parse_members fuel r;
                  Some (Json.Obj (list_to_map (reverse l)), r')
              end
          | _, _, _ =>
              match strip_prefix "-" s with
              | Some r => '(n, r') ← natural r; Some (Json.Int (- n), r')
              | None => '(n, r') ← natural s; Some (Json.Int n, r')
              end
          end
      end
  end
with parse_elements (fuel : nat) (s : string) : option (list Json.value * string) :=
  match fuel with
  | O => None
  | S fuel =>
      '(v, r) ← parse_value fuel s;
      match strip_prefix "," (skip_ws r), strip_prefix "]" (skip_ws r) with
      | Some r', _ => '(l, r'') ← parse_elements fuel r'; Some (v :: l, r'')
      | _, Some r' => Some ([v], r')
      | _, _ => None
      end
  end
with parse_members (fuel : nat) (s : string)
  : option (list (string * Json.value) * string) :=
  match fuel with
  | O => None
  | S fuel =>
      r ← strip_prefix quote (skip_ws s);
      '(k, r) ← string_body r;
      r ← strip_prefix ":" (skip_ws r);
      '(v, r) ← parse_value fuel r;
      match strip_prefix "," (skip_ws r), strip_prefix "}" (skip_ws r) with
      | Some r', _ => '(l, r'') ← parse_members fuel r'; Some ((k, v) :: l, r'')
      | _, Some r' => Some ([(k, v)], r')
      | _, _ => None
      end
  end.

Definition json_load (text : string) : result Json.value :=
  match parse_value (S (String.length text)) text with
  | Some (v, r) =>
      match skip_ws r with
      | EmptyString => Return v
      | _ => raise Exn.JSONDecodeError "Extra data"
      end
  | None => raise Exn.JSONDecodeError "Expecting value"
  end.

End JsonText.

(** Sample files for the loader. *)
Module ConfigSamples.

Definition complete_text : string :=
  JsonText.quoted
    "{'boards': ['a', 'g'], 'exclude_boards': false, 'request_time_limit': 1,
      'output_path': '/data', 'save_log': true, 'clean_log': true}".

Definition complete : gmap string Json.value :=
  list_to_map
    [ ("boards", Json.Arr [Json.Str "a"; Json.Str "g"]);
      ("exclude_boards", Json.Bool false);
      ("request_time_limit", Json.Int 1);
      ("output_path", Json.Str "/data");
      ("save_log", Json.Bool true);
      ("clean_log", Json.Bool true) ].

Definition partial_text : string :=
  JsonText.quoted
    "{'boards': [], 'request_time_limit': 5, 'output_path': '.', 'save_log': false}".

Definition partial : gmap string Json.value :=
  list_to_map
    [ ("boards", Json.Arr []);
      ("request_time_limit", Json.Int 5);
      ("output_path", Json.Str ".");
      ("save_log", Json.Bool false) ].

Definition broken_text : string := JsonText.quoted "{'boards': ['a', }".

Definition disk : gmap string Config.node :=
  list_to_map
    [ ("config.json", Config.File complete_text);
      ("partial.json", Config.File partial_text);
      ("broken.json", Config.File broken_text);
      ("logs", Config.Dir) ].

End ConfigSamples.

(** ** Dates and times, after CPython's [datetime] *)

Module Datetime.

Definition MINYEAR : Z := 1.
Definition MAXYEAR : Z := 9999.
Definition MAXORDINAL : Z := 3652059.

(** year -> 1 if leap year, else 0. *)
Definition is_leap (year : Z) : bool :=
  (year mod 4 =? 0) && (negb (year mod 100 =? 0) || (year mod 400 =? 0)).

(** year -> number of days before January 1st of year. *)
Definition days_before_year (year : Z) : Z :=
  let y := year - 1 in
  y * 365 + y / 4 - y / 100 + y / 400.

Definition DAYS_IN_MONTH (month : Z) : Z :=
  match month with
  | 1 => 31 | 2 => 28 | 3 => 31 | 4 => 30 | 5 => 31 | 6 => 30
  | 7 => 31 | 8 => 31 | 9 => 30 | 10 => 31 | 11 => 30 | 12 => 31
  | _ => -1
  end.

Definition DAYS_BEFORE_MONTH (month : Z) : Z :=
  match month with
  | 1 => 0 | 2 => 31 | 3 => 59 | 4 => 90 | 5 => 120 | 6 => 151
  | 7 => 181 | 8 => 212 | 9 => 243 | 10 => 273 | 11 => 304 | 12 => 334
  | _ => -1
  end.

(** year, month -> number of days in that month in that year. *)
Definition days_in_month (year month : Z) : Z :=
  if (month =? 2) && is_leap year then 29 else DAYS_IN_MONTH month.

(** year, month -> number of days in year preceding first day of month. *)
Definition days_before_month (year month : Z) : Z :=
  DAYS_BEFORE_MONTH month + (if (2 <? month) && is_leap year then 1 else 0).

(** year, month, day -> ordinal, considering 01-Jan-0001 as day 1. *)
Definition ymd2ord (year month day : Z) : Z :=
  days_before_year year + days_before_month year month + day.

Definition DI400Y : Z := 146097.
Definition DI100Y : Z := 36524.
Definition DI4Y : Z := 1461.

(** ordinal -> (year, month, day), considering 01-Jan-0001 as day 1. *)
Definition ord2ymd (n : Z) : Z * Z * Z :=
  let n := n - 1 in
  let n400 := n / DI400Y in
  let n := n mod DI400Y in
  let year := n400 * 400 + 1 in
  let n100 := n / DI100Y in
  let n := n mod DI100Y in
  let n4 := n / DI4Y in
  let n := n mod DI4Y in
  let n1 := n / 365 in
  let n := n mod 365 in
  let year := year + n100 * 100 + n4 * 4 + n1 in
  if (n1 =? 4) || (n100 =? 4) then (year - 1, 12, 31)
  else
    let leapyear := (n1 =? 3) && (negb (n4 =? 24) || (n100 =? 3)) in
    let month := Z.shiftr (n + 50) 5 in
    let preceding :=
      DAYS_BEFORE_MONTH month + (if (2 <? month) && leapyear then 1 else 0) in
    let '(month, preceding) :=
      if n <? preceding
      then (month - 1,
            preceding - (DAYS_IN_MONTH (month - 1)
                         + (if (month - 1 =? 2) && leapyear then 1 else 0)))
      else (month, preceding) in
    (year, month, n - preceding + 1).

(** A naive [datetime] object. *)
Record t := Build {
  year : Z; month : Z; day : Z;
  hour : Z; minute : Z; second : Z; microsecond : Z
}.

Definition between (lo x hi : Z) : bool := (lo <=? x) && (x <=? hi).

(** The range checks of the constructor. *)
Definition valid (d : t) : bool :=
  between MINYEAR (year d) MAXYEAR
  && between 1 (month d) 12
  && between 1 (day d) (days_in_month (year d) (month d))
  && between 0 (hour d) 23
  && between 0 (minute d) 59
  && between 0 (second d) 59
  && between 0 (microsecond d) 999999.

(** The message of the first range check that fails. *)
Definition field_error (d : t) : string :=
  if negb (between MINYEAR (year d) MAXYEAR)
  then "year " +:+ Py.str_of_Z (year d) +:+ " is out of range"
  else if negb (between 1 (month d) 12) then "month must be in 1..12"
  else if negb (between 1 (day d) (days_in_month (year d) (month d)))
  then "day is out of range for month"
  else if negb (between 0 (hour d) 23) then "hour must be in 0..23"
  else if negb (between 0 (minute d) 59) then "minute must be in 0..59"
  else if negb (between 0 (second d) 59) then "second must be in 0..59"
  else "microsecond must be in 0..999999".

(** [datetime(year, month, day, hour, minute, second, microsecond)] *)
Definition new (y mo d h mi s us : Z) : result t :=
  let x := Build y mo d h mi s us in
  if valid x then Return x
  else raise Exn.ValueError (field_error x).

(** Comparison is that of the tuples of fields. *)
Definition fields (d : t) : list Z :=
  [year d; month d; day d; hour d; minute d; second d; microsecond d].

Fixpoint cmp (a b : list Z) : comparison :=
  match a, b with
  | [], [] => Eq
  | [], _ :: _ => Lt
  | _ :: _, [] => Gt
  | x :: a', y :: b' =>
      match x ?= y with
      | Eq => cmp a' b'
      | c => c
      end
  end.

(** [a < b] *)
Definition lt (a b : t) : bool :=
  match cmp (fields a) (fields b) with
  | Lt => true
  | _ => false
  end.

Definition toordinal (d : t) : Z := ymd2ord (year d) (month d) (day d).

(** [d - timedelta(days=days)]: the constructor of [timedelta] bounds the
    magnitude of [days]; the subtraction moves the ordinal of the date and
    keeps the time of day, and fails when the date leaves the calendar. *)
Definition sub_days (d : t) (days : Z) : result t :=
  if 999999999 <? Z.abs days
  then raise Exn.OverflowError
         ("days=" +:+ Py.str_of_Z days +:+ "; must have magnitude <= 999999999")
  else
    let ordinal := toordinal d - days in
    if (0 <? ordinal) && (ordinal <=? MAXORDINAL)
    then
      let '(y, mo, dd) := ord2ymd ordinal in
      Return (Build y mo dd (hour d) (minute d) (second d) (microsecond d))
    else raise Exn.OverflowError "date value out of range".

(** *** [strftime] and [strptime] for the format [%Y_%m_%d_%H_%M_%S] *)

Definition digit (d : Z) : ascii := ascii_of_N (Z.to_N (48 + d)).

Definition pad2 (n : Z) : string :=
  String (digit (n / 10 mod 10)) (String (digit (n mod 10)) EmptyString).

(** [%Y] is rendered with four digits (years before 1000 are zero padded,
    as the library documents it). *)
Definition pad4 (n : Z) : string := pad2 (n / 100) +:+ pad2 n.

(** [d.strftime("%Y_%m_%d_%H_%M_%S")] *)
Definition strftime (d : t) : string :=
  pad4 (year d) +:+ "_" +:+ pad2 (month d) +:+ "_" +:+ pad2 (day d) +:+ "_"
    +:+ pad2 (hour d) +:+ "_" +:+ pad2 (minute d) +:+ "_" +:+ pad2 (second d).

(** A directive that reads one or two digits with a value in a range
    ([%m]: [1[0-2]|0[1-9]|[1-9]], [%H]: [2[0-3]|[0-1]\d|\d], ...). *)
Definition short_field (lo hi : Z) (s : string) : option Z :=
  n ← Text.number s;
  if (String.length s <=? 2)%nat && between lo n hi then Some n else None.

(** [%Y]: exactly four digits. *)
Definition year_field (s : string) : option Z :=
  n ← Text.number s;
  if (String.length s =? 4)%nat then Some n else None.

(** [%d] also reads a space followed by a digit from 1 to 9. *)
Definition day_field (s : string) : option Z :=
  match s with
  | String c (String c' EmptyString) =>
      if Ascii.eqb c " " then short_field 1 9 (String c' EmptyString)
      else short_field 1 31 s
  | _ => short_field 1 31 s
  end.

Definition parse_fields (s : string) : option (Z * Z * Z * Z * Z * Z) :=
  match Text.split "_" s with
  | [fY; fm; fd; fH; fM; fS] =>
      y ← year_field fY;
      mo ← short_field 1 12 fm;
      dd ← day_field fd;
      h ← short_field 0 23 fH;
      mi ← short_field 0 59 fM;
      ss ← short_field 0 61 fS;
      Some (y, mo, dd, h, mi, ss)
  | _ => None
  end.

(** [datetime.strptime(s, "%Y_%m_%d_%H_%M_%S")] on ASCII text: the six
    fields are read, then the constructor checks them. *)
Definition strptime (s : string) : result t :=
  match parse_fields s with
  | Some (y, mo, dd, h, mi, ss) => new y mo dd h mi ss 0
  | None =>
      raise Exn.ValueError
        ("time data '" +:+ s +:+ "' does not match format '%Y_%m_%d_%H_%M_%S'")
  end.

End Datetime.

(** ** Paths, after [pathlib.PurePosixPath] *)

Module Path.

(** A path is the list of its parts; an absolute path starts with the
    part ["/"]. *)
Definition t := list string.

Definition is_absolute (p : t) : bool :=
  match p with
  | r :: _ => String.eqb r "/"
  | [] => false
  end.

(** [a / b] for two paths: an absolute right operand replaces the left. *)
Definition joinpath (a b : t) : t :=
  if is_absolute b then b else a ++ b.

(** The parts of a [str]: split at ["/"], dropping empty and ["."]
    components. *)
Definition of_str (s : string) : t :=
  let parts :=
    List.filter (fun c => negb (String.eqb c "" || String.eqb c "."))
                (Text.split "/" s) in
  match s with
  | String c _ => if Ascii.eqb c "/" then "/" :: parts else parts
  | EmptyString => parts
  end.

(** [p.name] *)
Definition name (p : t) : string :=
  match p with
  | [r] => if String.eqb r "/" then "" else r
  | _ => List.last p ""
  end.

(** [p.parent] *)
Definition parent (p : t) : t :=
  match p with
  | [r] => if String.eqb r "/" then p else []
  | _ => List.removelast p
  end.

End Path.

(** ** The file system under the logger *)

Module Fs.

Inductive kind := RegularFile | Directory.

#[global] Instance kind_eq_dec : EqDecision kind.
Proof. solve_decision. Defined.

(** The entries of the file system, in the order directory enumeration
    reports them. *)
Definition t := list (Path.t * kind).

Definition path_eqb (p q : Path.t) : bool := bool_decide (p = q).

Fixpoint lookup (fs : t) (p : Path.t) : option kind :=
  match fs with
  | [] => None
  | (q, k) :: fs' => if path_eqb q p then Some k else lookup fs' p
  end.

(** The current directory and the root always exist. *)
Definition is_dir (fs : t) (p : Path.t) : bool :=
  match p with
  | [] => true
  | _ =>
      bool_decide (p = ["/"]) ||
      match lookup fs p with
      | Some Directory => true
      | _ => false
      end
  end.

(** The name under which entry [p] is listed in directory [d], if it is
    one of its entries; the root is an entry of no directory. *)
Definition child_name (d p : Path.t) : option string :=
  match p with
  | [] => None
  | _ =>
      if path_eqb p ["/"] then None
      else if path_eqb (List.removelast p) d then Some (List.last p "")
      else None
  end.

(** The names of the entries of directory [d], in enumeration order. *)
Definition scandir (fs : t) (d : Path.t) : list string :=
  omap (fun e => child_name d (fst e)) fs.

(** [d.glob("*.log")]: nothing when [d] is not a directory; else the
    entries of [d] whose name ends in [.log], as paths. *)
Definition glob_log (fs : t) (d : Path.t) : list Path.t :=
  if is_dir fs d
  then (fun name => d ++ [name]) <$> List.filter (fun name => Text.endswith name ".log") (scandir fs d)
  else [].

(** [os.remove(p)], on a file system without permissions: the call fails
    on a directory and on a name that is not there. *)
Definition remove (fs : t) (p : Path.t) : result unit * t :=
  match lookup fs p with
  | Some RegularFile => (Return tt, List.filter (fun e => negb (path_eqb (fst e) p)) fs)
  | Some Directory => (raise Exn.IsADirectoryError "[Errno 21] Is a directory", fs)
  | None => (raise Exn.FileNotFoundError "[Errno 2] No such file or directory", fs)
  end.

(** [open(p, "a")]: the file is created when it does not exist. *)
Definition open_append (fs : t) (p : Path.t) : result unit * t :=
  match lookup fs p with
  | Some RegularFile => (Return tt, fs)
  | Some Directory => (raise Exn.IsADirectoryError "[Errno 21] Is a directory", fs)
  | None =>
      if is_dir fs (Path.parent p)
      then (Return tt, fs ++ [(p, RegularFile)])
      else (raise Exn.FileNotFoundError "[Errno 2] No such file or directory", fs)
  end.

(** [p.mkdir(parents=True, exist_ok=True)], over the prefixes of [p] from
    the shortest: a missing prefix is created, a prefix that is a file
    stops the call. *)
Fixpoint mkdir_from (fs : t) (done todo : Path.t) : result unit * t :=
  match todo with
  | [] => (Return tt, fs)
  | part :: todo' =>
      let p := done ++ [part] in
      if is_dir fs p then mkdir_from fs p todo'
      else
        match lookup fs p with
        | Some _ =>
            (match todo' with
             | [] => raise Exn.FileExistsError "[Errno 17] File exists"
             | _ => raise Exn.NotADirectoryError "[Errno 20] Not a directory"
             end, fs)
        | None => mkdir_from (fs ++ [(p, Directory)]) p todo'
        end
  end.

Definition mkdir_parents (fs : t) (p : Path.t) : result unit * t :=
  mkdir_from fs [] p.

(** A well-formed file system names each path once, and every entry lies
    in a directory. *)
Definition wf (fs : t) : Prop :=
  NoDup (fst <$> fs) ∧
  ∀ p k, (p, k) ∈ fs → is_dir fs (Path.parent p) = true.

End Fs.

(** ** The [logging] registry and the world around the logger *)

Module Logging.

Definition NOTSET : Z := 0.
Definition DEBUG : Z := 10.
Definition INFO : Z := 20.
Definition WARNING : Z := 30.

Inductive sink :=
| Stream
| FileSink (baseFilename : Path.t).

Record Handler := {
  target : sink;
  hlevel : Z;
  formatter : option string
}.

Definition setLevel (h : Handler) (lvl : Z) : Handler :=
  {| target := target h; hlevel := lvl; formatter := formatter h |}.

Definition setFormatter (h : Handler) (fmt : string) : Handler :=
  {| target := target h; hlevel := hlevel h; formatter := Some fmt |}.

Record Logger := {
  level : Z;
  handlers : list Handler
}.

(** The root logger starts at [WARNING] without handlers; the table holds
    it under the name [root] once something has configured it. *)
Definition initial_root : Logger := {| level := WARNING; handlers := [] |}.

(** The dotted prefixes of a logger name, shortest first. *)
Fixpoint dotted_prefixes (done : string) (parts : list string) : list string :=
  match parts with
  | [] => []
  | p :: rest =>
      match rest with
      | [] => []
      | _ :: _ => (done +:+ p) :: dotted_prefixes (done +:+ p +:+ ".") rest
      end
  end.

(** The loggers above the logger [name], nearest first: those of its
    dotted prefixes that exist, then the root. *)
Definition ancestors (table : gmap string Logger) (name : string) : list Logger :=
  if String.eqb name "root" then []
  else
    omap (fun n => table !! n)
         (List.filter (fun n => negb (String.eqb n "root"))
                      (rev (dotted_prefixes "" (Text.split "." name))))
    ++ [default initial_root (table !! "root")].

(** [logger.getEffectiveLevel()]: the first level set on the way up. *)
Fixpoint first_level (chain : list Logger) : Z :=
  match chain with
  | [] => NOTSET
  | l :: rest => if level l =? NOTSET then first_level rest else level l
  end.

Definition getEffectiveLevel (table : gmap string Logger) (name : string) (l : Logger)
  : Z :=
  first_level (l :: ancestors table name).

End Logging.

(** The state outside the manager object: the file system, the clock as
    the sequence of the readings [datetime.utcnow()] will return, the
    process-wide table of named loggers, and the records handed to
    handlers so far. *)
Record World := {
  fs : Fs.t;
  clock : nat -> Datetime.t;
  reads : nat;
  loggers : gmap string Logging.Logger;
  emitted : list (Logging.Handler * string)
}.

Definition set_fs (w : World) (fs' : Fs.t) : World :=
  {| fs := fs'; clock := clock w; reads := reads w;
     loggers := loggers w; emitted := emitted w |}.

Definition set_loggers (w : World) (l : gmap string Logging.Logger) : World :=
  {| fs := fs w; clock := clock w; reads := reads w;
     loggers := l; emitted := emitted w |}.

(** Programs over the world; an exception keeps the effects made so far. *)
Definition Prog (A : Type) : Type := World -> result A * World.

#[export] Instance Prog_ret : MRet Prog := fun A a w => (Return a, w).
#[export] Instance Prog_bind : MBind Prog := fun A B k m w =>
  match m w with
  | (Return a, w') => k a w'
  | (Raise e, w') => (Raise e, w')
  end.

Definition lift {A : Type} (r : result A) : Prog A := fun w => (r, w).

Definition with_fs (op : Fs.t -> result unit * Fs.t) : Prog unit :=
  fun w => let '(r, fs') := op (fs w) in (r, set_fs w fs').

(** [datetime.utcnow()] *)
Definition utcnow : Prog Datetime.t :=
  fun w => (Return (clock w (reads w)),
            {| fs := fs w; clock := clock w; reads := S (reads w);
               loggers := loggers w; emitted := emitted w |}).

(** [logging.getLogger(name)]: the logger of that name, created on first
    use; the result refers to the entry of the table. *)
Definition getLogger (name : string) : Prog string :=
  fun w =>
    match loggers w !! name with
    | Some _ => (Return name, w)
    | None =>
        (Return name,
         set_loggers w (<[name := {| Logging.level := Logging.NOTSET;
                                     Logging.handlers := [] |}]> (loggers w)))
    end.

Definition logger_setLevel (name : string) (lvl : Z) : Prog unit :=
  fun w =>
    (Return tt,
     set_loggers w
       (alter (fun l => {| Logging.level := lvl;
                           Logging.handlers := Logging.handlers l |})
              name (loggers w))).

Definition logger_addHandler (name : string) (h : Logging.Handler) : Prog unit :=
  fun w =>
    (Return tt,
     set_loggers w
       (alter (fun l => {| Logging.level := Logging.level l;
                           Logging.handlers := Logging.handlers l ++ [h] |})
              name (loggers w))).

(** [logger.debug(msg)]: when the effective level of the logger lets a
    [DEBUG] record through, the record goes to the handlers of the logger
    and then, every logger propagating as it does unless told otherwise, to
    the handlers of the loggers above it, each handler taking it when its
    own level lets it through. *)
Definition logger_debug (name : string) (msg : string) : Prog unit :=
  fun w =>
    match loggers w !! name with
    | Some l =>
        if Logging.getEffectiveLevel (loggers w) name l <=? Logging.DEBUG
        then
          (Return tt,
           {| fs := fs w; clock := clock w; reads := reads w; loggers := loggers w;
              emitted :=
                emitted w ++
                  ((fun h => (h, msg)) <$>
                     List.filter (fun h => Logging.hlevel h <=? Logging.DEBUG)
                                 (Logging.handlers l
                                  ++ List.flat_map Logging.handlers
                                       (Logging.ancestors (loggers w) name))) |})
        else (Return tt, w)
    | None => (Return tt, w)
    end.

(** [logging.StreamHandler()] *)
Definition StreamHandler : Logging.Handler :=
  {| Logging.target := Logging.Stream; Logging.hlevel := Logging.NOTSET;
     Logging.formatter := None |}.

(** [logging.FileHandler(path)]: the file is opened for appending at once. *)
Definition FileHandler (path : Path.t) : Prog Logging.Handler :=
  _ ← with_fs (fun fs => Fs.open_append fs path);
  mret {| Logging.target := Logging.FileSink path; Logging.hlevel := Logging.NOTSET;
          Logging.formatter := None |}.

(** ** [LoggerManager] *)

Record LoggerManager := {
  save_log : bool;
  logfolder : Path.t;
  logger : option string
}.

(** Methods run on the object and the world; an assignment to an attribute
    stays when a later statement raises. *)
Definition Meth (A : Type) : Type :=
  LoggerManager -> World -> result A * LoggerManager * World.

#[export] Instance Meth_ret : MRet Meth := fun A a self w => (Return a, self, w).
#[export] Instance Meth_bind : MBind Meth := fun A B k m self w =>
  match m self w with
  | (Return a, self', w') => k a self' w'
  | (Raise e, self', w') => (Raise e, self', w')
  end.

Definition in_world {A : Type} (p : Prog A) : Meth A :=
  fun self w => let '(r, w') := p w in (r, self, w').

Definition get_self : Meth LoggerManager := fun self w => (Return self, self, w).

Definition set_logger (l : option string) : Meth unit :=
  fun self w =>
    (Return tt,
     {| save_log := save_log self; logfolder := logfolder self; logger := l |}, w).

(** [LoggerManager(base_save_path, logfolderpath, save_log)] *)
Definition LoggerManager_init (base_save_path logfolderpath : Path.t) (save : bool)
  : Prog LoggerManager :=
  _ ← (if save
       then with_fs (fun fs => Fs.mkdir_parents fs (Path.joinpath base_save_path logfolderpath))
       else mret tt);
  mret {| save_log := save;
          logfolder := Path.joinpath base_save_path logfolderpath;
          logger := None |}.

Definition log_format : string :=
  "%(asctime)s - %(name)s - %(levelname)s: %(threadName)s - %(message)s".

Definition _get_full_time : Prog string :=
  now ← utcnow;
  mret (Datetime.strftime now).

(** A method call on [self.logger]. *)
Definition on_logger {A : Type} (call : string -> Prog A) : Meth A :=
  self ← get_self;
  match logger self with
  | Some lg => in_world (call lg)
  | None =>
      in_world (lift (raise Exn.AttributeError
                        "'NoneType' object has no attribute"))
  end.

Definition _setup_save_logging (log_formatter : string) : Meth unit :=
  self ← get_self;
  stamp ← in_world _get_full_time;
  let infologpath :=
    Path.joinpath (logfolder self) (Path.of_str ("info_log" +:+ stamp +:+ ".log")) in
  infologfile ← in_world (FileHandler infologpath);
  let infologfile := Logging.setLevel infologfile Logging.INFO in
  let infologfile := Logging.setFormatter infologfile log_formatter in
  _ ← on_logger (fun lg => logger_addHandler lg infologfile);
  stamp ← in_world _get_full_time;
  let debuglogpath :=
    Path.joinpath (logfolder self) (Path.of_str ("debug_log" +:+ stamp +:+ ".log")) in
  debuglogfile ← in_world (FileHandler debuglogpath);
  let debuglogfile := Logging.setLevel debuglogfile Logging.DEBUG in
  let debuglogfile := Logging.setFormatter debuglogfile log_formatter in
  on_logger (fun lg => logger_addHandler lg debuglogfile).

Definition default_stream_log_level : Z := Logging.INFO.

Definition setup_logging (stream_log_level : Z) : Meth unit :=
  lg ← in_world (getLogger "4chan_requester");
  _ ← set_logger (Some lg);
  _ ← on_logger (fun lg => logger_setLevel lg Logging.DEBUG);
  let log_formatter := log_format in
  let streamlogs := StreamHandler in
  let streamlogs := Logging.setLevel streamlogs stream_log_level in
  let streamlogs := Logging.setFormatter streamlogs log_formatter in
  _ ← on_logger (fun lg => logger_addHandler lg streamlogs);
  self ← get_self;
  _ ← (if save_log self then _setup_save_logging log_formatter else mret tt);
  on_logger (fun lg => logger_debug lg "Logger Initialized").

(** [log_file.name[-len("yyyy_mm_dd_hh_mm_ss.log"):-len(".log")]] *)
Definition stamp_slice (name : string) : string :=
  let n := String.length name in
  let start := (n - String.length "yyyy_mm_dd_hh_mm_ss.log")%nat in
  let stop := (n - String.length ".log")%nat in
  String.substring start (stop - start) name.

(** The body of the loop of [cleanup_old_logs], over the paths the glob
    produced. *)
Fixpoint cleanup_loop (threshold_date : Datetime.t) (log_files : list Path.t)
  : Prog unit :=
  match log_files with
  | [] => mret tt
  | log_file :: rest =>
      let file_date_str := stamp_slice (Path.name log_file) in
      file_date ← lift (Datetime.strptime file_date_str);
      _ ← (if Datetime.lt file_date threshold_date
           then with_fs (fun fs => Fs.remove fs log_file)
           else mret tt);
      cleanup_loop threshold_date rest
  end.

Definition default_days_to_keep : Z := 3.

Definition cleanup_old_logs (days_to_keep : Z) : Meth unit :=
  self ← get_self;
  in_world (
    now ← utcnow;
    threshold_date ← lift (Datetime.sub_days now days_to_keep);
    log_files ← (fun w => (Return (Fs.glob_log (fs w) (logfolder self)), w));
    cleanup_loop threshold_date log_files).

Definition get_logger : Meth string :=
  self ← get_self;
  match logger self with
  | None => in_world (lift (raise Exn.RuntimeError "Logger not set up yet. Call setup_logging() first."))
  | Some lg => mret lg
  end.

(** ** The time helpers [get_time] and [get_day] *)

Module Stamps.

(** [d.strftime("_%H_%M_%S")] *)
Definition strftime_time (d : Datetime.t) : string :=
  "_" +:+ Datetime.pad2 (Datetime.hour d) +:+ "_" +:+ Datetime.pad2 (Datetime.minute d)
    +:+ "_" +:+ Datetime.pad2 (Datetime.second d).

(** [d.strftime("%Y_%m_%d")] *)
Definition strftime_day (d : Datetime.t) : string :=
  Datetime.pad4 (Datetime.year d) +:+ "_" +:+ Datetime.pad2 (Datetime.month d)
    +:+ "_" +:+ Datetime.pad2 (Datetime.day d).

(** The date of one instant with the time of day of another. *)
Definition combine (date time : Datetime.t) : Datetime.t :=
  Datetime.Build (Datetime.year date) (Datetime.month date) (Datetime.day date)
    (Datetime.hour time) (Datetime.minute time) (Datetime.second time)
    (Datetime.microsecond time).

End Stamps.

Definition get_time : Prog string :=
  now ← utcnow;
  mret (Stamps.strftime_time now).

Definition get_day : Prog string :=
  now ← utcnow;
  mret (Stamps.strftime_day now).

(** ** Vocabulary for the statements about the logger *)

(** The date the name of a log file records: what the loop of
    [cleanup_old_logs] parses. *)
Definition stamp (name : string) : result Datetime.t :=
  Datetime.strptime (stamp_slice name).

(** The name records a date before the threshold. *)
Definition expired (threshold_date : Datetime.t) (name : string) : bool :=
  match stamp name with
  | Return file_date => Datetime.lt file_date threshold_date
  | Raise _ => false
  end.

(** Entry [p] is a [*.log] entry of [folder] whose name records a date
    before the threshold. *)
Definition doomed (threshold_date : Datetime.t) (folder p : Path.t) : bool :=
  match Fs.child_name folder p with
  | Some name => Text.endswith name ".log" && expired threshold_date name
  | None => false
  end.

(** The shape [dddd_dd_dd_dd_dd_dd] of a time stamp. *)
Definition stamp_format (s : string) : bool :=
  match Text.split "_" s with
  | [fY; fm; fd; fH; fM; fS] =>
      forallb (fun '(f, n) =>
                 (String.length f =? n)%nat
                 && forallb Text.is_digit (list_ascii_of_string f))
              [(fY, 4); (fm, 2); (fd, 2); (fH, 2); (fM, 2); (fS, 2)]%nat
  | _ => false
  end.

(** The result, the object and the world after a method call. *)
Definition outcome {A : Type} (x : result A * LoggerManager * World) : result A :=
  fst (fst x).
Definition object_after {A : Type} (x : result A * LoggerManager * World)
  : LoggerManager := snd (fst x).
Definition world_after {A : Type} (x : result A * LoggerManager * World) : World :=
  snd x.

(** The entries the glob of [cleanup_old_logs] selects in [d]. *)
Definition is_log_of (d p : Path.t) : bool :=
  match Fs.child_name d p with
  | Some name => Text.endswith name ".log"
  | None => false
  end.

(** The world after one reading of the clock. *)
Definition tick (w : World) : World := snd (utcnow w).

(** What the loop of [cleanup_old_logs] leaves of the file system once it
    went through [files] without an exception. *)
Definition swept (threshold_date : Datetime.t) (files : list Path.t) (fs : Fs.t)
  : Fs.t :=
  List.filter
    (fun e => negb (bool_decide (fst e ∈ files)
                    && expired threshold_date (Path.name (fst e))))
    fs.

(** The file system without the [*.log] entries of [folder] that record a
    date before the threshold. *)
Definition without_expired (threshold_date : Datetime.t) (folder : Path.t) (fs : Fs.t)
  : Fs.t :=
  List.filter (fun e => negb (doomed threshold_date folder (fst e))) fs.

(** The cleanup as the specification words it: the call removes exactly
    the [*.log] files of the log folder whose time stamp is older than the
    threshold. *)
Definition removes_exactly_expired
  (days_to_keep : Z) (self : LoggerManager) (w : World) : Prop :=
  ∀ threshold_date,
    Datetime.sub_days (clock w (reads w)) days_to_keep = Return threshold_date →
    fs (world_after (cleanup_old_logs days_to_keep self w)) =
      without_expired threshold_date (logfolder self) (fs w).

(** The handling of names without a time stamp as the specification words
    it: such a file is skipped without an exception, and the other files
    are processed. *)
Definition skips_unstamped
  (days_to_keep : Z) (self : LoggerManager) (w : World) : Prop :=
  ∀ threshold_date,
    Datetime.sub_days (clock w (reads w)) days_to_keep = Return threshold_date →
    outcome (cleanup_old_logs days_to_keep self w) = Return tt ∧
    fs (world_after (cleanup_old_logs days_to_keep self w)) =
      without_expired threshold_date (logfolder self) (fs w).

(** Decidable forms of the assumptions on a sample world. *)
Definition wf_check (fs0 : Fs.t) : bool :=
  bool_decide (NoDup (fst <$> fs0))
  && forallb (fun e => Fs.is_dir fs0 (Path.parent (fst e))) fs0.

Definition stamped_check (threshold_date : Datetime.t) (folder : Path.t) (fs0 : Fs.t)
  : bool :=
  forallb
    (fun e =>
       match Fs.child_name folder (fst e) with
       | Some name =>
           if Text.endswith name ".log"
           then match stamp name with
                | Return _ =>
                    implb (expired threshold_date name)
                          (match snd e with Fs.RegularFile => true | _ => false end)
                | Raise _ => false
                end
           else true
       | None => true
       end) fs0.

(** The file system after [open(p, "a")]. *)
Definition touch (fs0 : Fs.t) (p : Path.t) : Fs.t := snd (Fs.open_append fs0 p).

(** No character of [s] is the separator. *)
Definition no_sep (sep : ascii) (s : string) : bool :=
  forallb (fun c => negb (Ascii.eqb c sep)) (list_ascii_of_string s).

(** The log file names as the specification words them, with an
    underscore between the prefix and the time stamp. *)
Definition spec_info_name (stamp : string) : string :=
  "info_log_" +:+ stamp +:+ ".log".
Definition spec_debug_name (stamp : string) : string :=
  "debug_log_" +:+ stamp +:+ ".log".

(** The setup as the specification words it: afterwards the log folder
    holds two files with those names, for time stamps of the stated
    format. *)
Definition creates_spec_named_files
  (stream_log_level : Z) (self : LoggerManager) (w : World) : Prop :=
  ∃ stamp1 stamp2,
    stamp_format stamp1 = true ∧ stamp_format stamp2 = true ∧
    Fs.lookup (fs (world_after (setup_logging stream_log_level self w)))
      (logfolder self ++ [spec_info_name stamp1]) = Some Fs.RegularFile ∧
    Fs.lookup (fs (world_after (setup_logging stream_log_level self w)))
      (logfolder self ++ [spec_debug_name stamp2]) = Some Fs.RegularFile.

(** The handlers [setup_logging] attaches, and the handlers a logger of the
    table has. *)
Definition stream_handler (stream_log_level : Z) : Logging.Handler :=
  Logging.setFormatter (Logging.setLevel StreamHandler stream_log_level) log_format.

Definition file_handler (path : Path.t) (lvl : Z) : Logging.Handler :=
  Logging.setFormatter
    (Logging.setLevel
       {| Logging.target := Logging.FileSink path; Logging.hlevel := Logging.NOTSET;
          Logging.formatter := None |} lvl)
    log_format.

Definition handlers_of (w : World) (name : string) : list Logging.Handler :=
  match loggers w !! name with
  | Some l => Logging.handlers l
  | None => []
  end.

(** The records a [debug] call hands out, given the handlers in place. *)
Definition debug_records (hs : list Logging.Handler) (msg : string)
  : list (Logging.Handler * string) :=
  (fun h => (h, msg)) <$> List.filter (fun h => Logging.hlevel h <=? Logging.DEBUG) hs.

(** The calls a client makes on a manager, and the state they leave,
    whatever their outcome. *)
Inductive call :=
| SetupLogging (stream_log_level : Z)
| CleanupOldLogs (days_to_keep : Z)
| GetLogger.

Definition perform (s : LoggerManager * World) (c : call) : LoggerManager * World :=
  match c with
  | SetupLogging lvl =>
      let x := setup_logging lvl (fst s) (snd s) in (object_after x, world_after x)
  | CleanupOldLogs days =>
      let x := cleanup_old_logs days (fst s) (snd s) in (object_after x, world_after x)
  | GetLogger =>
      let x := get_logger (fst s) (snd s) in (object_after x, world_after x)
  end.

Definition run (calls : list call) (s : LoggerManager * World) : LoggerManager * World :=
  fold_left perform calls s.

Definition is_setup (c : call) : bool :=
  match c with
  | SetupLogging _ => true
  | _ => false
  end.

(** The manager holds logger [lg], and [lg] is in the table of loggers. *)
Definition ready (lg : string) (self : LoggerManager) (w : World) : Prop :=
  logger self = Some lg ∧ is_Some (loggers w !! lg).

(** A method keeps a property of the object and the world, whatever its
    outcome. *)
Definition keeps {A : Type} (P : LoggerManager -> World -> Prop) (m : Meth A) : Prop :=
  ∀ self w, P self w → P (object_after (m self w)) (world_after (m self w)).

(** A program over the world leaves every logger of the table in it. *)
Definition keeps_loggers {A : Type} (p : Prog A) : Prop :=
  ∀ w lg, is_Some (loggers w !! lg) → is_Some (loggers (snd (p w)) !! lg).

(** Sample worlds for the logger. *)
Module LogSamples.

Definition base : Path.t := ["/"; "srv"; "4tct"].
Definition folder : Path.t := ["/"; "srv"; "4tct"; "logs"].

(** 10 March 2024, 12:00:00.25 UTC. *)
Definition noon : Datetime.t := Datetime.Build 2024 3 10 12 0 0 250000.

(** 2 January 2024, 03:04:05.678 UTC. *)
Definition night : Datetime.t := Datetime.Build 2024 1 2 3 4 5 678000.

Definition world_at (now : Datetime.t) (files : Fs.t) : World :=
  {| fs := files; clock := fun _ => now; reads := 0;
     loggers := ∅; emitted := [] |}.

Definition dirs : Fs.t :=
  [ (["/"; "srv"], Fs.Directory);
    (["/"; "srv"; "4tct"], Fs.Directory);
    (folder, Fs.Directory) ].

(** A log written four days before [noon], one written two days before,
    and a file that is no log. *)
Definition tidy : Fs.t :=
  dirs ++
  [ (folder ++ ["info_log2024_03_06_12_00_00.log"], Fs.RegularFile);
    (folder ++ ["debug_log2024_03_08_12_00_00.log"], Fs.RegularFile);
    (folder ++ ["readme.txt"], Fs.RegularFile) ].

(** The same folder with a log file that carries no time stamp,
    enumerated first. *)
Definition untidy : Fs.t :=
  dirs ++
  [ (folder ++ ["notes.log"], Fs.RegularFile);
    (folder ++ ["info_log2024_03_06_12_00_00.log"], Fs.RegularFile);
    (folder ++ ["debug_log2024_03_08_12_00_00.log"], Fs.RegularFile) ].

Definition manager (save : bool) : LoggerManager :=
  {| save_log := save; logfolder := folder; logger := None |}.

End LogSamples.

(** Auxiliary views of the calendar code, used to reason about it. *)
Module Calendar.

Import Datetime.

(** Month and day from the zero-based day of the year: the last steps of
    [ord2ymd]. *)
Definition month_day (n : Z) (leapyear : bool) : Z * Z :=
  let month := Z.shiftr (n + 50) 5 in
  let preceding :=
    DAYS_BEFORE_MONTH month + (if (2 <? month) && leapyear then 1 else 0) in
  let '(month, preceding) :=
    if n <? preceding
    then (month - 1,
          preceding - (DAYS_IN_MONTH (month - 1)
                       + (if (month - 1 =? 2) && leapyear then 1 else 0)))
    else (month, preceding) in
  (month, n - preceding + 1).

Definition month_day_check (leapyear : bool) (n : Z) : bool :=
  let '(m, d) := month_day n leapyear in
  between 1 m 12
  && between 1 d (DAYS_IN_MONTH m + (if (m =? 2) && leapyear then 1 else 0))
  && (DAYS_BEFORE_MONTH m + (if (2 <? m) && leapyear then 1 else 0) + d =? n + 1).

(** The date of a [datetime], as the list its comparison starts with. *)
Definition date_of (d : t) : list Z := [year d; month d; day d].

(** [d.replace(microsecond=0)]: the instant a file name records. *)
Definition to_second (d : t) : t :=
  Build (year d) (month d) (day d) (hour d) (minute d) (second d) 0.

End Calendar.

(** More sample files for the loader: a JSON array of the six names, and a
    JSON number. *)
Module ConfigOddities.

Definition names_text : string :=
  JsonText.quoted
    "['boards', 'exclude_boards', 'request_time_limit', 'output_path',
      'save_log', 'clean_log']".

Definition names : Json.value :=
  Json.Arr (Json.Str <$> Config.required_fields).

Definition disk : gmap string Config.node :=
  list_to_map
    [ ("names.json", Config.File names_text);
      ("five.json", Config.File "5");
      ("conf.d", Config.Dir) ].

End ConfigOddities.

(** Decidable form of: the [*.log] entries of [folder] are regular files
    with a readable stamp. *)
Definition regular_stamped_check (folder : Path.t) (fs0 : Fs.t) : bool :=
  forallb
    (fun e =>
       match Fs.child_name folder (fst e) with
       | Some name =>
           if Text.endswith name ".log"
           then match snd e, stamp name with
                | Fs.RegularFile, Return _ => true
                | _, _ => false
                end
           else true
       | None => true
       end) fs0.

(** ** [pathlib]: the parents of a path and its text *)

Module Pathlib.

(** [p.parents]: the ancestors from the nearest; an absolute path stops at
    the root, a relative one at [.], the empty path. *)
Definition parents (p : Path.t) : list Path.t :=
  let lo := if Path.is_absolute p then 1%nat else 0%nat in
  (fun k => take k p) <$> rev (seq lo (length p - lo)).

(** [str(p)] *)
Definition str (p : Path.t) : string :=
  match p with
  | [] => "."
  | r :: rest =>
      if String.eqb r "/" then "/" +:+ String.concat "/" rest
      else String.concat "/" p
  end.

End Pathlib.

(** ** [argparse]: declaring options, their defaults, converting a word *)

Module Argparse.

(** The values an attribute of the parsed namespace may hold;
    [SUPPRESS] is the marker of argparse for no attribute at all. *)
Inductive value :=
| VBool (b : bool)
| VInt (z : Z)
| VFloat (f : spec_float)
| VStr (s : string)
| VList (l : list value)
| VNone
| SUPPRESS.

(** The functions the tool passes as [type]. *)
Inductive callable := builtin_str | utils_check_positive_float.

Definition __name__ (f : callable) : string :=
  match f with
  | builtin_str => "str"
  | utils_check_positive_float => "check_positive_float"
  end.

(** The keyword arguments of [add_argument] the tool uses. *)
Module Kw.

Inductive t :=
| action (name : string)
| nargs (n : string)
| type (f : callable)
| default (v : value)
| dest (name : string)
| metavar (m : string)
| help (text : string).

End Kw.

Definition kw_action (kwargs : list Kw.t) : option string :=
  head (omap (fun k => match k with Kw.action a => Some a | _ => None end) kwargs).
Definition kw_nargs (kwargs : list Kw.t) : option string :=
  head (omap (fun k => match k with Kw.nargs a => Some a | _ => None end) kwargs).
Definition kw_type (kwargs : list Kw.t) : option callable :=
  head (omap (fun k => match k with Kw.type a => Some a | _ => None end) kwargs).
Definition kw_default (kwargs : list Kw.t) : option value :=
  head (omap (fun k => match k with Kw.default a => Some a | _ => None end) kwargs).
Definition kw_dest (kwargs : list Kw.t) : option string :=
  head (omap (fun k => match k with Kw.dest a => Some a | _ => None end) kwargs).
Definition kw_metavar (kwargs : list Kw.t) : option string :=
  head (omap (fun k => match k with Kw.metavar a => Some a | _ => None end) kwargs).
Definition kw_help (kwargs : list Kw.t) : option string :=
  head (omap (fun k => match k with Kw.help a => Some a | _ => None end) kwargs).

(** The number of words an option takes: [0] for a flag, [None] for one
    word, ["*"] for any number. *)
Inductive nargs_value := NInt (n : Z) | NStr (s : string).

Record Action := {
  option_strings : list string;
  dest : string;
  nargs : option nargs_value;
  const : value;
  default : value;
  type : option callable;
  help : option string;
  metavar : option string
}.

Record ArgumentParser_ := {
  description : string;
  _actions : list Action
}.

(** What ends a call: the [ArgumentError] of argparse, the [IndexError] of
    an index out of range, any other exception, or — a limit of this
    model, not of argparse — a use of the library the tool does not make
    (positional arguments, other actions, a command line with words). *)
Inductive failure :=
| ArgumentError (argument_name message : string)
| IndexError (message : string)
| Uncaught (e : exn)
| Unmodelled.

Inductive attempt (A : Type) : Type :=
| Done (a : A)
| Failed (f : failure).
Arguments Done {A} a.
Arguments Failed {A} f.

#[export] Instance attempt_ret : MRet attempt := fun A a => Done a.
#[export] Instance attempt_bind : MBind attempt := fun A B k r =>
  match r with
  | Done a => k a
  | Failed f => Failed f
  end.

(** [l[i]] *)
Definition index {A : Type} (l : list A) (i : nat) : attempt A :=
  match l !! i with
  | Some x => Done x
  | None => Failed (IndexError (Py.str_of_Z (Z.of_nat i)))
  end.

Definition starts_with_dash (s : string) : bool :=
  match s with
  | String c _ => Ascii.eqb c "-"
  | EmptyString => false
  end.

(** [len(s) > 1 and s[1] in "-"] *)
Definition is_long (s : string) : bool :=
  match s with
  | String _ (String c _) => Ascii.eqb c "-"
  | _ => false
  end.

(** [s.lstrip("-")] *)
Fixpoint lstrip (s : string) : string :=
  match s with
  | String c s' => if Ascii.eqb c "-" then lstrip s' else s
  | EmptyString => EmptyString
  end.

(** [s.replace("-", "_")] *)
Fixpoint replace (s : string) : string :=
  match s with
  | String c s' => String (if Ascii.eqb c "-" then "_"%char else c) (replace s')
  | EmptyString => EmptyString
  end.

(** The [dest] of an option: the one given, or the first long option
    string (the first option string when none is long) without its leading
    dashes and with the other dashes turned into underscores. *)
Definition _get_optional_kwargs (args : list string) (kwargs : list Kw.t)
  : attempt string :=
  if existsb (fun s => String.eqb s "") args
  then Failed (IndexError "string index out of range")
  else if negb (forallb starts_with_dash args)
  then Failed (Uncaught (Exn.Build Exn.ValueError
                           "invalid option string: must start with a character '-'"))
  else
    match kw_dest kwargs with
    | Some d => Done d
    | None =>
        let dest_option_string :=
          match List.filter is_long args with
          | long :: _ => long
          | [] => List.hd "" args
          end in
        let d := lstrip dest_option_string in
        if String.eqb d ""
        then Failed (Uncaught (Exn.Build Exn.ValueError "dest= is required for options"))
        else Done (replace d)
    end.

Definition unexpected_keyword : failure :=
  Uncaught (Exn.Build Exn.TypeError "__init__() got an unexpected keyword argument").

(** The action object for the registered action names the tool uses;
    [store] is the default.  A flag takes no [nargs], [type] or
    [metavar]. *)
Definition make_action (args : list string) (d : string) (kwargs : list Kw.t)
  : attempt Action :=
  let flag (const default : value) :=
    match kw_nargs kwargs, kw_type kwargs, kw_metavar kwargs with
    | None, None, None =>
        Done {| option_strings := args; dest := d; nargs := Some (NInt 0);
                const := const;
                default := match kw_default kwargs with Some v => v | None => default end;
                type := None; help := kw_help kwargs; metavar := None |}
    | _, _, _ => Failed unexpected_keyword
    end in
  match kw_action kwargs with
  | None | Some "store" =>
      Done {| option_strings := args; dest := d;
              nargs := NStr <$> kw_nargs kwargs;
              const := VNone;
              default := match kw_default kwargs with Some v => v | None => VNone end;
              type := kw_type kwargs; help := kw_help kwargs;
              metavar := kw_metavar kwargs |}
  | Some "store_true" => flag (VBool true) (VBool false)
  | Some "store_false" => flag (VBool false) (VBool true)
  | Some "help" => flag VNone SUPPRESS
  | Some _ => Failed Unmodelled
  end.

(** The option strings of the new action that are taken already. *)
Definition conflicts (action : Action) (self : ArgumentParser_) : list string :=
  List.filter
    (fun s => existsb (fun a => existsb (String.eqb s) (option_strings a))
                      (_actions self))
    (option_strings action).

Definition _add_action (action : Action) (self : ArgumentParser_)
  : attempt ArgumentParser_ :=
  match conflicts action self with
  | [] => Done {| description := description self;
                  _actions := _actions self ++ [action] |}
  | confl =>
      Failed (ArgumentError
                (String.concat "/" (option_strings action))
                ((match confl with
                  | [_] => "conflicting option string: "
                  | _ => "conflicting option strings: "
                  end) +:+ String.concat ", " confl))
  end.

(** [self.add_argument] for option strings. *)
Definition add_argument (args : list string) (kwargs : list Kw.t)
    (self : ArgumentParser_) : attempt ArgumentParser_ :=
  match args with
  | [] => Failed Unmodelled
  | [name] =>
      if negb (String.eqb name "") && negb (starts_with_dash name)
      then Failed Unmodelled
      else
        d ← _get_optional_kwargs args kwargs;
        action ← make_action args d kwargs;
        _add_action action self
  | _ =>
      d ← _get_optional_kwargs args kwargs;
      action ← make_action args d kwargs;
      _add_action action self
  end.

(** [argparse.ArgumentParser(description=...)]: the parser starts with the
    help option. *)
Definition ArgumentParser (description : string) : attempt ArgumentParser_ :=
  add_argument ["-h"; "--help"]
    [Kw.action "help"; Kw.default SUPPRESS;
     Kw.help "show this help message and exit"]
    {| description := description; _actions := [] |}.

Definition _get_action_name (action : Action) : string :=
  String.concat "/" (option_strings action).

Definition Namespace := list (string * value).

Definition getattr (namespace : Namespace) (name : string) : option value :=
  snd <$> List.find (fun a => String.eqb (fst a) name) namespace.

Definition setattr (namespace : Namespace) (name : string) (v : value) : Namespace :=
  match getattr namespace name with
  | Some _ =>
      (fun a => if String.eqb (fst a) name then (name, v) else a) <$> namespace
  | None => namespace ++ [(name, v)]
  end.

Section Conversion.

Variable float_of_string : string -> option spec_float.
Variable float_repr : spec_float -> string.
(** [repr] of a [str] is the interpreter's. *)
Variable str_repr : string -> string.

Definition call (f : callable) (arg_string : string) : result value :=
  match f with
  | builtin_str => Return (VStr arg_string)
  | utils_check_positive_float =>
      fvalue ← check_positive_float float_of_string float_repr (Py.Str arg_string);
      Return (VFloat fvalue)
  end.

(** [self._get_value(action, arg_string)]: the word through the [type]
    of the action.  An [ArgumentTypeError] gives its own message to the
    [ArgumentError]; a [TypeError] or [ValueError] gives the stock one. *)
Definition _get_value (action : Action) (arg_string : string) : attempt value :=
  match type action with
  | None => Done (VStr arg_string)
  | Some type_func =>
      match call type_func arg_string with
      | Return result => Done result
      | Raise err =>
          if Exn.issubclass (Exn.cls err) Exn.ArgumentTypeError
          then Failed (ArgumentError (_get_action_name action) (Exn.msg err))
          else if Exn.issubclass (Exn.cls err) Exn.TypeError
                  || Exn.issubclass (Exn.cls err) Exn.ValueError
          then Failed (ArgumentError (_get_action_name action)
                         ("invalid " +:+ __name__ type_func +:+ " value: "
                            +:+ str_repr arg_string))
          else Failed (Uncaught err)
      end
  end.

(** The defaults go to the namespace first: one attribute per [dest], the
    first action of a [dest] giving it, none for [SUPPRESS]. *)
Definition add_defaults (actions : list Action) : Namespace :=
  fold_left
    (fun namespace action =>
       if String.eqb (dest action) "==SUPPRESS==" then namespace
       else match getattr namespace (dest action), default action with
            | Some _, _ => namespace
            | None, SUPPRESS => namespace
            | None, v => namespace ++ [(dest action, v)]
            end)
    actions [].

(** At the end of the parse, a default that is a [str] and still in
    place goes through the [type] of its action. *)
Fixpoint convert_defaults (actions : list Action) (namespace : Namespace)
  : attempt Namespace :=
  match actions with
  | [] => Done namespace
  | action :: actions' =>
      match default action, getattr namespace (dest action) with
      | VStr s, Some (VStr s') =>
          if String.eqb s s'
          then v ← _get_value action s;
               convert_defaults actions' (setattr namespace (dest action) v)
          else convert_defaults actions' namespace
      | _, _ => convert_defaults actions' namespace
      end
  end.

(** [self.parse_args(args)] for a command line without words. *)
Definition parse_args (args : list string) (self : ArgumentParser_)
  : attempt Namespace :=
  match args with
  | [] => convert_defaults (_actions self) (add_defaults (_actions self))
  | _ => Failed Unmodelled
  end.

End Conversion.

End Argparse.

(** ** [get_argparser] *)

Section GetArgparser.

Import Argparse.

(** [this_file] is [Path(__file__).resolve()]. *)
Definition get_argparser (this_file : Path.t) : attempt ArgumentParser_ :=
  argparser ← ArgumentParser "4TCT tool";
  argparser ←
    add_argument ["-c"; "--config"]
      [Kw.action "store_true";
       Kw.help "If provided, the script will load configuration from 'config.json' located one level above this file."]
      argparser;
  argparser ←
    add_argument ["-b"; "--boards"]
      [Kw.metavar "boards:"; Kw.nargs "*"; Kw.action "store"; Kw.type builtin_str;
       Kw.default (VList []);
       Kw.help "List boards to include after this flag, use the short form board name from 4chan, e.g. '-b a c g sci' would collect data from the boards /a/, /c/, /g/ and /sci/"]
      argparser;
  argparser ←
    add_argument ["-e"; "--exclude"]
      [Kw.action "store_true";
       Kw.help "Boolean flag - whether to exclude the flags after -b, e.g. '-b a c g sci -e' would exclude the boards /a/ /c/ /g/ and /sci/ from collection"]
      argparser;
  argparser ←
    add_argument ["--request-time-limit"]
      [Kw.type utils_check_positive_float; Kw.default (VInt 1);
       Kw.help "Wait time between each request (must be greater than 1)"]
      argparser;
  repo ← index (Pathlib.parents this_file) 1;
  argparser ←
    add_argument ["--output-path"]
      [Kw.type builtin_str; Kw.default (VStr (Pathlib.str repo));
       Kw.help "Path for output folder (default: '4CTC repo folder')"]
      argparser;
  argparser ←
    add_argument ["--no-save-log"]
      [Kw.action "store_false"; Kw.dest "save_log";
       Kw.help "If provided, logs will not be saved"]
      argparser;
  argparser ←
    add_argument ["--no-clean-log"]
      [Kw.action "store_false"; Kw.dest "clean_log";
       Kw.help "If provided, logs older than 3 days will not be removed"]
      argparser;
  mret argparser.

End GetArgparser.

(** A place of the module file, and the action [get_argparser] declares
    for the request time limit. *)
Module ArgSamples.

Import Argparse.

Definition this_file : Path.t := ["/"; "srv"; "4tct"; "src"; "utils.py"].

Definition request_time_limit : Action :=
  {| option_strings := ["--request-time-limit"]; dest := "request_time_limit";
     nargs := None; const := VNone; default := VInt 1;
     type := Some utils_check_positive_float;
     help := Some "Wait time between each request (must be greater than 1)";
     metavar := None |}.

End ArgSamples.

(** A process in which the root logger already has a console handler. *)
Module RootSamples.

Definition root_stream : Logging.Handler :=
  {| Logging.target := Logging.Stream; Logging.hlevel := Logging.NOTSET;
     Logging.formatter := None |}.

Definition world : World :=
  {| fs := LogSamples.dirs; clock := fun _ => LogSamples.night; reads := 0;
     loggers := {[ "root" := {| Logging.level := Logging.WARNING;
                                Logging.handlers := [root_stream] |} ]};
     emitted := [] |}.

End RootSamples.

(** The first failure kind as the specification words it: every path
    that does not exist makes the loader fail with [FileNotFoundError]. *)
Definition missing_path_not_found
    (json_load : string -> result Json.value) (fs : gmap string Config.node)
    (path : string) : Prop :=
  fs !! path = None →
  ∃ e, Config.load_and_validate_config json_load fs path = Raise e ∧
       Exn.cls e = Exn.FileNotFoundError.

(** * Properties *)

(** ** The request-time-limit validator *)

Section CheckPositiveFloatFacts.

Variable float_of_string : string -> option spec_float.
Variable float_repr : spec_float -> string.

(** Swapping the operands of a float comparison reverses its outcome. *)
Lemma SFcompare_antisym x y c :
  SFcompare x y = Some c → SFcompare y x = Some (CompOpp c).
Proof.
  destruct x as [sx|sx| |sx mx ex], y as [sy|sy| |sy my ey]; simpl;
    try discriminate; try (destruct sx); try (destruct sy);
    intros [= <-]; try reflexivity.
  all: pose proof (Pos.compare_cont_antisym mx my Eq) as Hm; simpl in Hm;
    rewrite (Z.compare_antisym ex ey), <- Hm;
    destruct (ex ?= ey); simpl; rewrite ?CompOpp_involutive; reflexivity.
Qed.

Lemma float_ge_not_lt x y : Py.float_ge x y = true → Py.float_lt x y = false.
Proof.
  unfold Py.float_ge, Py.float_lt, SFleb, SFltb.
  destruct (SFcompare y x) as [c|] eqn:Hc; [|discriminate].
  rewrite (SFcompare_antisym _ _ _ Hc).
  destruct c; simpl; congruence.
Qed.

(** C2: whenever [float(v)] is a float [f], the validator raises
    [argparse.ArgumentTypeError] if [f < 1.0], and returns [f] itself, a
    float, if [f >= 1.0]. *)
Theorem check_positive_float_spec (v : Py.value) (f : spec_float) :
  Py.float float_of_string v = Return f →
  (Py.float_lt f Py.float_one = true →
   check_positive_float float_of_string float_repr v =
     raise Exn.ArgumentTypeError
       ("--request-time-limit value should be at least 1, now is "
          +:+ Py.format float_repr v)) ∧
  (Py.float_ge f Py.float_one = true →
   check_positive_float float_of_string float_repr v = Return f).
Proof.
  intros Hf. unfold check_positive_float. rewrite Hf. simpl. split.
  - intros ->. reflexivity.
  - intros Hge. rewrite (float_ge_not_lt _ _ Hge). reflexivity.
Qed.

End CheckPositiveFloatFacts.

(** The validator on the command-line words [0.5] and [2.5]. *)
Lemma check_positive_float_spec_witness :
  Exn.cls <$> (match check_positive_float decimal_float_of_string (fun _ => "")
                       (Py.Str "0.5") with
               | Raise e => Some e
               | Return _ => None
               end) = Some Exn.ArgumentTypeError ∧
  check_positive_float decimal_float_of_string (fun _ => "") (Py.Str "2.5") =
    Return (S754_finite false 5629499534213120 (-51)).
Proof.
  split.
  - rewrite (proj1 (check_positive_float_spec decimal_float_of_string (fun _ => "")
                      (Py.Str "0.5") (S754_finite false 4503599627370496 (-53))
                      eq_refl) eq_refl).
    reflexivity.
  - exact (proj2 (check_positive_float_spec decimal_float_of_string (fun _ => "")
                    (Py.Str "2.5") (S754_finite false 5629499534213120 (-51))
                    eq_refl) eq_refl).
Defined.

(** ** The configuration loader *)

Section LoaderFacts.

Import Config.

Variable json_load : string -> result Json.value.

(** On a [dict], the comprehension keeps the fields that are not keys. *)
Lemma missing_fields_obj (fields : list string) (cfg : gmap string Json.value) :
  missing_fields fields (Json.Obj cfg) = Return (filter (λ k, cfg !! k = None) fields).
Proof.
  induction fields as [|k fields IH]; [reflexivity|].
  cbn [missing_fields Json.contains]. rewrite IH, filter_cons.
  destruct (cfg !! k) as [v|] eqn:Hk.
  - rewrite bool_decide_eq_true_2 by eauto.
    rewrite decide_False by discriminate. reflexivity.
  - rewrite bool_decide_eq_false_2 by (intros [? ?]; discriminate).
    rewrite decide_True by reflexivity. reflexivity.
Qed.

Lemma filter_absent_nil (fields : list string) (cfg : gmap string Json.value) :
  (∀ k, k ∈ fields → is_Some (cfg !! k)) →
  filter (λ k, cfg !! k = None) fields = [].
Proof.
  intros Hall. induction fields as [|k fields IH]; [reflexivity|].
  rewrite filter_cons_False.
  - apply IH. intros k' Hk'. apply Hall. now right.
  - destruct (Hall k) as [v Hv]; [left|]. rewrite Hv. discriminate.
Qed.

(** The [try] block succeeds with the decoded value. *)
Lemma load_decoded fs path text config :
  fs !! path = Some (File text) →
  json_load text = Return config →
  load_and_validate_config json_load fs path =
    (missing ← missing_fields required_fields config;
     match missing return result Json.value with
     | _ :: _ =>
         raise Exn.ValueError
           ("Missing required fields in config: " +:+ String.concat ", " missing)
     | [] => Return config
     end).
Proof.
  intros Hfs Hload. unfold load_and_validate_config, open_read.
  rewrite Hfs. cbn. rewrite Hload. reflexivity.
Qed.

(** C1: a file holding a JSON object with the six required keys is loaded
    as exactly the decoded mapping. *)
Theorem load_and_validate_config_returns_content
    (fs : gmap string node) (path text : string) (cfg : gmap string Json.value) :
  fs !! path = Some (File text) →
  json_load text = Return (Json.Obj cfg) →
  (∀ k, k ∈ required_fields → is_Some (cfg !! k)) →
  load_and_validate_config json_load fs path = Return (Json.Obj cfg).
Proof.
  intros Hfs Hload Hall.
  rewrite (load_decoded _ _ _ _ Hfs Hload), missing_fields_obj.
  rewrite (filter_absent_nil _ _ Hall). reflexivity.
Qed.

(** C3: when some required key is absent from the decoded object, the
    loader raises [ValueError] whose message is the fixed prefix followed
    by the absent required keys, in the order of [required_fields],
    separated by a comma and a space; a name is listed exactly when it is
    a required key absent from the mapping. *)
Theorem load_and_validate_config_missing_fields
    (fs : gmap string node) (path text : string) (cfg : gmap string Json.value) :
  fs !! path = Some (File text) →
  json_load text = Return (Json.Obj cfg) →
  (∃ k, k ∈ required_fields ∧ cfg !! k = None) →
  let missing := filter (λ k, cfg !! k = None) required_fields in
  load_and_validate_config json_load fs path =
    raise Exn.ValueError
      ("Missing required fields in config: " +:+ String.concat ", " missing) ∧
  (∀ k, k ∈ missing ↔ k ∈ required_fields ∧ cfg !! k = None).
Proof.
  intros Hfs Hload (k0 & Hreq & Habs) missing. split.
  - rewrite (load_decoded _ _ _ _ Hfs Hload), missing_fields_obj.
    fold missing.
    assert (Hin : k0 ∈ missing) by (apply list_elem_of_filter; auto).
    clearbody missing.
    destruct missing; [inversion Hin | reflexivity].
  - intros k. unfold missing. rewrite list_elem_of_filter. tauto.
Qed.

Lemma lookup_failure_ENOENT (fs : gmap string node) (components : list string) :
  ∀ done,
    Forall (fun c => (String.length c ≤ NAME_MAX)%nat) components →
    Forall (fun a => ∀ text, fs !! a ≠ Some (File text)) (ancestors_from done components) →
    lookup_failure fs done components = ENOENT.
Proof.
  induction components as [|c rest IH]; intros done Hlen Hanc; [reflexivity|].
  apply Forall_cons in Hlen as [Hc Hlen].
  cbn [lookup_failure].
  replace (NAME_MAX <? String.length c)%nat with false
    by (symmetry; apply Nat.ltb_ge; exact Hc).
  destruct rest as [|c' rest]; [reflexivity|].
  cbn [ancestors_from] in Hanc. apply Forall_cons in Hanc as [Ha Hanc].
  destruct (String.eqb (done +:+ c) ""); [now apply IH|].
  destruct (fs !! (done +:+ c)) as [[text|]|] eqn:Hl; [|now apply IH|reflexivity].
  now destruct (Ha text).
Qed.


End LoaderFacts.

(** The loader on the sample disk: [config.json] is returned as decoded. *)
Lemma load_and_validate_config_returns_content_witness :
  Config.load_and_validate_config JsonText.json_load ConfigSamples.disk "config.json" =
    Return (Json.Obj ConfigSamples.complete).
Proof.
  apply (load_and_validate_config_returns_content JsonText.json_load
           ConfigSamples.disk "config.json" ConfigSamples.complete_text).
  - vm_compute. reflexivity.
  - vm_compute. reflexivity.
  - apply Forall_forall. apply (bool_decide_unpack _). vm_compute. exact I.
Defined.

(** [partial.json] lacks [exclude_boards] and [clean_log]. *)
Lemma load_and_validate_config_missing_fields_witness :
  Config.load_and_validate_config JsonText.json_load ConfigSamples.disk "partial.json" =
    raise Exn.ValueError
      "Missing required fields in config: exclude_boards, clean_log".
Proof.
  refine (proj1 (load_and_validate_config_missing_fields JsonText.json_load
                   ConfigSamples.disk "partial.json" ConfigSamples.partial_text
                   ConfigSamples.partial _ _ _)).
  - vm_compute. reflexivity.
  - vm_compute. reflexivity.
  - exists "clean_log". split; [|vm_compute; reflexivity].
    apply (bool_decide_unpack _). vm_compute. exact I.
Defined.



(** ** The calendar *)

Section CalendarFacts.

Import Datetime Calendar.


Lemma is_leap_true_iff y : is_leap y = true ↔ (y mod 4 = 0 ∧ (y mod 100 ≠ 0 ∨ y mod 400 = 0)).
Proof.
unfold is_leap. rewrite andb_true_iff, orb_true_iff, negb_true_iff, !Z.eqb_eq, Z.eqb_neq. tauto.
Qed.

Lemma month_day_checked leapyear n :
0 ≤ n < 365 → month_day_check leapyear n = true.
Proof.
intros Hn.
assert (Hall : forallb (month_day_check leapyear) (seqZ 0 365) = true)
  by (destruct leapyear; vm_compute; reflexivity).
rewrite forallb_forall in Hall. apply Hall.
apply list_elem_of_In, elem_of_seqZ. lia.
Qed.

Lemma ord2ymd_eq n :
ord2ymd n =
  let n0 := n - 1 in
  let n400 := n0 / DI400Y in
  let r400 := n0 mod DI400Y in
  let n100 := r400 / DI100Y in
  let r100 := r400 mod DI100Y in
  let n4 := r100 / DI4Y in
  let r4 := r100 mod DI4Y in
  let n1 := r4 / 365 in
  let r1 := r4 mod 365 in
  let year := n400 * 400 + 1 + n100 * 100 + n4 * 4 + n1 in
  if (n1 =? 4) || (n100 =? 4) then (year - 1, 12, 31)
  else
    let '(m, d) := month_day r1 ((n1 =? 3) && (negb (n4 =? 24) || (n100 =? 3))) in
    (year, m, d).
Proof.
unfold ord2ymd, month_day. cbv zeta.
destruct (_ || _); [reflexivity|].
destruct (_ <? _); reflexivity.
Qed.

Lemma ord2ymd_spec n :
1 ≤ n →
let '(y, m, d) := ord2ymd n in
ymd2ord y m d = n ∧ 1 ≤ y ∧ 1 ≤ m ≤ 12 ∧ 1 ≤ d ≤ days_in_month y m.
Proof.
intros Hn. rewrite ord2ymd_eq. cbv zeta. unfold DI400Y, DI100Y, DI4Y.
set (n0 := n - 1).
set (n400 := n0 / 146097). set (r400 := n0 mod 146097).
set (n100 := r400 / 36524). set (r100 := r400 mod 36524).
set (n4 := r100 / 1461). set (r4 := r100 mod 1461).
set (n1 := r4 / 365). set (r1 := r4 mod 365).
assert (H400 : n0 = 146097 * n400 + r400 ∧ 0 ≤ r400 < 146097)
  by (subst n400 r400; split; [apply Z.div_mod; lia | apply Z.mod_pos_bound; lia]).
assert (H100 : r400 = 36524 * n100 + r100 ∧ 0 ≤ r100 < 36524)
  by (subst n100 r100; split; [apply Z.div_mod; lia | apply Z.mod_pos_bound; lia]).
assert (H4 : r100 = 1461 * n4 + r4 ∧ 0 ≤ r4 < 1461)
  by (subst n4 r4; split; [apply Z.div_mod; lia | apply Z.mod_pos_bound; lia]).
assert (H1 : r4 = 365 * n1 + r1 ∧ 0 ≤ r1 < 365)
  by (subst n1 r1; split; [apply Z.div_mod; lia | apply Z.mod_pos_bound; lia]).
assert (Hn0 : 0 ≤ n0) by (subst n0; lia).
assert (Hnn : n = n0 + 1) by (subst n0; lia).
clearbody n0 n400 r400 n100 r100 n4 r4 n1 r1.
assert (0 ≤ n400 ∧ 0 ≤ n100 ≤ 4 ∧ 0 ≤ n4 ≤ 24 ∧ 0 ≤ n1 ≤ 4) as Hb by lia.
destruct ((n1 =? 4) || (n100 =? 4)) eqn:Hlast.
- unfold ymd2ord, days_in_month, days_before_month, days_before_year. cbn [DAYS_BEFORE_MONTH DAYS_IN_MONTH].
  assert (Hleap : is_leap (n400 * 400 + 1 + n100 * 100 + n4 * 4 + n1 - 1) = true).
  { apply is_leap_true_iff. apply orb_true_iff in Hlast. rewrite !Z.eqb_eq in Hlast.
    Z.div_mod_to_equations; lia. }
  rewrite Hleap. cbn.
  apply orb_true_iff in Hlast. rewrite !Z.eqb_eq in Hlast.
  Z.div_mod_to_equations; lia.
- apply orb_false_iff in Hlast. rewrite !Z.eqb_neq in Hlast.
  set (leapyear := (n1 =? 3) && (negb (n4 =? 24) || (n100 =? 3))).
  set (year := n400 * 400 + 1 + n100 * 100 + n4 * 4 + n1).
  assert (Hleap : is_leap year = leapyear).
  { subst leapyear year. apply eq_true_iff_eq. rewrite is_leap_true_iff.
    rewrite andb_true_iff, orb_true_iff, negb_true_iff, !Z.eqb_eq, Z.eqb_neq.
    Z.div_mod_to_equations; lia. }
  pose proof (month_day_checked leapyear r1 (proj2 H1)) as Hmd.
  unfold month_day_check in Hmd. destruct (month_day r1 leapyear) as [m d].
  unfold between in Hmd. rewrite !andb_true_iff, !Z.leb_le, Z.eqb_eq in Hmd.
  unfold ymd2ord, days_in_month, days_before_month. rewrite Hleap.
  assert (Hdby : days_before_year year = n0 - r1).
  { unfold days_before_year. subst year. Z.div_mod_to_equations; lia. }
  rewrite Hdby.
  assert (Hdim : (if (m =? 2) && leapyear then 29 else DAYS_IN_MONTH m) =
                 DAYS_IN_MONTH m + (if (m =? 2) && leapyear then 1 else 0)).
  { destruct (m =? 2) eqn:Hm2; [apply Z.eqb_eq in Hm2; subst m|]; destruct leapyear; cbn; lia. }
  rewrite Hdim. subst year. lia.
Qed.


Lemma days_before_year_succ y :
days_before_year (y + 1) = days_before_year y + (if is_leap y then 366 else 365).
Proof.
unfold days_before_year.
replace (y + 1 - 1) with y by lia.
destruct (is_leap y) eqn:Hl.
- apply is_leap_true_iff in Hl. Z.div_mod_to_equations; lia.
- assert (Hn : ¬ (y mod 4 = 0 ∧ (y mod 100 ≠ 0 ∨ y mod 400 = 0))).
  { rewrite <- is_leap_true_iff, Hl. discriminate. }
  Z.div_mod_to_equations; lia.
Qed.

Lemma days_before_year_mono y1 y2 :
y1 ≤ y2 → days_before_year y1 ≤ days_before_year y2.
Proof.
intros H. unfold days_before_year. Z.div_mod_to_equations; lia.
Qed.

Lemma month_cases m : 1 ≤ m ≤ 12 →
m = 1 ∨ m = 2 ∨ m = 3 ∨ m = 4 ∨ m = 5 ∨ m = 6 ∨ m = 7 ∨ m = 8 ∨ m = 9 ∨ m = 10 ∨ m = 11 ∨ m = 12.
Proof. lia. Qed.

Lemma year_end y m d :
1 ≤ m ≤ 12 → 1 ≤ d ≤ days_in_month y m →
days_before_month y m + d ≤ (if is_leap y then 366 else 365).
Proof.
intros Hm Hd. unfold days_in_month, days_before_month in *.
destruct (is_leap y);
  destruct (month_cases m Hm) as [->|[->|[->|[->|[->|[->|[->|[->|[->|[->|[->| ->]]]]]]]]]]];
  cbn in *; lia.
Qed.

Lemma month_end y m1 m2 d :
1 ≤ m1 → m1 < m2 → m2 ≤ 12 → 1 ≤ d ≤ days_in_month y m1 →
days_before_month y m1 + d ≤ days_before_month y m2.
Proof.
intros H1 H12 H2 Hd. unfold days_in_month, days_before_month in *.
assert (Hm1 : 1 ≤ m1 ≤ 12) by lia. assert (Hm2 : 1 ≤ m2 ≤ 12) by lia.
destruct (is_leap y);
  destruct (month_cases m1 Hm1) as [->|[->|[->|[->|[->|[->|[->|[->|[->|[->|[->| ->]]]]]]]]]]];
  destruct (month_cases m2 Hm2) as [->|[->|[->|[->|[->|[->|[->|[->|[->|[->|[->| ->]]]]]]]]]]];
  cbn in *; lia.
Qed.

Lemma days_before_month_nonneg y m : 1 ≤ m ≤ 12 → 0 ≤ days_before_month y m.
Proof.
intros Hm. unfold days_before_month.
destruct (is_leap y);
  destruct (month_cases m Hm) as [->|[->|[->|[->|[->|[->|[->|[->|[->|[->|[->| ->]]]]]]]]]]];
  cbn; lia.
Qed.

(** A date that comes later in the order of the fields has a larger
  ordinal. *)
Lemma ymd2ord_lt y1 m1 d1 y2 m2 d2 :
1 ≤ m1 ≤ 12 → 1 ≤ d1 ≤ days_in_month y1 m1 →
1 ≤ m2 ≤ 12 → 1 ≤ d2 ≤ days_in_month y2 m2 →
cmp [y1; m1; d1] [y2; m2; d2] = Lt →
ymd2ord y1 m1 d1 < ymd2ord y2 m2 d2.
Proof.
intros Hm1 Hd1 Hm2 Hd2. cbn [cmp]. unfold ymd2ord.
destruct (Z.compare_spec y1 y2) as [->|Hy|Hy]; [|intros _|discriminate].
- destruct (Z.compare_spec m1 m2) as [->|Hm|Hm]; [|intros _|discriminate].
  + destruct (Z.compare_spec d1 d2); [discriminate|intros _; lia|discriminate].
  + pose proof (month_end y2 m1 m2 d1). lia.
- pose proof (days_before_year_mono (y1 + 1) y2).
  pose proof (days_before_year_succ y1).
  pose proof (year_end y1 m1 d1 Hm1 Hd1).
  pose proof (days_before_month_nonneg y2 m2 Hm2).
  destruct (is_leap y1); lia.
Qed.

Lemma cmp_antisym a b : cmp b a = CompOpp (cmp a b).
Proof.
revert b. induction a as [|x a IH]; intros [|y b]; cbn; try reflexivity.
rewrite (Z.compare_antisym x y). destruct (x ?= y); cbn; auto.
Qed.

Lemma cmp_eq3 y1 m1 d1 y2 m2 d2 :
cmp [y1; m1; d1] [y2; m2; d2] = Eq → y1 = y2 ∧ m1 = m2 ∧ d1 = d2.
Proof.
cbn. destruct (Z.compare_spec y1 y2); try discriminate.
destruct (Z.compare_spec m1 m2); try discriminate.
destruct (Z.compare_spec d1 d2); try discriminate. auto.
Qed.

(** [ord2ymd] is strictly increasing for the order of the fields. *)
Lemma ord2ymd_increasing n1 n2 :
1 ≤ n1 → n1 < n2 →
let '(y1, m1, d1) := ord2ymd n1 in
let '(y2, m2, d2) := ord2ymd n2 in
cmp [y1; m1; d1] [y2; m2; d2] = Lt.
Proof.
intros H1 H12.
pose proof (ord2ymd_spec n1 H1) as S1.
pose proof (ord2ymd_spec n2 ltac:(lia)) as S2.
destruct (ord2ymd n1) as [[y1 m1] d1], (ord2ymd n2) as [[y2 m2] d2].
destruct S1 as (E1 & _ & Hm1 & Hd1), S2 as (E2 & _ & Hm2 & Hd2).
destruct (cmp [y1; m1; d1] [y2; m2; d2]) eqn:Hc; [| reflexivity |].
- apply cmp_eq3 in Hc. destruct Hc as (-> & -> & ->). lia.
- assert (Hc' : cmp [y2; m2; d2] [y1; m1; d1] = Lt) by (rewrite cmp_antisym, Hc; reflexivity).
  pose proof (ymd2ord_lt _ _ _ _ _ _ Hm2 Hd2 Hm1 Hd1 Hc'). lia.
Qed.

End CalendarFacts.

(** ** Cleaning up old logs *)

Section CleanupFacts.

Implicit Types (w : World) (p q : Path.t) (files : list Path.t).

Lemma path_eqb_true p q : Fs.path_eqb p q = true ↔ p = q.
Proof. unfold Fs.path_eqb. apply bool_decide_eq_true. Qed.

Lemma path_eqb_false p q : Fs.path_eqb p q = false ↔ p ≠ q.
Proof. unfold Fs.path_eqb. apply bool_decide_eq_false. Qed.

Lemma lookup_filter (f : Path.t → bool) (fs : Fs.t) q :
  f q = true → Fs.lookup (List.filter (fun e => f (fst e)) fs) q = Fs.lookup fs q.
Proof.
  intros Hq. induction fs as [|[p k] fs IH]; [reflexivity|]. cbn.
  destruct (f p) eqn:Hp; cbn.
  - rewrite IH. reflexivity.
  - rewrite IH. destruct (Fs.path_eqb p q) eqn:E; [|reflexivity].
    apply path_eqb_true in E. congruence.
Qed.

Lemma swept_nil thr fs : swept thr [] fs = fs.
Proof.
  unfold swept. induction fs as [|e fs IH]; [reflexivity|]. cbn.
  rewrite bool_decide_eq_false_2 by apply not_elem_of_nil. cbn. now f_equal.
Qed.

Lemma filter_filter {A} (f g : A → bool) (l : list A) :
  List.filter f (List.filter g l) = List.filter (fun x => g x && f x) l.
Proof.
  induction l as [|a l IH]; [reflexivity|]. cbn.
  destruct (g a); cbn; [destruct (f a)|]; now rewrite IH.
Qed.

Lemma cleanup_loop_step thr p files w d :
  stamp (Path.name p) = Return d →
  cleanup_loop thr (p :: files) w =
    if Datetime.lt d thr
    then match Fs.remove (fs w) p with
         | (Return _, fs') => cleanup_loop thr files (set_fs w fs')
         | (Raise e, fs') => (Raise e, set_fs w fs')
         end
    else cleanup_loop thr files w.
Proof.
  intros Hd. unfold stamp in Hd. cbn [cleanup_loop].
  unfold mbind at 1, Prog_bind at 1, lift. rewrite Hd.
  destruct (Datetime.lt d thr).
  - unfold mbind, Prog_bind, with_fs. destruct (Fs.remove (fs w) p) as [[[]|e] fs']; reflexivity.
  - reflexivity.
Qed.

Lemma cleanup_loop_raise thr p files w e :
  stamp (Path.name p) = Raise e →
  cleanup_loop thr (p :: files) w = (Raise e, w).
Proof.
  intros Hd. unfold stamp in Hd. cbn [cleanup_loop].
  unfold mbind at 1, Prog_bind at 1, lift. rewrite Hd. reflexivity.
Qed.

Lemma cleanup_loop_conforming thr pre rest w :
  NoDup pre →
  Forall (fun p => ∃ d, stamp (Path.name p) = Return d) pre →
  Forall (fun p => expired thr (Path.name p) = true →
                   Fs.lookup (fs w) p = Some Fs.RegularFile) pre →
  cleanup_loop thr (pre ++ rest) w =
    cleanup_loop thr rest (set_fs w (swept thr pre (fs w))).
Proof.
  revert w. induction pre as [|p pre IH]; intros w Hnd Hst Hreg.
  - cbn. rewrite swept_nil. destruct w; reflexivity.
  - apply NoDup_cons in Hnd as [Hp Hnd].
    apply Forall_cons in Hst as [[d Hd] Hst].
    apply Forall_cons in Hreg as [Hregp Hreg].
    cbn [app]. rewrite (cleanup_loop_step _ _ _ _ _ Hd).
    assert (Hexp : expired thr (Path.name p) = Datetime.lt d thr)
      by (unfold expired; now rewrite Hd).
    destruct (Datetime.lt d thr) eqn:Hlt.
    + unfold Fs.remove. rewrite (Hregp Hexp).
      rewrite IH; [| assumption | assumption |].
      * f_equal. cbn. f_equal. unfold swept. rewrite filter_filter.
        apply List.filter_ext. intros [q k]. cbn.
        destruct (Fs.path_eqb q p) eqn:E.
        -- apply path_eqb_true in E. subst q.
           rewrite (bool_decide_eq_true_2 (p ∈ p :: pre)) by left.
           rewrite Hexp. reflexivity.
        -- apply path_eqb_false in E. cbn. f_equal. f_equal.
           apply bool_decide_ext. rewrite elem_of_cons. tauto.
      * cbn. eapply Forall_impl; [apply Forall_and; split; [apply Hreg|]|].
        { apply Forall_forall. intros q Hq. exact Hq. }
        cbn. intros q [Hq Hin] Hexpq.
        rewrite (lookup_filter (fun x => negb (Fs.path_eqb x p))); [auto|].
        apply negb_true_iff, path_eqb_false. intros ->. contradiction.
    + rewrite IH; [| assumption | assumption | assumption].
      f_equal. f_equal. unfold swept. apply List.filter_ext. intros [q k]. cbn.
      destruct (decide (q = p)) as [->|Hne].
      * rewrite Hexp, !andb_false_r. reflexivity.
      * f_equal. f_equal. apply bool_decide_ext. rewrite elem_of_cons. tauto.
Qed.


Lemma strptime_raises s e : Datetime.strptime s = Raise e → Exn.cls e = Exn.ValueError.
Proof.
  unfold Datetime.strptime, Datetime.new.
  destruct (Datetime.parse_fields s) as [[[[[[y mo] dd] h] mi] ss]|].
  - destruct (Datetime.valid _); [discriminate|]. now intros [= <-].
  - now intros [= <-].
Qed.

Lemma child_name_Some d p name :
  Fs.child_name d p = Some name ↔ p = d ++ [name] ∧ p ≠ ["/"].
Proof.
  unfold Fs.child_name. split.
  - destruct p as [|a p']; [discriminate|].
    destruct (Fs.path_eqb (a :: p') ["/"]) eqn:E1; [discriminate|].
    destruct (Fs.path_eqb (removelast (a :: p')) d) eqn:E2; [|discriminate].
    intros [= <-]. apply path_eqb_true in E2. apply path_eqb_false in E1.
    split; [|assumption]. rewrite <- E2.
    exact (app_removelast_last (l := a :: p') "" ltac:(discriminate)).
  - intros [-> Hne]. destruct (d ++ [name]) eqn:E; [destruct d; discriminate|].
    rewrite <- E in Hne |- *. rewrite (proj2 (path_eqb_false _ _) Hne).
    rewrite removelast_last, List.last_last.
    now rewrite (proj2 (path_eqb_true d d) eq_refl).
Qed.

Lemma name_of_child d p name : Fs.child_name d p = Some name → Path.name p = name.
Proof.
  intros H. apply child_name_Some in H as [-> Hne]. unfold Path.name.
  destruct d as [|a [|b d]]; cbn in *.
  - destruct (String.eqb_spec name "/"); [congruence|reflexivity].
  - reflexivity.
  - change (b :: d ++ [name]) with ((b :: d) ++ [name]).
    change (List.last ((a :: b :: d) ++ [name]) "" = name).
    apply List.last_last.
Qed.

Lemma parent_of_child d p name : Fs.child_name d p = Some name → Path.parent p = d.
Proof.
  intros H. apply child_name_Some in H as [-> Hne]. unfold Path.parent.
  destruct d as [|a d]; cbn in *.
  - destruct (String.eqb_spec name "/"); [congruence|reflexivity].
  - destruct (d ++ [name]) eqn:E; [destruct d; discriminate|]. rewrite <- E.
    f_equal. apply removelast_last.
Qed.

Lemma log_name_not_root name : Text.endswith name ".log" = true → name ≠ "/".
Proof. intros H ->. discriminate. Qed.

Lemma child_name_log d name :
  Text.endswith name ".log" = true → Fs.child_name d (d ++ [name]) = Some name.
Proof.
  intros H. apply child_name_Some. split; [reflexivity|].
  destruct d as [|a [|b d]]; cbn; [|discriminate..].
  intros [= ->]. discriminate.
Qed.

Lemma glob_log_filter (fs : Fs.t) d :
  Fs.is_dir fs d = true →
  Fs.glob_log fs d = List.filter (is_log_of d) (fst <$> fs).
Proof.
  intros Hd. unfold Fs.glob_log. rewrite Hd. unfold Fs.scandir. clear Hd.
  induction fs as [|[p k] fs IH]; [reflexivity|]. cbn. unfold is_log_of at 1.
  destruct (Fs.child_name d p) as [name|] eqn:Hc; cbn.
  - destruct (Text.endswith name ".log"); cbn; rewrite IH; [|reflexivity].
    f_equal. symmetry. now apply child_name_Some in Hc as [-> _].
  - apply IH.
Qed.


Lemma lookup_elem_of (fs : Fs.t) p k :
  NoDup (fst <$> fs) → (p, k) ∈ fs → Fs.lookup fs p = Some k.
Proof.
  induction fs as [|[q k'] fs IH]; intros Hnd Hin; [inversion Hin|].
  cbn in *. apply NoDup_cons in Hnd as [Hq Hnd].
  apply elem_of_cons in Hin as [[= <- <-]|Hin].
  - now rewrite (proj2 (path_eqb_true p p) eq_refl).
  - destruct (Fs.path_eqb q p) eqn:E; [|now apply IH].
    apply path_eqb_true in E. subst q. exfalso. apply Hq.
    apply list_elem_of_fmap. now exists (p, k).
Qed.

Lemma lookup_Some (fs : Fs.t) p k : Fs.lookup fs p = Some k → (p, k) ∈ fs.
Proof.
  induction fs as [|[q k'] fs IH]; [discriminate|]. cbn.
  destruct (Fs.path_eqb q p) eqn:E.
  - apply path_eqb_true in E. intros [= ->]. subst. left.
  - intros H. right. auto.
Qed.

Lemma lookup_None (fs : Fs.t) p : Fs.lookup fs p = None ↔ p ∉ fst <$> fs.
Proof.
  induction fs as [|[q k'] fs IH]; cbn.
  - split; [intros _; apply not_elem_of_nil|reflexivity].
  - rewrite not_elem_of_cons. destruct (Fs.path_eqb q p) eqn:E.
    + apply path_eqb_true in E. split; [discriminate|]. intros [? _]. congruence.
    + apply path_eqb_false in E. rewrite IH. split; [intros; split; congruence|tauto].
Qed.

Lemma cleanup_old_logs_eq days self w :
  cleanup_old_logs days self w =
    match Datetime.sub_days (clock w (reads w)) days with
    | Return thr =>
        let '(r, w') :=
          cleanup_loop thr (Fs.glob_log (fs w) (logfolder self)) (tick w) in
        (r, self, w')
    | Raise e => (Raise e, self, tick w)
    end.
Proof.
  unfold cleanup_old_logs, mbind, Meth_bind, get_self, in_world, Prog_bind, utcnow, lift, tick.
  cbn. destruct (Datetime.sub_days _ _); reflexivity.
Qed.

Lemma doomed_is_log thr d p :
  doomed thr d p = is_log_of d p && expired thr (Path.name p).
Proof.
  unfold doomed, is_log_of. destruct (Fs.child_name d p) as [name|] eqn:E; [|reflexivity].
  now rewrite (name_of_child _ _ _ E).
Qed.

Lemma swept_glob thr (fs0 : Fs.t) d :
  Fs.wf fs0 → swept thr (Fs.glob_log fs0 d) fs0 = without_expired thr d fs0.
Proof.
  intros [Hnd Hpar]. unfold swept, without_expired.
  apply List.filter_ext_in. intros [p k] Hin. apply list_elem_of_In in Hin. cbn.
  rewrite doomed_is_log. f_equal. f_equal.
  destruct (Fs.is_dir fs0 d) eqn:Hd.
  - rewrite (glob_log_filter _ _ Hd). apply eq_true_iff_eq.
    rewrite bool_decide_eq_true, list_elem_of_In, filter_In, <- list_elem_of_In.
    split; [tauto|]. intros H. split; [|assumption].
    apply list_elem_of_fmap. now exists (p, k).
  - unfold Fs.glob_log. rewrite Hd.
    rewrite bool_decide_eq_false_2 by apply not_elem_of_nil.
    symmetry. unfold is_log_of.
    destruct (Fs.child_name d p) as [name|] eqn:E; [|reflexivity].
    rewrite <- (parent_of_child _ _ _ E), (Hpar p k Hin) in Hd. discriminate.
Qed.

Lemma sublist_List_filter {A} (f : A → bool) (l : list A) : sublist (List.filter f l) l.
Proof.
  induction l as [|a l IH]; cbn; [constructor|].
  destruct (f a); now constructor.
Qed.

Lemma cleanup_loop_keeps thr files w :
  let w' := snd (cleanup_loop thr files w) in
  sublist (fs w') (fs w) ∧
  (∀ e, e ∈ fs w →
        e ∈ fs w' ∨ (fst e ∈ files ∧ expired thr (Path.name (fst e)) = true)) ∧
  clock w' = clock w ∧ reads w' = reads w ∧ loggers w' = loggers w
  ∧ emitted w' = emitted w.
Proof.
  revert w. induction files as [|p files IH]; intros w; cbn zeta.
  - cbn. repeat split; auto.
  - destruct (stamp (Path.name p)) as [d|e] eqn:Hd.
    2:{ rewrite (cleanup_loop_raise _ _ _ _ _ Hd). cbn. repeat split; auto. }
    rewrite (cleanup_loop_step _ _ _ _ _ Hd).
    assert (Hexp : expired thr (Path.name p) = Datetime.lt d thr)
      by (unfold expired; now rewrite Hd).
    destruct (Datetime.lt d thr) eqn:Hlt.
    + unfold Fs.remove. destruct (Fs.lookup (fs w) p) as [[]|] eqn:Hl.
      * specialize (IH (set_fs w (List.filter (fun e => negb (Fs.path_eqb (fst e) p)) (fs w)))).
        cbn zeta in IH. destruct IH as (Hsub & Hkeep & Hrest). cbn [fs set_fs] in Hsub, Hkeep.
        split; [|split; [|exact Hrest]].
        -- etransitivity; [exact Hsub|]. apply sublist_List_filter.
        -- intros [q k] Hin. destruct (decide (q = p)) as [->|Hne].
           ++ right. cbn. split; [left|assumption].
           ++ destruct (Hkeep (q, k)) as [?|(? & ?)].
              ** apply list_elem_of_In, filter_In. split; [now apply list_elem_of_In|].
                 cbn. now apply negb_true_iff, path_eqb_false.
              ** now left.
              ** right. split; [now right|]. auto.
      * cbn. repeat split; auto.
      * cbn. repeat split; auto.
    + destruct (IH w) as (Hsub & Hkeep & Hrest). split; [exact Hsub|]. split; [|exact Hrest].
      intros e Hin. destruct (Hkeep e Hin) as [?|(? & ?)]; [now left|].
      right. split; [now right|]. auto.
Qed.

Lemma cmp_date_prefix y1 m1 d1 y2 m2 d2 r1 r2 c :
  Datetime.cmp [y1; m1; d1] [y2; m2; d2] = c → c ≠ Eq →
  Datetime.cmp (y1 :: m1 :: d1 :: r1) (y2 :: m2 :: d2 :: r2) = c.
Proof.
  cbn. destruct (y1 ?= y2); [|auto..].
  destruct (m1 ?= m2); [|auto..].
  destruct (d1 ?= d2); [|auto..]. congruence.
Qed.

(** Dates obtained from one instant by going back different numbers of
    days compare as the numbers of days do, whatever the time of day. *)
Lemma sub_days_order now k1 k2 a b :
  Datetime.sub_days now k1 = Return a →
  Datetime.sub_days now k2 = Return b →
  k2 < k1 →
  Datetime.lt (Calendar.to_second a) b = true ∧
  Datetime.lt (Calendar.to_second b) a = false.
Proof.
  unfold Datetime.sub_days. intros Ha Hb Hk.
  destruct (999999999 <? Z.abs k1); [discriminate|].
  destruct (999999999 <? Z.abs k2); [discriminate|].
  destruct ((0 <? _) && _) eqn:H1 in Ha; [|discriminate].
  destruct ((0 <? _) && _) eqn:H2 in Hb; [|discriminate].
  apply andb_true_iff in H1 as [H1 _]. apply Z.ltb_lt in H1.
  pose proof (ord2ymd_increasing (Datetime.toordinal now - k1)
                (Datetime.toordinal now - k2) ltac:(lia) ltac:(lia)) as Hinc.
  destruct (Datetime.ord2ymd (Datetime.toordinal now - k1)) as [[y1 m1] d1].
  destruct (Datetime.ord2ymd (Datetime.toordinal now - k2)) as [[y2 m2] d2].
  injection Ha as <-. injection Hb as <-.
  unfold Datetime.lt, Calendar.to_second, Datetime.fields. cbn [Datetime.year Datetime.month Datetime.day Datetime.hour Datetime.minute Datetime.second Datetime.microsecond].
  split.
  - rewrite (cmp_date_prefix _ _ _ _ _ _ _ _ Lt Hinc); [reflexivity|discriminate].
  - assert (Hgt : Datetime.cmp [y2; m2; d2] [y1; m1; d1] = Gt)
      by (rewrite cmp_antisym, Hinc; reflexivity).
    rewrite (cmp_date_prefix _ _ _ _ _ _ _ _ Gt Hgt); [reflexivity|discriminate].
Qed.

Lemma wf_check_sound (fs0 : Fs.t) : wf_check fs0 = true → Fs.wf fs0.
Proof.
  unfold wf_check. rewrite andb_true_iff, bool_decide_eq_true, forallb_forall.
  intros [Hnd Hall]. split; [assumption|].
  intros p k Hin. apply (Hall (p, k)). now apply list_elem_of_In.
Qed.

Lemma stamped_check_sound thr folder (fs0 : Fs.t) :
  stamped_check thr folder fs0 = true →
  ∀ p k name,
    (p, k) ∈ fs0 → Fs.child_name folder p = Some name →
    Text.endswith name ".log" = true →
    (∃ d, stamp name = Return d) ∧ (expired thr name = true → k = Fs.RegularFile).
Proof.
  unfold stamped_check. rewrite forallb_forall. intros Hall p k name Hin Hc Hlog.
  specialize (Hall (p, k) (proj1 (list_elem_of_In _ _) Hin)). cbn in Hall.
  rewrite Hc, Hlog in Hall. destruct (stamp name) as [d|]; [|discriminate].
  split; [eauto|]. intros Hexp. rewrite Hexp in Hall. now destruct k.
Qed.

Lemma glob_log_NoDup (fs0 : Fs.t) d : NoDup (fst <$> fs0) → NoDup (Fs.glob_log fs0 d).
Proof.
  intros Hnd. destruct (Fs.is_dir fs0 d) eqn:Hd.
  - rewrite (glob_log_filter _ _ Hd).
    apply NoDup_ListNoDup, List.NoDup_filter, NoDup_ListNoDup, Hnd.
  - unfold Fs.glob_log. rewrite Hd. constructor.
Qed.

Lemma glob_log_elem (fs0 : Fs.t) d p :
  p ∈ Fs.glob_log fs0 d →
  ∃ k name, (p, k) ∈ fs0 ∧ Fs.child_name d p = Some name
            ∧ Text.endswith name ".log" = true.
Proof.
  destruct (Fs.is_dir fs0 d) eqn:Hd.
  - rewrite (glob_log_filter _ _ Hd), list_elem_of_In, filter_In, <- list_elem_of_In.
    intros [Hin Hlog]. apply list_elem_of_fmap in Hin as [[q k] [-> Hin]].
    unfold is_log_of in Hlog. cbn in *.
    destruct (Fs.child_name d q) as [name|] eqn:E; [|discriminate]. eauto.
  - unfold Fs.glob_log. rewrite Hd. intros H. inversion H.
Qed.

Lemma lookup_without (f : Path.t → bool) (fs0 : Fs.t) p :
  f p = true → Fs.lookup (List.filter (fun e => negb (f (fst e))) fs0) p = None.
Proof.
  intros Hp. apply lookup_None. rewrite list_elem_of_fmap.
  intros [[q k] [-> Hin]]. apply list_elem_of_In, filter_In in Hin as [_ Hq].
  cbn in *. rewrite Hp in Hq. discriminate.
Qed.

(** C5, as amended: when the threshold exists and every [*.log] entry of
    the log folder carries a readable time stamp (the expired ones being
    regular files), the call returns and removes exactly the [*.log] files
    of the log folder whose stamp is strictly older than now minus
    [days_to_keep] days.  A log stamped more days ago than the retention is
    removed, one stamped fewer days ago is kept: with the default of 3 days,
    4 days ago is removed and 2 days ago is kept. *)
Theorem cleanup_old_logs_removes_expired
    (days_to_keep : Z) (self : LoggerManager) (w : World)
    (threshold_date : Datetime.t) :
  Fs.wf (fs w) →
  Datetime.sub_days (clock w (reads w)) days_to_keep = Return threshold_date →
  (∀ p k name,
     (p, k) ∈ fs w → Fs.child_name (logfolder self) p = Some name →
     Text.endswith name ".log" = true →
     (∃ d, stamp name = Return d) ∧
     (expired threshold_date name = true → k = Fs.RegularFile)) →
  let x := cleanup_old_logs days_to_keep self w in
  outcome x = Return tt ∧
  removes_exactly_expired days_to_keep self w ∧
  ∀ name k ago t,
    (logfolder self ++ [name], k) ∈ fs w →
    Text.endswith name ".log" = true →
    Datetime.sub_days (clock w (reads w)) ago = Return t →
    stamp name = Return (Calendar.to_second t) →
    (days_to_keep < ago →
     Fs.lookup (fs (world_after x)) (logfolder self ++ [name]) = None) ∧
    (ago < days_to_keep →
     Fs.lookup (fs (world_after x)) (logfolder self ++ [name]) = Some k).
Proof.
  intros Hwf Hthr Hconf x.
  assert (Hx : x = (Return tt, self,
                    set_fs (tick w) (without_expired threshold_date (logfolder self) (fs w)))).
  { subst x. rewrite cleanup_old_logs_eq, Hthr.
    rewrite <- (app_nil_r (Fs.glob_log (fs w) (logfolder self))).
    rewrite cleanup_loop_conforming.
    - change (fs (tick w)) with (fs w). rewrite (swept_glob _ _ _ Hwf). reflexivity.
    - apply glob_log_NoDup, Hwf.
    - apply Forall_forall. intros p Hp.
      apply glob_log_elem in Hp as (k & name & Hin & Hc & Hlog).
      rewrite (name_of_child _ _ _ Hc). exact (proj1 (Hconf p k name Hin Hc Hlog)).
    - apply Forall_forall. intros p Hp.
      apply glob_log_elem in Hp as (k & name & Hin & Hc & Hlog).
      rewrite (name_of_child _ _ _ Hc). intros Hexp. cbn.
      rewrite (proj2 (Hconf p k name Hin Hc Hlog) Hexp) in Hin.
      apply lookup_elem_of; [apply Hwf | assumption]. }
  rewrite Hx. split; [reflexivity|]. split.
  - unfold removes_exactly_expired. intros thr' Hthr'. fold x. rewrite Hx. cbn. congruence.
  - intros name k ago t Hin Hlog Hago Hstamp. cbn [world_after snd fs set_fs].
    unfold without_expired.
    assert (Hd : doomed threshold_date (logfolder self) (logfolder self ++ [name]) =
                 Datetime.lt (Calendar.to_second t) threshold_date).
    { unfold doomed. rewrite (child_name_log _ _ Hlog), Hlog. unfold expired.
      now rewrite Hstamp. }
    split; intros Hlt.
    + apply (lookup_without (doomed threshold_date (logfolder self))).
      rewrite Hd. exact (proj1 (sub_days_order _ _ _ _ _ Hago Hthr Hlt)).
    + rewrite (lookup_filter (fun p => negb (doomed threshold_date (logfolder self) p))).
      * apply lookup_elem_of; [apply Hwf | assumption].
      * rewrite Hd. apply negb_true_iff.
        exact (proj2 (sub_days_order _ _ _ _ _ Hthr Hago Hlt)).
Qed.

(** C8, as amended: when the loop reaches a [*.log] entry whose name
    carries no readable time stamp, [strptime] raises [ValueError] and the
    call ends with it.  The entries enumerated before have been handled;
    that entry and all the entries enumerated after it are left as they
    were. *)
Theorem cleanup_old_logs_stops_at_unstamped
    (days_to_keep : Z) (self : LoggerManager) (w : World)
    (threshold_date : Datetime.t) (pre post : list Path.t) (bad : Path.t) (e : exn) :
  Fs.wf (fs w) →
  Datetime.sub_days (clock w (reads w)) days_to_keep = Return threshold_date →
  Fs.glob_log (fs w) (logfolder self) = pre ++ bad :: post →
  (∀ p, p ∈ pre →
        (∃ d, stamp (Path.name p) = Return d) ∧
        (expired threshold_date (Path.name p) = true →
         Fs.lookup (fs w) p = Some Fs.RegularFile)) →
  stamp (Path.name bad) = Raise e →
  let x := cleanup_old_logs days_to_keep self w in
  outcome x = Raise e ∧
  Exn.cls e = Exn.ValueError ∧
  fs (world_after x) = swept threshold_date pre (fs w) ∧
  ∀ q, q ∈ bad :: post → Fs.lookup (fs (world_after x)) q = Fs.lookup (fs w) q.
Proof.
  intros Hwf Hthr Hglob Hpre Hbad x.
  pose proof (glob_log_NoDup _ (logfolder self) (proj1 Hwf)) as Hnd.
  rewrite Hglob in Hnd. apply NoDup_app in Hnd as (Hndpre & Hdisj & _).
  assert (Hx : x = (Raise e, self, set_fs (tick w) (swept threshold_date pre (fs w)))).
  { subst x. rewrite cleanup_old_logs_eq, Hthr, Hglob.
    rewrite cleanup_loop_conforming.
    - now rewrite (cleanup_loop_raise _ _ _ _ _ Hbad).
    - assumption.
    - apply Forall_forall. intros p Hp. exact (proj1 (Hpre p Hp)).
    - apply Forall_forall. intros p Hp. exact (proj2 (Hpre p Hp)). }
  rewrite Hx. split; [reflexivity|]. split; [exact (strptime_raises _ _ Hbad)|].
  split; [reflexivity|].
  intros q Hq. cbn [world_after snd fs set_fs]. unfold swept.
  pose (f := fun p : Path.t =>
               negb (bool_decide (p ∈ pre) && expired threshold_date (Path.name p))).
  change (Fs.lookup (List.filter (fun e => f (fst e)) (fs w)) q = Fs.lookup (fs w) q).
  apply lookup_filter. unfold f.
  rewrite bool_decide_eq_false_2; [reflexivity|].
  intros Hin. exact (Hdisj q Hin Hq).
Qed.

(** C10: whatever the outcome of the call, the manager is unchanged, the
    file system afterwards is the earlier one with some entries taken out,
    and an entry taken out is a [*.log] entry of the log folder whose name
    records a date strictly before the threshold.  So an entry whose name
    does not end in [.log], and one whose stamp is at or after the
    threshold, are still there. *)
Theorem cleanup_old_logs_frame (days_to_keep : Z) (self : LoggerManager) (w : World) :
  let x := cleanup_old_logs days_to_keep self w in
  object_after x = self ∧
  sublist (fs (world_after x)) (fs w) ∧
  (∀ p k, (p, k) ∈ fs w → (p, k) ∉ fs (world_after x) →
     ∃ threshold_date name d,
       Datetime.sub_days (clock w (reads w)) days_to_keep = Return threshold_date ∧
       p = logfolder self ++ [name] ∧
       Text.endswith name ".log" = true ∧
       stamp name = Return d ∧
       Datetime.lt d threshold_date = true) ∧
  (∀ p k, (p, k) ∈ fs w → Text.endswith (Path.name p) ".log" = false →
          (p, k) ∈ fs (world_after x)) ∧
  (∀ p k threshold_date d,
     (p, k) ∈ fs w →
     Datetime.sub_days (clock w (reads w)) days_to_keep = Return threshold_date →
     stamp (Path.name p) = Return d →
     Datetime.lt d threshold_date = false →
     (p, k) ∈ fs (world_after x)).
Proof.
  intros x.
  assert (Hmain :
    object_after x = self ∧ sublist (fs (world_after x)) (fs w) ∧
    ∀ p k, (p, k) ∈ fs w → (p, k) ∉ fs (world_after x) →
      ∃ threshold_date name d,
        Datetime.sub_days (clock w (reads w)) days_to_keep = Return threshold_date ∧
        p = logfolder self ++ [name] ∧ Text.endswith name ".log" = true ∧
        stamp name = Return d ∧ Datetime.lt d threshold_date = true).
  { subst x. rewrite cleanup_old_logs_eq.
    destruct (Datetime.sub_days (clock w (reads w)) days_to_keep) as [thr|e] eqn:Hthr.
    2:{ cbn. repeat split; [reflexivity|]. intros p k Hin Hout. contradiction. }
    pose proof (cleanup_loop_keeps thr (Fs.glob_log (fs w) (logfolder self)) (tick w))
      as (Hsub & Hkeep & _).
    destruct (cleanup_loop thr _ (tick w)) as [r w'] eqn:Hloop. cbn in *.
    repeat split; [assumption|].
    intros p k Hin Hout. destruct (Hkeep (p, k) Hin) as [?|[Hglob Hexp]]; [contradiction|].
    cbn in Hglob, Hexp.
    apply glob_log_elem in Hglob as (k' & name & _ & Hc & Hlog).
    rewrite (name_of_child _ _ _ Hc) in Hexp. unfold expired in Hexp.
    destruct (stamp name) as [d|] eqn:Hd; [|discriminate].
    exists thr, name, d. apply child_name_Some in Hc as [-> _]. auto. }
  destruct Hmain as (Hself & Hsub & Hout). repeat split; [assumption..| |].
  - intros p k Hin Hlog.
    destruct (decide ((p, k) ∈ fs (world_after x))) as [|Hno]; [assumption|].
    destruct (Hout p k Hin Hno) as (thr & name & d & _ & -> & Hlog' & _).
    rewrite (name_of_child _ _ _ (child_name_log _ _ Hlog')) in Hlog. congruence.
  - intros p k thr d Hin Hthr Hd Hlt.
    destruct (decide ((p, k) ∈ fs (world_after x))) as [|Hno]; [assumption|].
    destruct (Hout p k Hin Hno) as (thr' & name & d' & Hthr' & -> & Hlog' & Hd' & Hlt').
    rewrite (name_of_child _ _ _ (child_name_log _ _ Hlog')) in Hd. congruence.
Qed.

End CleanupFacts.

(** The default cleanup at noon of 10 March 2024 on the tidy folder: the log
    stamped four days earlier goes, the one stamped two days earlier stays. *)
Lemma cleanup_old_logs_removes_expired_witness :
  let x := cleanup_old_logs default_days_to_keep (LogSamples.manager true)
             (LogSamples.world_at LogSamples.noon LogSamples.tidy) in
  outcome x = Return tt ∧
  Fs.lookup (fs (world_after x))
    (LogSamples.folder ++ ["info_log2024_03_06_12_00_00.log"]) = None ∧
  Fs.lookup (fs (world_after x))
    (LogSamples.folder ++ ["debug_log2024_03_08_12_00_00.log"]) = Some Fs.RegularFile.
Proof.
  pose proof (cleanup_old_logs_removes_expired default_days_to_keep
                (LogSamples.manager true)
                (LogSamples.world_at LogSamples.noon LogSamples.tidy)
                (Datetime.Build 2024 3 7 12 0 0 250000)
                (wf_check_sound LogSamples.tidy eq_refl) eq_refl
                (stamped_check_sound (Datetime.Build 2024 3 7 12 0 0 250000)
                   LogSamples.folder LogSamples.tidy eq_refl))
    as (Hret & _ & Hdays).
  split; [exact Hret|]. split.
  - refine (proj1 (Hdays "info_log2024_03_06_12_00_00.log" Fs.RegularFile 4
                     (Datetime.Build 2024 3 6 12 0 0 250000) _ eq_refl eq_refl eq_refl) _).
    + apply (bool_decide_unpack _). vm_compute. exact I.
    + reflexivity.
  - refine (proj2 (Hdays "debug_log2024_03_08_12_00_00.log" Fs.RegularFile 2
                     (Datetime.Build 2024 3 8 12 0 0 250000) _ eq_refl eq_refl eq_refl) _).
    + apply (bool_decide_unpack _). vm_compute. exact I.
    + reflexivity.
Defined.

(** On the untidy folder the unstamped [notes.log] is enumerated first:
    the call raises, and the log stamped four days earlier, though older
    than the threshold, is still there. *)
Lemma cleanup_old_logs_removes_expired_counterexample :
  ¬ removes_exactly_expired default_days_to_keep (LogSamples.manager true)
      (LogSamples.world_at LogSamples.noon LogSamples.untidy).
Proof.
  intros H. specialize (H (Datetime.Build 2024 3 7 12 0 0 250000) eq_refl).
  vm_compute in H. discriminate H.
Qed.

Lemma cleanup_old_logs_stops_at_unstamped_witness :
  let x := cleanup_old_logs default_days_to_keep (LogSamples.manager true)
             (LogSamples.world_at LogSamples.noon LogSamples.untidy) in
  Exn.cls <$> (match outcome x with Raise e => Some e | Return _ => None end)
    = Some Exn.ValueError ∧
  fs (world_after x) = LogSamples.untidy.
Proof.
  pose proof (cleanup_old_logs_stops_at_unstamped default_days_to_keep
                (LogSamples.manager true)
                (LogSamples.world_at LogSamples.noon LogSamples.untidy)
                (Datetime.Build 2024 3 7 12 0 0 250000)
                []
                [LogSamples.folder ++ ["info_log2024_03_06_12_00_00.log"];
                 LogSamples.folder ++ ["debug_log2024_03_08_12_00_00.log"]]
                (LogSamples.folder ++ ["notes.log"])
                (Exn.Build Exn.ValueError
                   "time data 'notes' does not match format '%Y_%m_%d_%H_%M_%S'")
                (wf_check_sound LogSamples.untidy eq_refl) eq_refl eq_refl) as H.
  cbn zeta in H. destruct H as (Hout & _ & Hfs & _).
  - intros p Hp. inversion Hp.
  - reflexivity.
  - cbv zeta. rewrite Hout, Hfs. split; reflexivity.
Defined.

(** The unstamped [notes.log] is not skipped: the call raises. *)
Lemma cleanup_old_logs_skips_unstamped_counterexample :
  ¬ skips_unstamped default_days_to_keep (LogSamples.manager true)
      (LogSamples.world_at LogSamples.noon LogSamples.untidy).
Proof.
  intros H. destruct (H (Datetime.Build 2024 3 7 12 0 0 250000) eq_refl) as [Hout _].
  vm_compute in Hout. discriminate Hout.
Qed.

(** ** The life cycle of the manager *)

Section LifeCycle.

Implicit Types (self : LoggerManager) (w : World) (lg : string).

Lemma keeps_bind {A B} P (m : Meth A) (k : A → Meth B) :
  keeps P m → (∀ a, keeps P (k a)) → keeps P (m ≫= k).
Proof.
  intros Hm Hk self w HP. specialize (Hm self w HP).
  unfold mbind, Meth_bind, object_after, world_after in *.
  destruct (m self w) as [[[a|e] self'] w']; cbn in *.
  - apply (Hk a self' w' Hm).
  - exact Hm.
Qed.

Lemma keeps_ret {A} P (a : A) : keeps P (mret a).
Proof. intros self w HP. exact HP. Qed.

Lemma keeps_get_self P : keeps P get_self.
Proof. intros self w HP. exact HP. Qed.

Lemma keeps_in_world {A} lg (p : Prog A) :
  keeps_loggers p → keeps (ready lg) (in_world p).
Proof.
  intros Hp self w [Hl Hs]. specialize (Hp w lg Hs).
  unfold in_world, object_after, world_after. destruct (p w) as [r w']. cbn in *.
  split; assumption.
Qed.

Lemma keeps_loggers_bind {A B} (p : Prog A) (k : A → Prog B) :
  keeps_loggers p → (∀ a, keeps_loggers (k a)) → keeps_loggers (p ≫= k).
Proof.
  intros Hp Hk w lg Hs. specialize (Hp w lg Hs).
  unfold mbind, Prog_bind. destruct (p w) as [[a|e] w']; cbn in *.
  - apply (Hk a w' lg Hp).
  - exact Hp.
Qed.

Lemma keeps_loggers_ret {A} (a : A) : keeps_loggers (mret a).
Proof. intros w lg Hs. exact Hs. Qed.

Lemma keeps_loggers_lift {A} (r : result A) : keeps_loggers (lift r).
Proof. intros w lg Hs. exact Hs. Qed.

Lemma keeps_loggers_with_fs op : keeps_loggers (with_fs op).
Proof. intros w lg Hs. unfold with_fs. destruct (op (fs w)). exact Hs. Qed.

Lemma keeps_loggers_utcnow : keeps_loggers utcnow.
Proof. intros w lg Hs. exact Hs. Qed.

Lemma keeps_loggers_setLevel name lvl : keeps_loggers (logger_setLevel name lvl).
Proof.
  intros w lg Hs. cbn. rewrite lookup_alter.
  case_decide; [subst; now apply fmap_is_Some | assumption].
Qed.

Lemma keeps_loggers_addHandler name h : keeps_loggers (logger_addHandler name h).
Proof.
  intros w lg Hs. cbn. rewrite lookup_alter.
  case_decide; [subst; now apply fmap_is_Some | assumption].
Qed.

Lemma keeps_loggers_debug name msg : keeps_loggers (logger_debug name msg).
Proof.
  intros w lg Hs. unfold logger_debug.
  destruct (loggers w !! name); [|exact Hs].
  destruct (_ <=? _); exact Hs.
Qed.

Lemma keeps_loggers_FileHandler path : keeps_loggers (FileHandler path).
Proof.
  apply keeps_loggers_bind; [apply keeps_loggers_with_fs|].
  intros _. apply keeps_loggers_ret.
Qed.

Lemma keeps_loggers_get_full_time : keeps_loggers _get_full_time.
Proof.
  apply keeps_loggers_bind; [apply keeps_loggers_utcnow|].
  intros now. apply keeps_loggers_ret.
Qed.

Lemma keeps_loggers_cleanup_loop thr files : keeps_loggers (cleanup_loop thr files).
Proof.
  induction files as [|p files IH]; [apply keeps_loggers_ret|].
  cbn [cleanup_loop]. apply keeps_loggers_bind; [apply keeps_loggers_lift|].
  intros d. apply keeps_loggers_bind; [|intros _; exact IH].
  destruct (Datetime.lt d thr); [apply keeps_loggers_with_fs | apply keeps_loggers_ret].
Qed.

Lemma keeps_on_logger {A} lg (call : string → Prog A) :
  (∀ name, keeps_loggers (call name)) → keeps (ready lg) (on_logger call).
Proof.
  intros Hc. apply keeps_bind; [apply keeps_get_self|].
  intros self. destruct (logger self); apply keeps_in_world; [apply Hc|apply keeps_loggers_lift].
Qed.

Lemma keeps_setup_save_logging lg fmt : keeps (ready lg) (_setup_save_logging fmt).
Proof.
  unfold _setup_save_logging. cbv zeta.
  repeat (first
    [ apply keeps_get_self
    | apply keeps_on_logger; intros ?; apply keeps_loggers_addHandler
    | apply keeps_in_world; first [apply keeps_loggers_get_full_time | apply keeps_loggers_FileHandler]
    | apply keeps_bind; [|intros ?] ]).
Qed.

Lemma keeps_cleanup_old_logs lg days : keeps (ready lg) (cleanup_old_logs days).
Proof.
  unfold cleanup_old_logs. apply keeps_bind; [apply keeps_get_self|]. intros self.
  apply keeps_in_world.
  apply keeps_loggers_bind; [apply keeps_loggers_utcnow|]. intros now.
  apply keeps_loggers_bind; [apply keeps_loggers_lift|]. intros thr.
  apply keeps_loggers_bind; [intros w l Hs; exact Hs|]. intros files.
  apply keeps_loggers_cleanup_loop.
Qed.

Lemma keeps_get_logger lg : keeps (ready lg) get_logger.
Proof.
  unfold get_logger. apply keeps_bind; [apply keeps_get_self|]. intros self.
  destruct (logger self); [apply keeps_ret | apply keeps_in_world, keeps_loggers_lift].
Qed.

(** Once [setup_logging] has been entered, the manager is ready, however
    the call ends. *)
Lemma setup_logging_ready lvl self w :
  let x := setup_logging lvl self w in
  ready "4chan_requester" (object_after x) (world_after x).
Proof.
  cbn zeta.
  assert (Hg : ∃ w1, getLogger "4chan_requester" w = (Return "4chan_requester", w1)
                     ∧ is_Some (loggers w1 !! "4chan_requester")).
  { unfold getLogger. destruct (loggers w !! "4chan_requester") eqn:E;
      eexists; (split; [reflexivity|]).
    - rewrite E. eauto.
    - cbn. rewrite lookup_insert_eq. eauto. }
  destruct Hg as (w1 & Hg & Hs).
  remember (setup_logging lvl self w) as x eqn:Hx.
  unfold setup_logging in Hx.
  unfold mbind at 1, Meth_bind at 1, in_world at 1 in Hx. rewrite Hg in Hx.
  unfold mbind at 1, Meth_bind at 1, set_logger at 1 in Hx.
  match type of Hx with
  | x = ?m ?s ?w =>
      assert (Hrest : keeps (ready "4chan_requester") m);
        [|rewrite Hx; exact (Hrest s w (conj eq_refl Hs))]
  end.
  repeat (first
    [ apply keeps_get_self
    | apply keeps_ret
    | apply keeps_setup_save_logging
    | match goal with |- keeps _ (if ?b then _ else _) => destruct b end
    | apply keeps_on_logger; intros ?;
      first [apply keeps_loggers_addHandler | apply keeps_loggers_setLevel
            | apply keeps_loggers_debug]
    | apply keeps_bind; [|intros ?] ]).
Qed.

Lemma get_logger_eq self w :
  get_logger self w =
    match logger self with
    | Some lg => (Return lg, self, w)
    | None =>
        (raise Exn.RuntimeError "Logger not set up yet. Call setup_logging() first.",
         self, w)
    end.
Proof. unfold get_logger, mbind, Meth_bind, get_self. now destruct (logger self). Qed.

Lemma perform_keeps_ready s c :
  (∃ lg, ready lg (fst s) (snd s)) →
  ∃ lg, ready lg (fst (perform s c)) (snd (perform s c)).
Proof.
  destruct s as [self w], c as [lvl|days|]; cbn [perform fst snd]; intros [lg H].
  - eexists. apply setup_logging_ready.
  - exists lg. now apply keeps_cleanup_old_logs.
  - exists lg. now apply keeps_get_logger.
Qed.

Lemma run_keeps_ready calls s :
  (∃ lg, ready lg (fst s) (snd s)) →
  ∃ lg, ready lg (fst (run calls s)) (snd (run calls s)).
Proof.
  revert s. induction calls as [|c calls IH]; intros s H; [exact H|].
  cbn. apply IH, perform_keeps_ready, H.
Qed.

Lemma cleanup_old_logs_object days self w :
  object_after (cleanup_old_logs days self w) = self.
Proof.
  rewrite cleanup_old_logs_eq. destruct (Datetime.sub_days _ _); [|reflexivity].
  now destruct (cleanup_loop _ _ _).
Qed.

Lemma run_keeps_unset calls s :
  logger (fst s) = None → forallb (fun c => negb (is_setup c)) calls = true →
  logger (fst (run calls s)) = None.
Proof.
  revert s. induction calls as [|c calls IH]; intros [self w] Hn Hc; [exact Hn|].
  cbn in Hc. apply andb_true_iff in Hc as [Hc Hcs]. cbn. apply IH; [|exact Hcs].
  destruct c as [lvl|days|]; [discriminate| |]; cbn in *.
  - now rewrite cleanup_old_logs_object.
  - rewrite get_logger_eq, Hn. exact Hn.
Qed.

Lemma run_app calls1 calls2 s : run (calls1 ++ calls2) s = run calls2 (run calls1 s).
Proof. apply fold_left_app. Qed.

(** C6: on a manager as its constructor made it, [get_logger] raises
    [RuntimeError] as long as the calls made so far include no
    [setup_logging]; once they include one, however it ended, [get_logger]
    returns a logger that is in the table of loggers. *)
Theorem get_logger_before_and_after_setup
    (base_save_path logfolderpath : Path.t) (save : bool) (w0 w : World)
    (mgr : LoggerManager) (calls : list call) :
  LoggerManager_init base_save_path logfolderpath save w0 = (Return mgr, w) →
  let s := run calls (mgr, w) in
  (forallb (fun c => negb (is_setup c)) calls = true →
   outcome (get_logger (fst s) (snd s)) =
     raise Exn.RuntimeError "Logger not set up yet. Call setup_logging() first.") ∧
  (existsb is_setup calls = true →
   ∃ lg, outcome (get_logger (fst s) (snd s)) = Return lg
         ∧ is_Some (loggers (snd s) !! lg)).
Proof.
  intros Hinit s. split.
  - intros Hno. rewrite get_logger_eq.
    assert (Hnone : logger mgr = None).
    { unfold LoggerManager_init, mbind, Prog_bind in Hinit.
      destruct save; [destruct (with_fs _ w0) as [[[]|e] w1]|]; cbn in Hinit;
        inversion Hinit; reflexivity. }
    subst s. now rewrite (run_keeps_unset calls (mgr, w) Hnone Hno).
  - intros Hsome. apply existsb_exists in Hsome as (c & Hin & Hc).
    apply in_split in Hin as (before & after & ->).
    destruct c as [lvl| |]; try discriminate.
    assert (Hready : ∃ lg, ready lg (fst s) (snd s)).
    { subst s. change (before ++ SetupLogging lvl :: after)
        with (before ++ [SetupLogging lvl] ++ after).
      rewrite !run_app. apply run_keeps_ready.
      destruct (run before (mgr, w)) as [self1 w1]. cbn.
      eexists. apply setup_logging_ready. }
    destruct Hready as (lg & Hl & Hs). exists lg.
    rewrite get_logger_eq, Hl. split; [reflexivity|exact Hs].
Qed.

End LifeCycle.

(** A manager made without saving, on an empty disk: [get_logger] raises
    after a cleanup alone, and returns the logger after a setup followed
    by a cleanup. *)
Lemma get_logger_before_and_after_setup_witness :
  let mgr := LogSamples.manager false in
  let w := LogSamples.world_at LogSamples.night [] in
  let s1 := run [CleanupOldLogs 3] (mgr, w) in
  let s2 := run [SetupLogging Logging.INFO; CleanupOldLogs 3] (mgr, w) in
  outcome (get_logger (fst s1) (snd s1)) =
    raise Exn.RuntimeError "Logger not set up yet. Call setup_logging() first." ∧
  ∃ lg, outcome (get_logger (fst s2) (snd s2)) = Return lg
        ∧ is_Some (loggers (snd s2) !! lg).
Proof.
  split.
  - exact (proj1 (get_logger_before_and_after_setup LogSamples.base ["logs"] false
                    (LogSamples.world_at LogSamples.night [])
                    (LogSamples.world_at LogSamples.night [])
                    (LogSamples.manager false) [CleanupOldLogs 3] eq_refl) eq_refl).
  - exact (proj2 (get_logger_before_and_after_setup LogSamples.base ["logs"] false
                    (LogSamples.world_at LogSamples.night [])
                    (LogSamples.world_at LogSamples.night [])
                    (LogSamples.manager false)
                    [SetupLogging Logging.INFO; CleanupOldLogs 3] eq_refl) eq_refl).
Defined.

(** ** Construction and the log folder *)

Section Construction.

Lemma lookup_app_new (fs0 : Fs.t) p k q :
  Fs.lookup (fs0 ++ [(p, k)]) q =
    match Fs.lookup fs0 q with
    | Some k' => Some k'
    | None => if Fs.path_eqb p q then Some k else None
    end.
Proof.
  induction fs0 as [|[p' k'] fs0 IH]; cbn; [reflexivity|].
  destruct (Fs.path_eqb p' q); [reflexivity|exact IH].
Qed.

Lemma is_dir_app_new (fs0 : Fs.t) p k q :
  Fs.is_dir fs0 q = true → Fs.is_dir (fs0 ++ [(p, k)]) q = true.
Proof.
  unfold Fs.is_dir. destruct q as [|a q]; [reflexivity|].
  rewrite lookup_app_new. destruct (bool_decide _); [reflexivity|]. cbn.
  destruct (Fs.lookup fs0 (a :: q)) as [[]|]; try discriminate. reflexivity.
Qed.

Lemma mkdir_from_is_dir todo : ∀ (fs0 fs' : Fs.t) (done : Path.t),
  Fs.mkdir_from fs0 done todo = (Return tt, fs') →
  Fs.is_dir fs0 done = true →
  Fs.is_dir fs' (done ++ todo) = true.
Proof.
  induction todo as [|part todo IH]; intros fs0 fs' done Hmk Hdone.
  - cbn in Hmk. injection Hmk as <-. now rewrite app_nil_r.
  - cbn [Fs.mkdir_from] in Hmk.
    replace (done ++ part :: todo) with ((done ++ [part]) ++ todo)
      by now rewrite <- app_assoc.
    destruct (Fs.is_dir fs0 (done ++ [part])) eqn:Hd.
    + now apply (IH fs0).
    + destruct (Fs.lookup fs0 (done ++ [part])) eqn:Hl.
      * destruct todo; discriminate.
      * apply (IH _ _ _ Hmk). unfold Fs.is_dir.
        destruct (done ++ [part]) eqn:E; [reflexivity|]. rewrite <- E in Hl |- *.
        rewrite lookup_app_new, Hl, (proj2 (path_eqb_true _ _) eq_refl).
        apply orb_true_r.
Qed.

(** C9: a manager that the constructor returns has, for either value of
    [save_log], the log folder [base_save_path / logfolderpath]; the
    directory is made on disk only when [save_log] is set; and
    [cleanup_old_logs] globs that folder whatever the flag. *)
Theorem logfolder_whatever_save_log
    (base_save_path logfolderpath : Path.t) (save : bool) (w w' : World)
    (mgr : LoggerManager) :
  LoggerManager_init base_save_path logfolderpath save w = (Return mgr, w') →
  logfolder mgr = Path.joinpath base_save_path logfolderpath ∧
  save_log mgr = save ∧
  (if save
   then Fs.is_dir (fs w') (Path.joinpath base_save_path logfolderpath) = true
   else w' = w) ∧
  ∀ days_to_keep w1,
    cleanup_old_logs days_to_keep mgr w1 =
      match Datetime.sub_days (clock w1 (reads w1)) days_to_keep with
      | Return threshold_date =>
          let '(r, w2) :=
            cleanup_loop threshold_date
              (Fs.glob_log (fs w1) (Path.joinpath base_save_path logfolderpath))
              (tick w1) in
          (r, mgr, w2)
      | Raise e => (Raise e, mgr, tick w1)
      end.
Proof.
  intros Hinit.
  assert (Hmgr : mgr = {| save_log := save;
                          logfolder := Path.joinpath base_save_path logfolderpath;
                          logger := None |} ∧
                 if save
                 then Fs.is_dir (fs w') (Path.joinpath base_save_path logfolderpath) = true
                 else w' = w).
  { unfold LoggerManager_init, mbind, Prog_bind, with_fs in Hinit. destruct save.
    - destruct (Fs.mkdir_parents (fs w) _) as [[[]|e] fs'] eqn:Hmk; cbn in Hinit;
        [|discriminate].
      injection Hinit as <- <-. split; [reflexivity|]. cbn.
      exact (mkdir_from_is_dir _ _ _ [] Hmk eq_refl).
    - cbn in Hinit. injection Hinit as <- <-. split; reflexivity. }
  destruct Hmgr as [-> Hdisk]. repeat split; [exact Hdisk|].
  intros days w1. apply cleanup_old_logs_eq.
Qed.

End Construction.

(** Constructing without saving on an empty disk: the folder is recorded,
    and nothing is created. *)
Lemma logfolder_whatever_save_log_witness :
  logfolder (LogSamples.manager false) = Path.joinpath LogSamples.base ["logs"] ∧
  save_log (LogSamples.manager false) = false.
Proof.
  pose proof (logfolder_whatever_save_log LogSamples.base ["logs"] false
                (LogSamples.world_at LogSamples.night [])
                (LogSamples.world_at LogSamples.night [])
                (LogSamples.manager false) eq_refl) as (Hfolder & Hsave & _ & _).
  split; [exact Hfolder|exact Hsave].
Defined.

(** ** Time stamps and the names of the log files *)

Section Stamps.

Import Datetime.

Lemma digit_of_ascii_digit x :
  Text.digit_of_ascii (digit (x mod 10)) = Some (x mod 10).
Proof.
  assert (Hb : 0 ≤ x mod 10 < 10) by (apply Z.mod_pos_bound; lia).
  assert (Hc : x mod 10 = 0 ∨ x mod 10 = 1 ∨ x mod 10 = 2 ∨ x mod 10 = 3 ∨ x mod 10 = 4
               ∨ x mod 10 = 5 ∨ x mod 10 = 6 ∨ x mod 10 = 7 ∨ x mod 10 = 8 ∨ x mod 10 = 9)
    by lia.
  destruct Hc as [->|[->|[->|[->|[->|[->|[->|[->|[->| ->]]]]]]]]]; reflexivity.
Qed.

Lemma is_digit_digit x : Text.is_digit (digit (x mod 10)) = true.
Proof. unfold Text.is_digit. now rewrite digit_of_ascii_digit. Qed.

Lemma digit_not_sep x sep :
  Text.is_digit sep = false → Ascii.eqb (digit (x mod 10)) sep = false.
Proof.
  intros Hs. destruct (Ascii.eqb_spec (digit (x mod 10)) sep) as [E|]; [|reflexivity].
  rewrite <- E, is_digit_digit in Hs. discriminate.
Qed.

Lemma strftime_eq t :
  strftime t =
    String (digit (year t / 100 / 10 mod 10)) (
    String (digit (year t / 100 mod 10)) (
    String (digit (year t / 10 mod 10)) (
    String (digit (year t mod 10)) (
    String "_" (
    String (digit (month t / 10 mod 10)) (
    String (digit (month t mod 10)) (
    String "_" (
    String (digit (day t / 10 mod 10)) (
    String (digit (day t mod 10)) (
    String "_" (
    String (digit (hour t / 10 mod 10)) (
    String (digit (hour t mod 10)) (
    String "_" (
    String (digit (minute t / 10 mod 10)) (
    String (digit (minute t mod 10)) (
    String "_" (
    String (digit (second t / 10 mod 10)) (
    String (digit (second t mod 10)) (
    EmptyString))))))))))))))))))).
Proof. reflexivity. Qed.

Lemma no_sep_pad2 sep n : Text.is_digit sep = false → no_sep sep (pad2 n) = true.
Proof.
  intros Hs. unfold no_sep, pad2. cbn [list_ascii_of_string forallb].
  now rewrite !(digit_not_sep _ sep Hs).
Qed.

Lemma no_sep_app sep a b : no_sep sep (a +:+ b) = no_sep sep a && no_sep sep b.
Proof.
  unfold no_sep. induction a as [|c a IH]; [reflexivity|]. simpl.
  rewrite IH. apply andb_assoc.
Qed.

Lemma no_sep_pad4 sep n : Text.is_digit sep = false → no_sep sep (pad4 n) = true.
Proof.
  intros Hs. unfold pad4. now rewrite no_sep_app, !no_sep_pad2.
Qed.

Lemma split_no_sep sep s : no_sep sep s = true → Text.split sep s = [s].
Proof.
  unfold no_sep. induction s as [|c s IH]; [reflexivity|]. cbn.
  intros H. apply andb_true_iff in H as [Hc Hs]. apply negb_true_iff in Hc.
  now rewrite Hc, (IH Hs).
Qed.

Lemma split_cons sep a b :
  no_sep sep a = true → Text.split sep (a +:+ String sep b) = a :: Text.split sep b.
Proof.
  unfold no_sep. induction a as [|c a IH]; intros H.
  - simpl. now rewrite Ascii.eqb_refl.
  - cbn in H. apply andb_true_iff in H as [Hc Hs]. apply negb_true_iff in Hc.
    simpl. now rewrite Hc, (IH Hs).
Qed.

Lemma split_strftime t :
  Text.split "_" (strftime t) =
    [pad4 (year t); pad2 (month t); pad2 (day t);
     pad2 (hour t); pad2 (minute t); pad2 (second t)].
Proof.
  unfold strftime.
  repeat match goal with
         | |- context [String.append "_" ?x] =>
             change (String.append "_" x) with (String "_" x)
         end.
  rewrite split_cons by now apply no_sep_pad4.
  rewrite !split_cons by now apply no_sep_pad2.
  rewrite split_no_sep by now apply no_sep_pad2.
  reflexivity.
Qed.

Lemma stamp_format_strftime t : stamp_format (strftime t) = true.
Proof.
  unfold stamp_format. rewrite split_strftime.
  unfold pad4, pad2. cbv [String.append].
  cbn [forallb String.length Nat.eqb list_ascii_of_string andb].
  rewrite !is_digit_digit. reflexivity.
Qed.

Lemma no_slash_strftime t : no_sep "/" (strftime t) = true.
Proof.
  unfold strftime.
  rewrite !no_sep_app, no_sep_pad4, !no_sep_pad2 by reflexivity. reflexivity.
Qed.

Lemma two_digits n : 0 ≤ n ≤ 99 → 10 * (10 * 0 + n / 10 mod 10) + n mod 10 = n.
Proof. intros H. Z.div_mod_to_equations; lia. Qed.

Lemma four_digits n :
  0 ≤ n ≤ 9999 →
  10 * (10 * (10 * (10 * 0 + n / 100 / 10 mod 10) + n / 100 mod 10) + n / 10 mod 10)
    + n mod 10 = n.
Proof. intros H. Z.div_mod_to_equations; lia. Qed.

Lemma days_in_month_le y m : days_in_month y m ≤ 31.
Proof.
  unfold days_in_month. destruct (_ && _); [lia|].
  unfold DAYS_IN_MONTH. destruct m as [|p|p]; try lia.
  repeat (destruct p as [p|p|]; try lia).
Qed.

Lemma valid_bounds t :
  valid t = true →
  1 ≤ year t ≤ 9999 ∧ 1 ≤ month t ≤ 12 ∧ 1 ≤ day t ≤ days_in_month (year t) (month t)
  ∧ 0 ≤ hour t ≤ 23 ∧ 0 ≤ minute t ≤ 59 ∧ 0 ≤ second t ≤ 59
  ∧ 0 ≤ microsecond t ≤ 999999.
Proof.
  unfold valid, between, MINYEAR, MAXYEAR.
  rewrite !andb_true_iff, !Z.leb_le. tauto.
Qed.

Lemma number_pad2 n : 0 ≤ n ≤ 99 → Text.number (pad2 n) = Some n.
Proof.
  intros H. unfold pad2, Text.number. cbn [Text.number_from].
  rewrite !digit_of_ascii_digit. cbn [Text.number_from].
  now rewrite two_digits.
Qed.

Lemma short_field_pad2 lo hi n :
  0 ≤ n ≤ 99 → lo ≤ n ≤ hi → short_field lo hi (pad2 n) = Some n.
Proof.
  intros H Hr. unfold short_field. rewrite (number_pad2 n H). cbn.
  unfold between. rewrite !(proj2 (Z.leb_le _ _)) by lia. reflexivity.
Qed.

Lemma year_field_pad4 n : 0 ≤ n ≤ 9999 → year_field (pad4 n) = Some n.
Proof.
  intros H. unfold year_field, pad4, pad2, Text.number.
  cbv [String.append]. cbn [Text.number_from String.length].
  rewrite !digit_of_ascii_digit. cbn [Text.number_from].
  rewrite four_digits by lia. reflexivity.
Qed.

Lemma day_field_pad2 n : 1 ≤ n ≤ 31 → day_field (pad2 n) = Some n.
Proof.
  intros H. unfold day_field, pad2.
  rewrite (digit_not_sep _ " ") by reflexivity.
  apply (short_field_pad2 1 31 n); lia.
Qed.

Lemma parse_fields_strftime t :
  valid t = true →
  parse_fields (strftime t) =
    Some (year t, month t, day t, hour t, minute t, second t).
Proof.
  intros Hv. apply valid_bounds in Hv as (Hy & Hm & Hd & Hh & Hmi & Hs & _).
  pose proof (days_in_month_le (year t) (month t)) as Hdim.
  unfold parse_fields. rewrite split_strftime.
  rewrite year_field_pad4, !short_field_pad2, day_field_pad2 by lia.
  reflexivity.
Qed.

(** Reading back a time stamp gives the instant it was made from, to the
    second. *)
Lemma strptime_strftime t :
  valid t = true → strptime (strftime t) = Return (Calendar.to_second t).
Proof.
  intros Hv. unfold strptime. rewrite (parse_fields_strftime t Hv).
  unfold new, Calendar.to_second.
  assert (Hv' : valid (Build (year t) (month t) (day t) (hour t) (minute t) (second t) 0)
                = true).
  { unfold valid in *. cbn [year month day hour minute second microsecond].
    rewrite !andb_true_iff in *. tauto. }
  now rewrite Hv'.
Qed.

Lemma stamp_slice_info t :
  stamp_slice ("info_log" +:+ strftime t +:+ ".log") = strftime t.
Proof. rewrite strftime_eq. reflexivity. Qed.

Lemma stamp_slice_debug t :
  stamp_slice ("debug_log" +:+ strftime t +:+ ".log") = strftime t.
Proof. rewrite strftime_eq. reflexivity. Qed.


Lemma of_str_single s :
  no_sep "/" s = true → String.eqb s "" = false → String.eqb s "." = false →
  Path.of_str s = [s].
Proof.
  intros Hs He Hd. unfold Path.of_str. rewrite (split_no_sep _ _ Hs).
  cbn [List.filter]. rewrite He, Hd. cbn [orb negb].
  destruct s as [|c s]; [discriminate|]. cbn in Hs.
  apply andb_true_iff in Hs as [Hc _]. apply negb_true_iff in Hc.
  now rewrite Hc.
Qed.

Lemma of_str_log_name prefix t :
  no_sep "/" prefix = true → prefix ≠ "" →
  Path.of_str (prefix +:+ strftime t +:+ ".log") = [prefix +:+ strftime t +:+ ".log"].
Proof.
  intros Hp Hne. apply of_str_single.
  - now rewrite !no_sep_app, Hp, no_slash_strftime.
  - destruct prefix; [congruence|reflexivity].
  - destruct prefix as [|c [|c' p]]; [congruence| |].
    + rewrite strftime_eq. cbv [String.append]. cbn. now destruct (Ascii.eqb c ".").
    + cbv [String.append]. fold String.append. cbn. now destruct (Ascii.eqb c ".").
Qed.

End Stamps.

(** ** Setting up the log files *)

Section Setup.

Implicit Types (self : LoggerManager) (w : World).

Lemma parent_child_path (d : Path.t) name :
  String.eqb name "/" = false → Path.parent (d ++ [name]) = d.
Proof.
  intros Hn. unfold Path.parent. destruct d as [|a d]; cbn.
  - now rewrite Hn.
  - destruct (d ++ [name]) eqn:E; [destruct d; discriminate|]. rewrite <- E.
    f_equal. apply removelast_last.
Qed.

Lemma join_single (d : Path.t) name :
  String.eqb name "/" = false → Path.joinpath d [name] = d ++ [name].
Proof. intros Hn. unfold Path.joinpath. cbn. now rewrite Hn. Qed.

Lemma open_append_touch (fs0 : Fs.t) p :
  Fs.lookup fs0 p ≠ Some Fs.Directory →
  Fs.is_dir fs0 (Path.parent p) = true →
  Fs.open_append fs0 p = (Return tt, touch fs0 p) ∧
  Fs.lookup (touch fs0 p) p = Some Fs.RegularFile.
Proof.
  intros Hnd Hpar. unfold touch, Fs.open_append.
  destruct (Fs.lookup fs0 p) as [[]|] eqn:Hl; [auto|congruence|].
  rewrite Hpar. cbn. split; [reflexivity|].
  now rewrite lookup_app_new, Hl, (proj2 (path_eqb_true p p) eq_refl).
Qed.

Lemma lookup_touch_other (fs0 : Fs.t) p q :
  p ≠ q → Fs.lookup (touch fs0 p) q = Fs.lookup fs0 q.
Proof.
  intros Hne. unfold touch, Fs.open_append.
  destruct (Fs.lookup fs0 p) as [[]|]; [reflexivity..|].
  destruct (Fs.is_dir fs0 (Path.parent p)); [|reflexivity]. cbn.
  rewrite lookup_app_new, (proj2 (path_eqb_false p q) Hne).
  now destruct (Fs.lookup fs0 q).
Qed.

Lemma lookup_touch_keeps (fs0 : Fs.t) p q k :
  Fs.lookup fs0 q = Some k → Fs.lookup (touch fs0 p) q = Some k.
Proof.
  intros Hq. unfold touch, Fs.open_append.
  destruct (Fs.lookup fs0 p) as [[]|]; [assumption..|].
  destruct (Fs.is_dir fs0 (Path.parent p)); [|assumption]. cbn.
  now rewrite lookup_app_new, Hq.
Qed.

Lemma is_dir_touch (fs0 : Fs.t) p q :
  Fs.is_dir fs0 q = true → Fs.is_dir (touch fs0 p) q = true.
Proof.
  intros Hq. unfold touch, Fs.open_append.
  destruct (Fs.lookup fs0 p) as [[]|]; [assumption..|].
  destruct (Fs.is_dir fs0 (Path.parent p)); [|assumption]. cbn.
  now apply is_dir_app_new.
Qed.

Lemma FileHandler_eq w p :
  Fs.lookup (fs w) p ≠ Some Fs.Directory →
  Fs.is_dir (fs w) (Path.parent p) = true →
  FileHandler p w =
    (Return {| Logging.target := Logging.FileSink p;
               Logging.hlevel := Logging.NOTSET;
               Logging.formatter := None |},
     set_fs w (touch (fs w) p)).
Proof.
  intros Hnd Hpar. unfold FileHandler, mbind, Prog_bind, with_fs.
  now rewrite (proj1 (open_append_touch _ _ Hnd Hpar)).
Qed.

Lemma on_logger_eq {A} (call : string → Prog A) self w lg :
  logger self = Some lg →
  on_logger call self w = (fst (call lg w), self, snd (call lg w)).
Proof.
  intros Hl. unfold on_logger, mbind, Meth_bind, get_self, in_world. rewrite Hl.
  now destruct (call lg w).
Qed.

Lemma log_name_eqb_root prefix t :
  prefix ≠ "" → no_sep "/" prefix = true →
  String.eqb (prefix +:+ Datetime.strftime t +:+ ".log") "/" = false.
Proof.
  intros Hne Hp. destruct prefix as [|c p]; [congruence|].
  cbn in Hp. apply andb_true_iff in Hp as [Hc _]. apply negb_true_iff in Hc.
  cbv [String.append]. fold String.append. cbn. now rewrite Hc.
Qed.

(** The file part of [_setup_save_logging]. *)
Lemma setup_save_logging_files fmt self w lg :
  logger self = Some lg →
  Fs.is_dir (fs w) (logfolder self) = true →
  let info :=
    logfolder self ++ ["info_log" +:+ Datetime.strftime (clock w (reads w)) +:+ ".log"] in
  let debug :=
    logfolder self
      ++ ["debug_log" +:+ Datetime.strftime (clock w (S (reads w))) +:+ ".log"] in
  Fs.lookup (fs w) info ≠ Some Fs.Directory →
  Fs.lookup (fs w) debug ≠ Some Fs.Directory →
  ∃ w', _setup_save_logging fmt self w = (Return tt, self, w') ∧
        fs w' = touch (touch (fs w) info) debug.
Proof.
  intros Hl Hdir info debug Hinfo Hdebug.
  assert (Hne : info ≠ debug).
  { subst info debug. intros E. apply app_inv_head in E. discriminate. }
  unfold _setup_save_logging.
  unfold mbind at 1, Meth_bind at 1, get_self at 1.
  unfold mbind at 1, Meth_bind at 1, in_world at 1, _get_full_time at 1, mbind at 1,
    Prog_bind at 1, utcnow at 1. cbn [mret Prog_ret].
  rewrite (of_str_log_name "info_log") by (reflexivity || discriminate).
  rewrite join_single by (apply log_name_eqb_root; reflexivity || discriminate).
  fold info.
  unfold mbind at 1, Meth_bind at 1, in_world at 1.
  rewrite FileHandler_eq; cbn [fs];
    [| exact Hinfo
     | subst info; rewrite parent_child_path;
       [exact Hdir | apply log_name_eqb_root; reflexivity || discriminate]].
  unfold mbind at 1, Meth_bind at 1. rewrite (on_logger_eq _ _ _ lg Hl).
  cbn [fst snd logger_addHandler].
  unfold mbind at 1, Meth_bind at 1, in_world at 1, _get_full_time at 1, mbind at 1,
    Prog_bind at 1, utcnow at 1. cbn [mret Prog_ret set_loggers set_fs clock reads fs].
  rewrite (of_str_log_name "debug_log") by (reflexivity || discriminate).
  rewrite join_single by (apply log_name_eqb_root; reflexivity || discriminate).
  fold debug.
  unfold mbind at 1, Meth_bind at 1, in_world at 1.
  rewrite FileHandler_eq; cbn [fs];
    [| rewrite (lookup_touch_other _ _ _ Hne); exact Hdebug
     | subst debug; rewrite parent_child_path;
       [apply is_dir_touch; exact Hdir
       | apply log_name_eqb_root; reflexivity || discriminate]].
  rewrite (on_logger_eq _ _ _ lg Hl). cbn [fst snd logger_addHandler].
  eexists. split; reflexivity.
Qed.


Lemma getLogger_eq name w :
  ∃ w1, getLogger name w = (Return name, w1) ∧ fs w1 = fs w ∧ clock w1 = clock w
        ∧ reads w1 = reads w.
Proof.
  unfold getLogger. destruct (loggers w !! name); eexists; repeat split; reflexivity.
Qed.

Lemma logger_debug_eq name msg w :
  fst (logger_debug name msg w) = Return tt ∧
  fs (snd (logger_debug name msg w)) = fs w.
Proof.
  unfold logger_debug. destruct (loggers w !! name); [|split; reflexivity].
  destruct (_ <=? _); split; reflexivity.
Qed.


End Setup.



(** * Further properties *)

(** ** The validator: what it returns and how it fails *)

Section CheckPositiveFloatMore.

Variable float_of_string : string -> option spec_float.
Variable float_repr : spec_float -> string.

(** Two floats that are not NaN compare. *)
Lemma SFcompare_total x y :
  x ≠ S754_nan → y ≠ S754_nan → ∃ c, SFcompare x y = Some c.
Proof.
  intros Hx Hy.
  destruct x as [sx|sx| |sx mx ex], y as [sy|sy| |sy my ey]; try congruence;
    cbn; eauto.
Qed.

Lemma float_not_lt_ge x y :
  x ≠ S754_nan → y ≠ S754_nan → Py.float_lt x y = false → Py.float_ge x y = true.
Proof.
  intros Hx Hy. unfold Py.float_lt, Py.float_ge, SFltb, SFleb.
  destruct (SFcompare_total x y Hx Hy) as [c Hc]. rewrite Hc.
  rewrite (SFcompare_antisym _ _ _ Hc). destruct c; cbn; congruence.
Qed.

(** The built-in [float] never raises the validator's own exception. *)
Lemma float_not_ArgumentTypeError v e :
  Py.float float_of_string v = Raise e → Exn.cls e ≠ Exn.ArgumentTypeError.
Proof.
  destruct v as [s|z|f|]; cbn.
  - destruct (float_of_string s); [discriminate|]. intros [= <-]. discriminate.
  - destruct (Py.float_of_Z z); try discriminate. intros [= <-]. discriminate.
  - discriminate.
  - intros [= <-]. discriminate.
Qed.

(** X1: a value the validator returns is never below one: it is the float
    of the argument, and it is NaN or at least [1.0]. *)
Theorem check_positive_float_returns_at_least_one (v : Py.value) (f : spec_float) :
  check_positive_float float_of_string float_repr v = Return f →
  Py.float float_of_string v = Return f ∧
  Py.float_lt f Py.float_one = false ∧
  (f = S754_nan ∨ Py.float_ge f Py.float_one = true).
Proof.
  unfold check_positive_float.
  destruct (Py.float float_of_string v) as [f'|e] eqn:Hf; cbn; [|discriminate].
  destruct (Py.float_lt f' Py.float_one) eqn:Hlt; [discriminate|].
  intros [= <-]. repeat split; [assumption|].
  destruct f' as [s|s| |s m e']; [right|right|now left|right];
    (apply float_not_lt_ge; [discriminate|discriminate|assumption]).
Qed.

(** X2: the validator fails in two ways only.  An [ArgumentTypeError] it
    raises carries its own message, and [float] gave a value below one;
    any other exception is the one [float] raised, passed on unchanged, and
    is no [ArgumentTypeError]. *)
Theorem check_positive_float_failures (v : Py.value) (e : exn) :
  check_positive_float float_of_string float_repr v = Raise e →
  (Py.float float_of_string v = Raise e ∧ Exn.cls e ≠ Exn.ArgumentTypeError) ∨
  (∃ f, Py.float float_of_string v = Return f ∧
        Py.float_lt f Py.float_one = true ∧
        e = Exn.Build Exn.ArgumentTypeError
              ("--request-time-limit value should be at least 1, now is "
                 +:+ Py.format float_repr v)).
Proof.
  unfold check_positive_float.
  destruct (Py.float float_of_string v) as [f|e'] eqn:Hf; cbn.
  - destruct (Py.float_lt f Py.float_one) eqn:Hlt; [|discriminate].
    intros [= <-]. right. exists f. auto.
  - intros [= <-]. left. split; [reflexivity|].
    exact (float_not_ArgumentTypeError v e' Hf).
Qed.

(** X3: NaN and positive infinity pass the validator: the test [fvalue < 1]
    is false for them. *)
Theorem check_positive_float_nan_and_infinity (v : Py.value) (f : spec_float) :
  Py.float float_of_string v = Return f →
  f = S754_nan ∨ f = S754_infinity false →
  check_positive_float float_of_string float_repr v = Return f.
Proof.
  intros Hf Hcase. unfold check_positive_float. rewrite Hf. cbn.
  destruct Hcase as [-> | ->]; reflexivity.
Qed.

End CheckPositiveFloatMore.

(** The word [2.5] is returned as the float 2.5, which is at least one. *)
Lemma check_positive_float_returns_at_least_one_witness :
  Py.float_lt (S754_finite false 5629499534213120 (-51)) Py.float_one = false.
Proof.
  exact (proj1 (proj2 (check_positive_float_returns_at_least_one
                         decimal_float_of_string (fun _ => "") (Py.Str "2.5")
                         (S754_finite false 5629499534213120 (-51)) eq_refl))).
Defined.

(** The word [abc] is no number: the [ValueError] of [float] comes out. *)
Lemma check_positive_float_failures_witness :
  Py.float decimal_float_of_string (Py.Str "abc") =
    Raise (Exn.Build Exn.ValueError "could not convert string to float: 'abc'").
Proof.
  destruct (check_positive_float_failures decimal_float_of_string (fun _ => "")
              (Py.Str "abc")
              (Exn.Build Exn.ValueError "could not convert string to float: 'abc'")
              eq_refl) as [[H _]|(f & H & _)].
  - exact H.
  - discriminate H.
Defined.

(** A NaN handed to the validator comes back. *)
Lemma check_positive_float_nan_and_infinity_witness :
  check_positive_float decimal_float_of_string (fun _ => "") (Py.Float S754_nan) =
    Return S754_nan.
Proof.
  exact (check_positive_float_nan_and_infinity decimal_float_of_string (fun _ => "")
           (Py.Float S754_nan) S754_nan eq_refl (or_introl eq_refl)).
Defined.

(** ** The loader: when it returns, and which errors it lets through *)

Section LoaderMore.

Import Config.

Variable json_load : string -> result Json.value.

(** The comprehension is empty exactly when every field is [in] the
    value. *)
Lemma missing_fields_nil (fields : list string) (config : Json.value) :
  missing_fields fields config = Return [] ↔
  ∀ k, k ∈ fields → Json.contains k config = Return true.
Proof.
  induction fields as [|k fields IH].
  - split; [intros _ k Hk; inversion Hk | reflexivity].
  - cbn [missing_fields]. split.
    + intros H k' Hk'.
      destruct (Json.contains k config) as [[]|e] eqn:Hc; cbn in H; try discriminate;
        destruct (missing_fields fields config) as [rest|e] eqn:Hm; cbn in H;
        try discriminate.
      injection H as ->.
      apply elem_of_cons in Hk' as [->|Hk']; [assumption|].
      now apply IH.
    + intros H. rewrite (H k) by left. cbn.
      rewrite (proj2 IH) by (intros k' Hk'; apply H; now right). reflexivity.
Qed.

(** X4: for a file that decodes, the loader returns exactly when each of
    the six names is [in] the decoded value, by Python's membership: a key
    of a [dict], but also an element of a [list] or a substring of a [str].
    What it returns is then the decoded value itself. *)
Theorem load_and_validate_config_returns_iff
    (fs : gmap string node) (path text : string) (config : Json.value) :
  fs !! path = Some (File text) →
  json_load text = Return config →
  (load_and_validate_config json_load fs path = Return config ↔
   ∀ k, k ∈ required_fields → Json.contains k config = Return true) ∧
  (∀ c, load_and_validate_config json_load fs path = Return c → c = config).
Proof.
  intros Hfs Hload. rewrite (load_decoded _ _ _ _ _ Hfs Hload).
  destruct (missing_fields required_fields config) as [[|k l]|e] eqn:Hm; cbn.
  - split; [|now intros c [= <-]].
    split; [intros _; now apply missing_fields_nil | reflexivity].
  - split; [|discriminate].
    split; [discriminate|]. intros H. apply missing_fields_nil in H. congruence.
  - split; [|discriminate].
    split; [discriminate|]. intros H. apply missing_fields_nil in H. congruence.
Qed.

(** X5: a file whose JSON text is a number, a boolean or [null] makes the
    loader fail with the [TypeError] of the membership test, not with its
    own [ValueError]. *)
Theorem load_and_validate_config_scalar
    (fs : gmap string node) (path text : string) (config : Json.value) :
  fs !! path = Some (File text) →
  json_load text = Return config →
  match config with
  | Json.Obj _ | Json.Arr _ | Json.Str _ => False
  | _ => True
  end →
  ∃ e, load_and_validate_config json_load fs path = Raise e ∧
       Exn.cls e = Exn.TypeError.
Proof.
  intros Hfs Hload Hscalar. rewrite (load_decoded _ _ _ _ _ Hfs Hload).
  destruct config; try contradiction; cbn; eexists; split; reflexivity.
Qed.

(** X6: the loader rewrites two kinds of failure only.  A path that names
    a directory gives the [IsADirectoryError] of [open]; and an exception
    of the decoder that is neither a [FileNotFoundError] nor a
    [JSONDecodeError] comes out as it was raised. *)
Theorem load_and_validate_config_other_errors
    (fs : gmap string node) (path : string) :
  (fs !! path = Some Dir →
   ∃ e, load_and_validate_config json_load fs path = Raise e ∧
        Exn.cls e = Exn.IsADirectoryError) ∧
  (∀ text e,
     fs !! path = Some (File text) →
     json_load text = Raise e →
     Exn.issubclass (Exn.cls e) Exn.FileNotFoundError = false →
     Exn.issubclass (Exn.cls e) Exn.JSONDecodeError = false →
     load_and_validate_config json_load fs path = Raise e).
Proof.
  split.
  - intros Hfs. unfold load_and_validate_config, open_read. rewrite Hfs. cbn.
    eexists. split; reflexivity.
  - intros text e Hfs Hload Hfnf Hjson.
    unfold load_and_validate_config, open_read. rewrite Hfs.
    unfold mbind, result_bind. now rewrite Hload, Hfnf, Hjson.
Qed.

End LoaderMore.

(** A JSON array of the six names passes the validation. *)
Lemma load_and_validate_config_returns_iff_witness :
  Config.load_and_validate_config JsonText.json_load ConfigOddities.disk "names.json" =
    Return ConfigOddities.names.
Proof.
  apply (proj1 (load_and_validate_config_returns_iff JsonText.json_load
                  ConfigOddities.disk "names.json" ConfigOddities.names_text
                  ConfigOddities.names ltac:(vm_compute; reflexivity)
                  ltac:(vm_compute; reflexivity))).
  apply Forall_forall. vm_compute. repeat constructor.
Defined.

(** The text [5] is valid JSON; the loader ends with a [TypeError]. *)
Lemma load_and_validate_config_scalar_witness :
  ∃ e, Config.load_and_validate_config JsonText.json_load ConfigOddities.disk
         "five.json" = Raise e ∧ Exn.cls e = Exn.TypeError.
Proof.
  exact (load_and_validate_config_scalar JsonText.json_load ConfigOddities.disk
           "five.json" "5" (Json.Int 5) ltac:(vm_compute; reflexivity)
           ltac:(vm_compute; reflexivity) I).
Defined.

(** [conf.d] is a directory. *)
Lemma load_and_validate_config_other_errors_witness :
  ∃ e, Config.load_and_validate_config JsonText.json_load ConfigOddities.disk
         "conf.d" = Raise e ∧ Exn.cls e = Exn.IsADirectoryError.
Proof.
  exact (proj1 (load_and_validate_config_other_errors JsonText.json_load
                  ConfigOddities.disk "conf.d") ltac:(vm_compute; reflexivity)).
Defined.

(** ** Time stamps: the helpers, and names with any prefix *)

Section StampsMore.

Import Datetime.

Lemma string_length_app (a b : string) :
  String.length (a +:+ b) = (String.length a + String.length b)%nat.
Proof. induction a as [|c a IH]; [reflexivity|]. simpl. now rewrite IH. Qed.

Lemma substring_skip (p s : string) (n : nat) :
  String.substring (String.length p) n (p +:+ s) = String.substring 0 n s.
Proof. induction p as [|c p IH]; [reflexivity|]. simpl. exact IH. Qed.

Lemma substring_prefix (x s : string) :
  String.substring 0 (String.length x) (x +:+ s) = x.
Proof.
  induction x as [|c x IH]; [now destruct s|]. simpl. now rewrite IH.
Qed.

Lemma substring_all (x : string) : String.substring 0 (String.length x) x = x.
Proof. induction x as [|c x IH]; [reflexivity|]. simpl. now rewrite IH. Qed.

Lemma strftime_length t : String.length (strftime t) = 19%nat.
Proof. rewrite strftime_eq. reflexivity. Qed.

(** The slice of [cleanup_old_logs] finds the stamp behind any prefix. *)
Lemma stamp_slice_any_prefix (prefix x : string) :
  String.length x = 19%nat → stamp_slice (prefix +:+ x +:+ ".log") = x.
Proof.
  intros Hx. unfold stamp_slice.
  rewrite !string_length_app, Hx. cbn [String.length].
  replace (String.length prefix + (19 + 4) - 23)%nat with (String.length prefix) by lia.
  replace (String.length prefix + (19 + 4) - 4 - String.length prefix)%nat with 19%nat
    by lia.
  rewrite substring_skip, <- Hx. apply substring_prefix.
Qed.

Lemma endswith_log (s : string) : Text.endswith (s +:+ ".log") ".log" = true.
Proof.
  unfold Text.endswith. rewrite string_length_app. cbn [String.length].
  replace (4 <=? String.length s + 4)%nat with true
    by (symmetry; apply Nat.leb_le; lia).
  replace (String.length s + 4 - 4)%nat with (String.length s) by lia.
  rewrite substring_skip. reflexivity.
Qed.


Lemma string_app_assoc (a b c : string) : (a +:+ b) +:+ c = a +:+ (b +:+ c).
Proof.
  induction a as [|x a IH]; [reflexivity|].
  change (String x ((a +:+ b) +:+ c) = String x (a +:+ (b +:+ c))). now rewrite IH.
Qed.

(** X7: a [*.log] name that ends with the stamp of an instant is read by
    the loop of [cleanup_old_logs] as that instant to the second, whatever
    stands before the stamp; so the entry is one the cleanup removes
    exactly when that instant is before the threshold, also when the file
    is not one of the manager's own. *)
Theorem stamp_behind_any_prefix
    (prefix : string) (t threshold_date : Datetime.t) (folder : Path.t) :
  valid t = true →
  let name := prefix +:+ strftime t +:+ ".log" in
  Text.endswith name ".log" = true ∧
  stamp name = Return (Calendar.to_second t) ∧
  doomed threshold_date folder (folder ++ [name]) =
    Datetime.lt (Calendar.to_second t) threshold_date.
Proof.
  intros Hv name.
  assert (Hend : Text.endswith name ".log" = true).
  { subst name. rewrite <- string_app_assoc. apply endswith_log. }
  assert (Hstamp : stamp name = Return (Calendar.to_second t)).
  { unfold stamp, name. rewrite (stamp_slice_any_prefix _ _ (strftime_length t)).
    now apply strptime_strftime. }
  repeat split; [assumption..|].
  unfold doomed, expired. now rewrite (child_name_log _ _ Hend), Hend, Hstamp.
Qed.

Lemma strftime_day_time (date time : Datetime.t) :
  Stamps.strftime_day date +:+ Stamps.strftime_time time =
    strftime (Stamps.combine date time).
Proof. reflexivity. Qed.

Lemma valid_combine (date time : Datetime.t) :
  valid date = true → valid time = true → valid (Stamps.combine date time) = true.
Proof.
  unfold valid, Stamps.combine. cbn [year month day hour minute second microsecond].
  rewrite !andb_true_iff. tauto.
Qed.

(** X8: [get_day] and [get_time] each read the clock once.  The two
    strings put together are the stamp of the date of the first reading
    with the time of day of the second, a name part [cleanup_old_logs] can
    read back; it is the stamp of one instant only when both readings
    agree in date and time. *)
Theorem get_day_get_time_stamp (w : World) :
  let t1 := clock w (reads w) in
  let t2 := clock w (S (reads w)) in
  get_day w = (Return (Stamps.strftime_day t1), tick w) ∧
  get_time (tick w) = (Return (Stamps.strftime_time t2), tick (tick w)) ∧
  Stamps.strftime_day t1 +:+ Stamps.strftime_time t2 = strftime (Stamps.combine t1 t2) ∧
  (valid t1 = true → valid t2 = true →
   strptime (Stamps.strftime_day t1 +:+ Stamps.strftime_time t2) =
     Return (Calendar.to_second (Stamps.combine t1 t2))) ∧
  (Calendar.to_second t1 = Calendar.to_second t2 →
   Stamps.strftime_day t1 +:+ Stamps.strftime_time t2 = strftime t1).
Proof.
  intros t1 t2. repeat split.
  - intros Hv1 Hv2. rewrite strftime_day_time.
    apply strptime_strftime, valid_combine; assumption.
  - intros Heq. rewrite strftime_day_time. unfold Calendar.to_second in Heq.
    injection Heq as _ _ _ Hh Hm Hs. unfold strftime, Stamps.combine.
    cbn [year month day hour minute second]. now rewrite Hh, Hm, Hs.
Qed.

End StampsMore.

(** A foreign file [export2024_03_06_12_00_00.log] in the log folder is
    older than the threshold of 7 March 2024 and would be removed. *)
Lemma stamp_behind_any_prefix_witness :
  doomed (Datetime.Build 2024 3 7 12 0 0 250000) LogSamples.folder
    (LogSamples.folder ++ ["export2024_03_06_12_00_00.log"]) = true.
Proof.
  exact (proj2 (proj2 (stamp_behind_any_prefix "export"
                         (Datetime.Build 2024 3 6 12 0 0 0)
                         (Datetime.Build 2024 3 7 12 0 0 250000)
                         LogSamples.folder eq_refl))).
Defined.

(** With a steady clock the helpers give the parts of one stamp. *)
Lemma get_day_get_time_stamp_witness :
  Datetime.strptime ("2024_01_02" +:+ "_03_04_05") =
    Return (Datetime.Build 2024 1 2 3 4 5 0).
Proof.
  exact (proj1 (proj2 (proj2 (proj2 (get_day_get_time_stamp
                                       (LogSamples.world_at LogSamples.night []))))) 
           eq_refl eq_refl).
Defined.

(** ** The cleanup: nothing to do, and how it can fail *)

Section CleanupMore.

Implicit Types (self : LoggerManager) (w : World).

Lemma glob_log_nil (fs0 : Fs.t) d :
  Fs.is_dir fs0 d = false ∨ Forall (fun e => is_log_of d (fst e) = false) fs0 →
  Fs.glob_log fs0 d = [].
Proof.
  intros [Hd|Hall]; [unfold Fs.glob_log; now rewrite Hd|].
  destruct (Fs.is_dir fs0 d) eqn:Hd; [|unfold Fs.glob_log; now rewrite Hd].
  rewrite (glob_log_filter _ _ Hd).
  clear Hd. induction Hall as [|e fs1 He _ IH]; [reflexivity|].
  rewrite fmap_cons. cbn [List.filter]. now rewrite He.
Qed.

(** X9: when the log folder does not exist (as for a manager made with
    saving disabled whose folder was never created) or holds no [*.log]
    entry, the cleanup reads the clock, returns, and leaves the disk, the
    manager and the loggers as they were. *)
Theorem cleanup_old_logs_nothing_to_do
    (days_to_keep : Z) (self : LoggerManager) (w : World) (threshold_date : Datetime.t) :
  Fs.is_dir (fs w) (logfolder self) = false ∨
  Forall (fun e => is_log_of (logfolder self) (fst e) = false) (fs w) →
  Datetime.sub_days (clock w (reads w)) days_to_keep = Return threshold_date →
  cleanup_old_logs days_to_keep self w = (Return tt, self, tick w).
Proof.
  intros Hempty Hthr. rewrite cleanup_old_logs_eq, Hthr, (glob_log_nil _ _ Hempty).
  reflexivity.
Qed.

Lemma sub_days_raises now days :
  999999999 < Z.abs days ∨ Datetime.toordinal now - days ≤ 0
  ∨ Datetime.MAXORDINAL < Datetime.toordinal now - days →
  ∃ e, Datetime.sub_days now days = Raise e ∧ Exn.cls e = Exn.OverflowError.
Proof.
  intros H. unfold Datetime.sub_days.
  destruct (999999999 <? Z.abs days) eqn:Hbig; [eexists; split; reflexivity|].
  apply Z.ltb_ge in Hbig.
  destruct ((0 <? _) && _) eqn:Hin; [|eexists; split; reflexivity].
  apply andb_true_iff in Hin as [H1 H2]. apply Z.ltb_lt in H1. apply Z.leb_le in H2.
  lia.
Qed.

(** X10: a retention the calendar cannot carry makes the cleanup fail
    before it looks at the folder: when [days_to_keep] exceeds the range of
    [timedelta], or the threshold would fall before year 1 or after year
    9999, the call raises [OverflowError] and removes nothing. *)
Theorem cleanup_old_logs_overflow (days_to_keep : Z) (self : LoggerManager) (w : World) :
  999999999 < Z.abs days_to_keep
  ∨ Datetime.toordinal (clock w (reads w)) - days_to_keep ≤ 0
  ∨ Datetime.MAXORDINAL < Datetime.toordinal (clock w (reads w)) - days_to_keep →
  ∃ e, cleanup_old_logs days_to_keep self w = (Raise e, self, tick w) ∧
       Exn.cls e = Exn.OverflowError.
Proof.
  intros H. destruct (sub_days_raises _ _ H) as (e & He & Hcls).
  exists e. rewrite cleanup_old_logs_eq, He. auto.
Qed.

(** An exception of the loop comes from [strptime] on the name of a
    file the glob produced, or from [os.remove] on such a file whose stamp
    is before the threshold. *)
Lemma cleanup_loop_exceptions thr files w e :
  fst (cleanup_loop thr files w) = Raise e →
  ∃ p, p ∈ files ∧
    ((stamp (Path.name p) = Raise e ∧ Exn.cls e = Exn.ValueError) ∨
     (expired thr (Path.name p) = true ∧
      ∃ fs1, fst (Fs.remove fs1 p) = Raise e ∧
             Exn.issubclass (Exn.cls e) Exn.OSError = true)).
Proof.
  revert w. induction files as [|p files IH]; intros w; [discriminate|].
  destruct (stamp (Path.name p)) as [d|e'] eqn:Hd.
  - rewrite (cleanup_loop_step _ _ _ _ _ Hd).
    destruct (Datetime.lt d thr) eqn:Hlt.
    + destruct (Fs.remove (fs w) p) as [[[]|e'] fs'] eqn:Hrm.
      * intros H. destruct (IH _ H) as (q & Hq & Hcase).
        exists q. split; [now right|exact Hcase].
      * cbn. intros [= <-]. exists p. split; [left|]. right.
        split; [unfold expired; now rewrite Hd|].
        exists (fs w). rewrite Hrm. split; [reflexivity|].
        unfold Fs.remove in Hrm.
        destruct (Fs.lookup (fs w) p) as [[]|]; try discriminate;
          now injection Hrm as <- _.
    + intros H. destruct (IH _ H) as (q & Hq & Hcase).
      exists q. split; [now right|exact Hcase].
  - rewrite (cleanup_loop_raise _ _ _ _ _ Hd). cbn. intros [= <-].
    exists p. split; [left|]. left. split; [exact Hd|].
    exact (strptime_raises _ _ Hd).
Qed.


End CleanupMore.

(** A manager without saving, on a disk without its folder. *)
Lemma cleanup_old_logs_nothing_to_do_witness :
  cleanup_old_logs default_days_to_keep (LogSamples.manager false)
    (LogSamples.world_at LogSamples.noon []) =
  (Return tt, LogSamples.manager false, tick (LogSamples.world_at LogSamples.noon [])).
Proof.
  exact (cleanup_old_logs_nothing_to_do default_days_to_keep (LogSamples.manager false)
           (LogSamples.world_at LogSamples.noon [])
           (Datetime.Build 2024 3 7 12 0 0 250000) (or_introl eq_refl) eq_refl).
Defined.

(** A million days before 10 March 2024 is before year 1. *)
Lemma cleanup_old_logs_overflow_witness :
  ∃ e, cleanup_old_logs 1000000 (LogSamples.manager true)
         (LogSamples.world_at LogSamples.noon LogSamples.tidy) =
       (Raise e, LogSamples.manager true,
        tick (LogSamples.world_at LogSamples.noon LogSamples.tidy)) ∧
       Exn.cls e = Exn.OverflowError.
Proof.
  apply (cleanup_old_logs_overflow 1000000 (LogSamples.manager true)
           (LogSamples.world_at LogSamples.noon LogSamples.tidy)).
  right. left. vm_compute. discriminate.
Defined.


(** ** Setting up more than once, and setting up without the folder *)

Section SetupMore.

Implicit Types (self : LoggerManager) (w : World).

(** The logger table after [getLogger], [setLevel] and the attachment of
    handlers [hs]. *)
Lemma lookup_alter_same {A} (f : A → A) (m : gmap string A) k :
  alter f k m !! k = f <$> m !! k.
Proof. rewrite lookup_alter. now rewrite decide_True. Qed.

Lemma getLogger_handlers name w :
  ∃ w1 l, getLogger name w = (Return name, w1) ∧ fs w1 = fs w ∧ clock w1 = clock w
          ∧ reads w1 = reads w ∧ emitted w1 = emitted w
          ∧ loggers w1 !! name = Some l
          ∧ Logging.handlers l = handlers_of w name
          ∧ (∀ other, other ≠ name → loggers w1 !! other = loggers w !! other).
Proof.
  unfold getLogger, handlers_of. destruct (loggers w !! name) as [l|] eqn:Hl.
  - exists w, l. rewrite Hl. repeat split; auto.
  - eexists _, _. repeat split.
    + cbn. apply lookup_insert_eq.
    + reflexivity.
    + intros other Hne. cbn. now apply lookup_insert_ne.
Qed.

Lemma lookup_alter_other {A} (f : A → A) (m : gmap string A) k k' :
  k ≠ k' → alter f k m !! k' = m !! k'.
Proof. intros Hne. rewrite lookup_alter. now rewrite decide_False. Qed.

(** A [debug] record on the logger of the tool, whose level is [DEBUG]
    and whose only ancestor is the root. *)
Lemma logger_debug_top msg w l :
  loggers w !! "4chan_requester" = Some l →
  Logging.level l = Logging.DEBUG →
  logger_debug "4chan_requester" msg w =
    (Return tt,
     {| fs := fs w; clock := clock w; reads := reads w; loggers := loggers w;
        emitted :=
          emitted w ++ debug_records (Logging.handlers l ++ handlers_of w "root") msg |}).
Proof.
  intros Hl Hlvl. unfold logger_debug. rewrite Hl.
  unfold Logging.getEffectiveLevel. cbn [Logging.first_level]. rewrite Hlvl.
  change (Logging.DEBUG =? Logging.NOTSET) with false. cbn iota.
  change (Logging.DEBUG <=? Logging.DEBUG) with true. cbn iota.
  change (Logging.ancestors (loggers w) "4chan_requester")
    with [default Logging.initial_root (loggers w !! "root")].
  cbn [List.flat_map]. rewrite app_nil_r. unfold debug_records, handlers_of.
  now destruct (loggers w !! "root").
Qed.

(** One call without saving. *)
Lemma setup_logging_no_save lvl self w :
  save_log self = false →
  ∃ w',
    setup_logging lvl self w =
      (Return tt,
       {| save_log := save_log self; logfolder := logfolder self;
          logger := Some "4chan_requester" |}, w') ∧
    fs w' = fs w ∧ clock w' = clock w ∧ reads w' = reads w ∧
    (∃ l, loggers w' !! "4chan_requester" = Some l ∧
          Logging.level l = Logging.DEBUG ∧
          Logging.handlers l = handlers_of w "4chan_requester" ++ [stream_handler lvl]) ∧
    emitted w' =
      emitted w ++
      debug_records
        ((handlers_of w "4chan_requester" ++ [stream_handler lvl])
         ++ handlers_of w "root")
        "Logger Initialized".
Proof.
  intros Hsave. unfold setup_logging.
  destruct (getLogger_handlers "4chan_requester" w)
    as (w1 & l & Hg & Hfs1 & Hc1 & Hr1 & He1 & Hl1 & Hh1 & Hoth).
  unfold mbind at 1, Meth_bind at 1, in_world at 1. rewrite Hg.
  unfold mbind at 1, Meth_bind at 1, set_logger at 1.
  set (self1 := {| save_log := save_log self; logfolder := logfolder self;
                   logger := Some "4chan_requester" |}).
  unfold mbind at 1, Meth_bind at 1.
  rewrite (on_logger_eq _ self1 _ "4chan_requester" eq_refl).
  cbn [fst snd logger_setLevel].
  unfold mbind at 1, Meth_bind at 1.
  rewrite (on_logger_eq _ self1 _ "4chan_requester" eq_refl).
  cbn [fst snd logger_addHandler].
  unfold mbind at 1, Meth_bind at 1, get_self at 1.
  change (save_log self1) with (save_log self). rewrite Hsave.
  unfold mbind at 1, Meth_bind at 1. cbn [mret Meth_ret].
  rewrite (on_logger_eq _ self1 _ "4chan_requester" eq_refl).
  erewrite logger_debug_top;
    [| cbn [loggers set_loggers]; rewrite !lookup_alter_same, Hl1; reflexivity
     | reflexivity].
  eexists. split; [reflexivity|]. cbn [fs clock reads emitted loggers set_loggers fst snd].
  repeat split; try assumption.
  - eexists. rewrite !lookup_alter_same, Hl1. cbn. split; [reflexivity|].
    split; [reflexivity|]. now rewrite Hh1.
  - cbn [Logging.handlers]. rewrite He1, Hh1. do 3 f_equal.
    unfold handlers_of. cbn [loggers set_loggers].
    rewrite !lookup_alter_other by discriminate.
    now rewrite (Hoth "root") by discriminate.
Qed.


Lemma handlers_of_after lvl self w :
  save_log self = false →
  let x := setup_logging lvl self w in
  save_log (object_after x) = false ∧
  logger (object_after x) = Some "4chan_requester" ∧
  fs (world_after x) = fs w ∧
  handlers_of (world_after x) "4chan_requester" =
    handlers_of w "4chan_requester" ++ [stream_handler lvl].
Proof.
  intros Hsave x. subst x.
  destruct (setup_logging_no_save lvl self w Hsave)
    as (w' & -> & Hfs & _ & _ & (l & Hl & _ & Hh) & _).
  cbn [object_after world_after fst snd save_log logger].
  repeat split; [assumption..|]. unfold handlers_of at 1. now rewrite Hl.
Qed.


End SetupMore.


(** ** Setting up with saving: handlers, the first record, a missing folder *)

Section SetupSaving.

Implicit Types (self : LoggerManager) (w : World).

Lemma debug_records_app hs1 hs2 msg :
  debug_records (hs1 ++ hs2) msg = debug_records hs1 msg ++ debug_records hs2 msg.
Proof. unfold debug_records. now rewrite List.filter_app, fmap_app. Qed.

(** All the effects of [_setup_save_logging]. *)
Lemma setup_save_logging_effects fmt self w lg :
  logger self = Some lg →
  Fs.is_dir (fs w) (logfolder self) = true →
  let info :=
    logfolder self ++ ["info_log" +:+ Datetime.strftime (clock w (reads w)) +:+ ".log"] in
  let debug :=
    logfolder self
      ++ ["debug_log" +:+ Datetime.strftime (clock w (S (reads w))) +:+ ".log"] in
  Fs.lookup (fs w) info ≠ Some Fs.Directory →
  Fs.lookup (fs w) debug ≠ Some Fs.Directory →
  ∃ w', _setup_save_logging fmt self w = (Return tt, self, w') ∧
        fs w' = touch (touch (fs w) info) debug ∧
        clock w' = clock w ∧ reads w' = S (S (reads w)) ∧ emitted w' = emitted w ∧
        loggers w' =
          alter (fun l => {| Logging.level := Logging.level l;
                             Logging.handlers :=
                               Logging.handlers l
                               ++ [Logging.setFormatter
                                     (Logging.setLevel
                                        {| Logging.target := Logging.FileSink debug;
                                           Logging.hlevel := Logging.NOTSET;
                                           Logging.formatter := None |}
                                        Logging.DEBUG) fmt] |}) lg
            (alter (fun l => {| Logging.level := Logging.level l;
                                Logging.handlers :=
                                  Logging.handlers l
                                  ++ [Logging.setFormatter
                                        (Logging.setLevel
                                           {| Logging.target := Logging.FileSink info;
                                              Logging.hlevel := Logging.NOTSET;
                                              Logging.formatter := None |}
                                           Logging.INFO) fmt] |}) lg
               (loggers w)).
Proof.
  intros Hl Hdir info debug Hinfo Hdebug.
  assert (Hne : info ≠ debug).
  { subst info debug. intros E. apply app_inv_head in E. discriminate. }
  unfold _setup_save_logging.
  unfold mbind at 1, Meth_bind at 1, get_self at 1.
  unfold mbind at 1, Meth_bind at 1, in_world at 1, _get_full_time at 1, mbind at 1,
    Prog_bind at 1, utcnow at 1. cbn [mret Prog_ret].
  rewrite (of_str_log_name "info_log") by (reflexivity || discriminate).
  rewrite join_single by (apply log_name_eqb_root; reflexivity || discriminate).
  fold info.
  unfold mbind at 1, Meth_bind at 1, in_world at 1.
  rewrite FileHandler_eq; cbn [fs];
    [| exact Hinfo
     | subst info; rewrite parent_child_path;
       [exact Hdir | apply log_name_eqb_root; reflexivity || discriminate]].
  unfold mbind at 1, Meth_bind at 1. rewrite (on_logger_eq _ _ _ lg Hl).
  cbn [fst snd logger_addHandler].
  unfold mbind at 1, Meth_bind at 1, in_world at 1, _get_full_time at 1, mbind at 1,
    Prog_bind at 1, utcnow at 1. cbn [mret Prog_ret set_loggers set_fs clock reads fs].
  rewrite (of_str_log_name "debug_log") by (reflexivity || discriminate).
  rewrite join_single by (apply log_name_eqb_root; reflexivity || discriminate).
  fold debug.
  unfold mbind at 1, Meth_bind at 1, in_world at 1.
  rewrite FileHandler_eq; cbn [fs];
    [| rewrite (lookup_touch_other _ _ _ Hne); exact Hdebug
     | subst debug; rewrite parent_child_path;
       [apply is_dir_touch; exact Hdir
       | apply log_name_eqb_root; reflexivity || discriminate]].
  rewrite (on_logger_eq _ _ _ lg Hl). cbn [fst snd logger_addHandler].
  eexists. split; [reflexivity|]. repeat split.
Qed.

(** X13: where the handlers and the first record go when saving is on.
    After a successful [setup_logging] the logger has, behind the handlers
    it had, the console handler at the level asked for, the handler of the
    info file at [INFO] and the handler of the debug file at [DEBUG].  The
    record [Logger Initialized], logged at [DEBUG], goes to the handlers the
    logger had that take [DEBUG], to the console only when its level is
    [DEBUG] or lower, to the debug file, never to the info file, and then,
    the code leaving propagation on, to the handlers of the root logger
    that take [DEBUG]. *)
Theorem setup_logging_handlers_and_first_record
    (stream_log_level : Z) (self : LoggerManager) (w : World) :
  save_log self = true →
  Fs.is_dir (fs w) (logfolder self) = true →
  let info :=
    logfolder self ++ ["info_log" +:+ Datetime.strftime (clock w (reads w)) +:+ ".log"] in
  let debug :=
    logfolder self
      ++ ["debug_log" +:+ Datetime.strftime (clock w (S (reads w))) +:+ ".log"] in
  Fs.lookup (fs w) info ≠ Some Fs.Directory →
  Fs.lookup (fs w) debug ≠ Some Fs.Directory →
  let x := setup_logging stream_log_level self w in
  handlers_of (world_after x) "4chan_requester" =
    handlers_of w "4chan_requester"
    ++ [stream_handler stream_log_level; file_handler info Logging.INFO;
        file_handler debug Logging.DEBUG] ∧
  handlers_of (world_after x) "root" = handlers_of w "root" ∧
  emitted (world_after x) =
    emitted w
    ++ debug_records (handlers_of w "4chan_requester") "Logger Initialized"
    ++ (if stream_log_level <=? Logging.DEBUG
        then [(stream_handler stream_log_level, "Logger Initialized")] else [])
    ++ [(file_handler debug Logging.DEBUG, "Logger Initialized")]
    ++ debug_records (handlers_of w "root") "Logger Initialized".
Proof.
  intros Hsave Hdir info debug Hinfo Hdebug x.
  set (hs := handlers_of w "4chan_requester"
             ++ [stream_handler stream_log_level; file_handler info Logging.INFO;
                 file_handler debug Logging.DEBUG]).
  assert (Hx : ∃ self' w'',
             x = (Return tt, self', w'') ∧
             handlers_of w'' "4chan_requester" = hs ∧
             handlers_of w'' "root" = handlers_of w "root" ∧
             emitted w'' =
               emitted w
               ++ debug_records (hs ++ handlers_of w "root") "Logger Initialized").
  { subst x. unfold setup_logging.
    destruct (getLogger_handlers "4chan_requester" w)
      as (w1 & l & Hg & Hfs1 & Hc1 & Hr1 & He1 & Hl1 & Hh1 & Hoth).
    unfold mbind at 1, Meth_bind at 1, in_world at 1. rewrite Hg.
    unfold mbind at 1, Meth_bind at 1, set_logger at 1.
    set (self1 := {| save_log := save_log self; logfolder := logfolder self;
                     logger := Some "4chan_requester" |}).
    unfold mbind at 1, Meth_bind at 1.
    rewrite (on_logger_eq _ self1 _ "4chan_requester" eq_refl).
    cbn [fst snd logger_setLevel].
    unfold mbind at 1, Meth_bind at 1.
    rewrite (on_logger_eq _ self1 _ "4chan_requester" eq_refl).
    cbn [fst snd logger_addHandler].
    unfold mbind at 1, Meth_bind at 1, get_self at 1.
    change (save_log self1) with (save_log self). rewrite Hsave.
    unfold mbind at 1, Meth_bind at 1.
    match goal with
    | |- context [_setup_save_logging ?fmt self1 ?w3] =>
        destruct (setup_save_logging_effects fmt self1 w3 "4chan_requester" eq_refl)
          as (w' & Heq & _ & _ & _ & Hem & Hlog)
    end.
    - cbn [fs set_loggers]. now rewrite Hfs1.
    - cbn [fs set_loggers clock reads logfolder self1]. rewrite Hfs1, Hc1, Hr1.
      exact Hinfo.
    - cbn [fs set_loggers clock reads logfolder self1]. rewrite Hfs1, Hc1, Hr1.
      exact Hdebug.
    - rewrite Heq. rewrite (on_logger_eq _ self1 _ "4chan_requester" eq_refl).
      cbn [fs set_loggers clock reads logfolder self1 loggers emitted] in Hlog, Hem.
      rewrite Hc1, Hr1 in Hlog. fold info debug in Hlog.
      assert (Hl' : loggers w' !! "4chan_requester" =
                      Some {| Logging.level := Logging.DEBUG; Logging.handlers := hs |}).
      { rewrite Hlog, !lookup_alter_same, Hl1. cbn. rewrite Hh1. subst hs.
        now rewrite <- !app_assoc. }
      assert (Hroot : handlers_of w' "root" = handlers_of w "root").
      { unfold handlers_of. rewrite Hlog, !lookup_alter_other by discriminate.
        now rewrite (Hoth "root") by discriminate. }
      rewrite (logger_debug_top _ w' _ Hl' eq_refl).
      eexists _, _. split; [reflexivity|]. cbn [snd emitted loggers Logging.handlers].
      split; [|split].
      + unfold handlers_of at 1. cbn [loggers]. now rewrite Hl'.
      + exact Hroot.
      + now rewrite Hem, He1, Hroot. }
  destruct Hx as (self' & w'' & -> & Hh & Hr & He). cbn [world_after snd].
  split; [exact Hh|]. split; [exact Hr|]. rewrite He. f_equal. subst hs.
  rewrite !debug_records_app, <- !app_assoc. f_equal.
  unfold debug_records at 1.
  cbn [List.filter Logging.hlevel stream_handler file_handler
         Logging.setFormatter Logging.setLevel StreamHandler].
  change (Logging.INFO <=? Logging.DEBUG) with false.
  change (Logging.DEBUG <=? Logging.DEBUG) with true.
  destruct (stream_log_level <=? Logging.DEBUG); reflexivity.
Qed.

Lemma wf_no_child (fs0 : Fs.t) (d : Path.t) name :
  Fs.wf fs0 → Fs.is_dir fs0 d = false → String.eqb name "/" = false →
  Fs.lookup fs0 (d ++ [name]) = None.
Proof.
  intros [_ Hpar] Hd Hn. destruct (Fs.lookup fs0 (d ++ [name])) as [k|] eqn:Hl;
    [|reflexivity].
  apply lookup_Some, Hpar in Hl. rewrite (parent_child_path _ _ Hn) in Hl. congruence.
Qed.

(** X14: setting up with saving on while the log folder is not there
    (and no regular file stands at its path or at an ancestor).
    The info file cannot be opened: the call ends with
    [FileNotFoundError].  By then the manager holds the logger and the
    console handler is attached, so [get_logger] works afterwards and
    records reach the console only; no file has been created and the first
    record has not been logged. *)
Theorem setup_logging_without_folder
    (stream_log_level : Z) (self : LoggerManager) (w : World) :
  save_log self = true →
  Fs.wf (fs w) →
  Fs.is_dir (fs w) (logfolder self) = false →
  (∀ k, Fs.lookup (fs w) (take k (logfolder self)) ≠ Some Fs.RegularFile) →
  ∃ e self' w',
    setup_logging stream_log_level self w = (Raise e, self', w') ∧
    Exn.cls e = Exn.FileNotFoundError ∧
    logger self' = Some "4chan_requester" ∧
    outcome (get_logger self' w') = Return "4chan_requester" ∧
    fs w' = fs w ∧
    handlers_of w' "4chan_requester" =
      handlers_of w "4chan_requester" ++ [stream_handler stream_log_level] ∧
    emitted w' = emitted w.
Proof.
  intros Hsave Hwf Hdir _. unfold setup_logging.
  destruct (getLogger_handlers "4chan_requester" w)
    as (w1 & l & Hg & Hfs1 & Hc1 & Hr1 & He1 & Hl1 & Hh1 & _).
  unfold mbind at 1, Meth_bind at 1, in_world at 1. rewrite Hg.
  unfold mbind at 1, Meth_bind at 1, set_logger at 1.
  set (self1 := {| save_log := save_log self; logfolder := logfolder self;
                   logger := Some "4chan_requester" |}).
  unfold mbind at 1, Meth_bind at 1.
  rewrite (on_logger_eq _ self1 _ "4chan_requester" eq_refl).
  cbn [fst snd logger_setLevel].
  unfold mbind at 1, Meth_bind at 1.
  rewrite (on_logger_eq _ self1 _ "4chan_requester" eq_refl).
  cbn [fst snd logger_addHandler].
  unfold mbind at 1, Meth_bind at 1, get_self at 1.
  change (save_log self1) with (save_log self). rewrite Hsave.
  unfold mbind at 1, Meth_bind at 1.
  unfold _setup_save_logging.
  unfold mbind at 1, Meth_bind at 1, get_self at 1.
  unfold mbind at 1, Meth_bind at 1, in_world at 1, _get_full_time at 1, mbind at 1,
    Prog_bind at 1, utcnow at 1. cbn [mret Prog_ret].
  rewrite (of_str_log_name "info_log") by (reflexivity || discriminate).
  rewrite join_single by (apply log_name_eqb_root; reflexivity || discriminate).
  unfold mbind at 1, Meth_bind at 1, in_world at 1.
  unfold FileHandler, mbind at 1, Prog_bind at 1, with_fs, Fs.open_append.
  cbn [fs set_loggers logfolder self1].
  rewrite Hfs1, wf_no_child;
    [| exact Hwf | exact Hdir | apply log_name_eqb_root; reflexivity || discriminate].
  rewrite parent_child_path
    by (apply log_name_eqb_root; reflexivity || discriminate).
  rewrite Hdir.
  eexists _, _, _. split; [reflexivity|].
  split; [reflexivity|]. split; [reflexivity|].
  split; [now rewrite get_logger_eq|].
  split; [reflexivity|]. split.
  - unfold handlers_of at 1. cbn [loggers set_fs set_loggers].
    rewrite !lookup_alter_same, Hl1. cbn. now rewrite Hh1.
  - cbn [emitted set_fs set_loggers]. exact He1.
Qed.

End SetupSaving.

(** Setting up with the console at [INFO] in the sample folder, the root
    logger having a handler of its own: the first record reaches the debug
    file and the handler of the root. *)
Lemma setup_logging_handlers_and_first_record_witness :
  emitted (world_after
             (setup_logging default_stream_log_level (LogSamples.manager true)
                RootSamples.world)) =
  [(file_handler (LogSamples.folder ++ ["debug_log2024_01_02_03_04_05.log"])
      Logging.DEBUG, "Logger Initialized");
   (RootSamples.root_stream, "Logger Initialized")].
Proof.
  refine (proj2 (proj2 (setup_logging_handlers_and_first_record
                          default_stream_log_level (LogSamples.manager true)
                          RootSamples.world eq_refl eq_refl _ _))).
  - vm_compute. discriminate.
  - vm_compute. discriminate.
Defined.

(** Setting up with saving on an empty disk. *)
Lemma setup_logging_without_folder_witness :
  ∃ e self' w',
    setup_logging default_stream_log_level (LogSamples.manager true)
      (LogSamples.world_at LogSamples.night []) = (Raise e, self', w') ∧
    Exn.cls e = Exn.FileNotFoundError ∧
    logger self' = Some "4chan_requester".
Proof.
  destruct (setup_logging_without_folder default_stream_log_level
              (LogSamples.manager true) (LogSamples.world_at LogSamples.night [])
              eq_refl (wf_check_sound [] eq_refl) eq_refl
              ltac:(intros k; discriminate))
    as (e & self' & w' & Heq & Hcls & Hlog & _).
  exists e, self', w'. auto.
Defined.

(** ** The constructor: making the folder, twice, and a file in the way *)

Section ConstructionMore.



Lemma is_dir_app (fs0 new : Fs.t) (p : Path.t) :
  Fs.is_dir fs0 p = true → Fs.is_dir (fs0 ++ new) p = true.
Proof.
  revert fs0. induction new as [|[q k] new IH]; intros fs0 H; [now rewrite app_nil_r|].
  change (fs0 ++ (q, k) :: new) with (fs0 ++ [(q, k)] ++ new). rewrite app_assoc.
  apply IH. now apply is_dir_app_new.
Qed.

(** What a successful [mkdir] did: it appended directories only, and
    every prefix of the path is a directory afterwards. *)
Lemma mkdir_from_spec todo : ∀ fs0 fs' (done : Path.t),
  Fs.mkdir_from fs0 done todo = (Return tt, fs') →
  Fs.is_dir fs0 done = true →
  (∃ new, fs' = fs0 ++ new ∧ Forall (fun e => snd e = Fs.Directory) new) ∧
  ∀ k, (k ≤ length todo)%nat → Fs.is_dir fs' (done ++ take k todo) = true.
Proof.
  induction todo as [|part todo IH]; intros fs0 fs' done Hmk Hdone.
  - cbn in Hmk. injection Hmk as <-. split.
    + exists []. now rewrite app_nil_r.
    + intros k _. rewrite take_nil. now rewrite app_nil_r.
  - cbn [Fs.mkdir_from] in Hmk.
    destruct (Fs.is_dir fs0 (done ++ [part])) eqn:Hd.
    + destruct (IH _ _ _ Hmk Hd) as [(new & -> & Hnew) Hall]. split; [eauto|].
      intros [|k] Hk.
      * cbn. rewrite app_nil_r. now apply is_dir_app.
      * cbn [take]. cbn in Hk.
        replace (done ++ part :: take k todo) with ((done ++ [part]) ++ take k todo)
          by now rewrite <- app_assoc.
        apply Hall. lia.
    + destruct (Fs.lookup fs0 (done ++ [part])) eqn:Hl.
      * destruct todo; discriminate.
      * assert (Hd' : Fs.is_dir (fs0 ++ [(done ++ [part], Fs.Directory)]) (done ++ [part])
                      = true).
        { unfold Fs.is_dir. destruct (done ++ [part]) eqn:E; [reflexivity|].
          rewrite <- E in Hl |- *.
          rewrite lookup_app_new, Hl, (proj2 (path_eqb_true _ _) eq_refl).
          apply orb_true_r. }
        destruct (IH _ _ _ Hmk Hd') as [(new & -> & Hnew) Hall]. split.
        -- exists ((done ++ [part], Fs.Directory) :: new). rewrite <- app_assoc.
           split; [reflexivity|]. now constructor.
        -- intros [|k] Hk.
           ++ cbn. rewrite app_nil_r. rewrite <- app_assoc. now apply is_dir_app.
           ++ cbn [take]. cbn in Hk.
              replace (done ++ part :: take k todo)
                with ((done ++ [part]) ++ take k todo) by now rewrite <- app_assoc.
              apply Hall. lia.
Qed.

(** When every prefix is a directory, [mkdir] has nothing to do. *)
Lemma mkdir_from_noop todo : ∀ fs0 (done : Path.t),
  (∀ k, (0 < k ≤ length todo)%nat → Fs.is_dir fs0 (done ++ take k todo) = true) →
  Fs.mkdir_from fs0 done todo = (Return tt, fs0).
Proof.
  induction todo as [|part todo IH]; intros fs0 done Hall; [reflexivity|].
  cbn [Fs.mkdir_from].
  assert (H1 : Fs.is_dir fs0 (done ++ [part]) = true).
  { apply (Hall 1%nat). cbn. lia. }
  rewrite H1.
  apply IH. intros k Hk.
  replace ((done ++ [part]) ++ take k todo) with (done ++ take (S k) (part :: todo))
    by (cbn; now rewrite <- app_assoc).
  apply Hall. cbn. lia.
Qed.

Lemma LoggerManager_init_eq base sub save w :
  LoggerManager_init base sub save w =
    if save
    then match Fs.mkdir_parents (fs w) (Path.joinpath base sub) with
         | (Return _, fs') =>
             (Return {| save_log := true; logfolder := Path.joinpath base sub;
                        logger := None |}, set_fs w fs')
         | (Raise e, fs') => (Raise e, set_fs w fs')
         end
    else (Return {| save_log := false; logfolder := Path.joinpath base sub;
                    logger := None |}, w).
Proof.
  unfold LoggerManager_init, mbind, Prog_bind, with_fs. destruct save; [|reflexivity].
  destruct (Fs.mkdir_parents _ _) as [[[]|e] fs']; reflexivity.
Qed.

(** X15: constructing with saving on makes the whole chain of folders and
    nothing else: the disk afterwards is the earlier one followed by new
    directories, every prefix of the log folder path is a directory, and a
    second construction with the same arguments returns an equal manager
    and leaves that disk as it is. *)
Theorem LoggerManager_init_makes_folders
    (base_save_path logfolderpath : Path.t) (w w' : World) (mgr : LoggerManager) :
  LoggerManager_init base_save_path logfolderpath true w = (Return mgr, w') →
  (∃ new, fs w' = fs w ++ new ∧ Forall (fun e => snd e = Fs.Directory) new) ∧
  (∀ k, (k ≤ length (logfolder mgr))%nat →
        Fs.is_dir (fs w') (take k (logfolder mgr)) = true) ∧
  LoggerManager_init base_save_path logfolderpath true w' = (Return mgr, w').
Proof.
  rewrite LoggerManager_init_eq.
  destruct (Fs.mkdir_parents (fs w) _) as [[[]|e] fs'] eqn:Hmk; [|discriminate].
  intros [= <- <-]. cbn [logfolder fs set_fs].
  destruct (mkdir_from_spec _ _ _ [] Hmk eq_refl) as [Hnew Hall].
  split; [exact Hnew|]. split; [exact Hall|].
  rewrite LoggerManager_init_eq. cbn [fs set_fs]. unfold Fs.mkdir_parents.
  rewrite mkdir_from_noop by (intros k Hk; apply Hall; lia).
  now destruct w.
Qed.

(** A prefix of the path that is a regular file stops [mkdir]. *)
Lemma mkdir_from_blocked pre : ∀ (fs0 : Fs.t) (done : Path.t) name rest,
  (∀ k, (0 < k ≤ length pre)%nat → Fs.is_dir fs0 (done ++ take k pre) = true) →
  Fs.lookup fs0 (done ++ pre ++ [name]) = Some Fs.RegularFile →
  done ++ pre ++ [name] ≠ ["/"] →
  Fs.mkdir_from fs0 done (pre ++ name :: rest) =
    (match rest with
     | [] => raise Exn.FileExistsError "[Errno 17] File exists"
     | _ => raise Exn.NotADirectoryError "[Errno 20] Not a directory"
     end, fs0).
Proof.
  induction pre as [|part pre IH]; intros fs0 done name rest Hall Hfile Hroot.
  - cbn [app] in *. cbn [Fs.mkdir_from].
    assert (Hd : Fs.is_dir fs0 (done ++ [name]) = false).
    { unfold Fs.is_dir. destruct (done ++ [name]) eqn:E; [now destruct done|].
      rewrite Hfile. now rewrite bool_decide_eq_false_2. }
    now rewrite Hd, Hfile.
  - cbn [app Fs.mkdir_from].
    assert (H1 : Fs.is_dir fs0 (done ++ [part]) = true).
    { apply (Hall 1%nat). cbn. lia. }
    rewrite H1. apply IH.
    + intros k Hk.
      replace ((done ++ [part]) ++ take k pre) with (done ++ take (S k) (part :: pre))
        by (cbn; now rewrite <- app_assoc).
      apply Hall. cbn. lia.
    + rewrite <- app_assoc. exact Hfile.
    + rewrite <- app_assoc. exact Hroot.
Qed.

(** X16: a regular file in the way of the log folder.  When the first
    prefixes of the folder path are directories and the next one is a
    regular file, constructing with saving on raises and creates nothing:
    [FileExistsError] when the file is at the folder path itself (the
    [exist_ok] of the call covers directories only), [NotADirectoryError]
    when it is at an ancestor.  Constructing with saving off returns in
    the same world. *)
Theorem LoggerManager_init_file_in_the_way
    (base_save_path logfolderpath pre rest : Path.t) (name : string) (w : World) :
  Path.joinpath base_save_path logfolderpath = pre ++ name :: rest →
  (∀ k, (0 < k ≤ length pre)%nat → Fs.is_dir (fs w) (take k pre) = true) →
  Fs.lookup (fs w) (pre ++ [name]) = Some Fs.RegularFile →
  pre ++ [name] ≠ ["/"] →
  (∃ e, LoggerManager_init base_save_path logfolderpath true w = (Raise e, w) ∧
        Exn.cls e = match rest with
                    | [] => Exn.FileExistsError
                    | _ => Exn.NotADirectoryError
                    end) ∧
  ∃ mgr, LoggerManager_init base_save_path logfolderpath false w = (Return mgr, w).
Proof.
  intros Hpath Hall Hfile Hroot. split.
  - rewrite LoggerManager_init_eq, Hpath. unfold Fs.mkdir_parents.
    rewrite (mkdir_from_blocked pre (fs w) [] name rest Hall Hfile Hroot).
    unfold raise. destruct rest; (eexists; split; [now destruct w|reflexivity]).
  - rewrite LoggerManager_init_eq. eauto.
Qed.

End ConstructionMore.

(** Constructing over the folder chain made by a first construction. *)
Lemma LoggerManager_init_makes_folders_witness :
  LoggerManager_init LogSamples.base ["logs"] true
    (LogSamples.world_at LogSamples.night LogSamples.dirs) =
  (Return (LogSamples.manager true),
   LogSamples.world_at LogSamples.night LogSamples.dirs).
Proof.
  exact (proj2 (proj2 (LoggerManager_init_makes_folders LogSamples.base ["logs"]
                         (LogSamples.world_at LogSamples.night [])
                         (LogSamples.world_at LogSamples.night LogSamples.dirs)
                         (LogSamples.manager true) eq_refl))).
Defined.

(** A file named [logs] where the folder should be. *)
Lemma LoggerManager_init_file_in_the_way_witness :
  ∃ e, LoggerManager_init LogSamples.base ["logs"] true
         (LogSamples.world_at LogSamples.night
            [(["/"; "srv"], Fs.Directory); (LogSamples.base, Fs.Directory);
             (LogSamples.folder, Fs.RegularFile)]) =
       (Raise e,
        LogSamples.world_at LogSamples.night
          [(["/"; "srv"], Fs.Directory); (LogSamples.base, Fs.Directory);
           (LogSamples.folder, Fs.RegularFile)]) ∧
       Exn.cls e = Exn.FileExistsError.
Proof.
  refine (proj1 (LoggerManager_init_file_in_the_way LogSamples.base ["logs"]
                   LogSamples.base [] "logs"
                   (LogSamples.world_at LogSamples.night
                      [(["/"; "srv"], Fs.Directory); (LogSamples.base, Fs.Directory);
                       (LogSamples.folder, Fs.RegularFile)])
                   eq_refl _ eq_refl _)).
  - intros [|[|[|[|k]]]] Hk; try reflexivity; cbn in Hk; lia.
  - discriminate.
Defined.

(** ** Setting up, then cleaning up *)

Section SetupThenCleanup.

Implicit Types (self : LoggerManager) (w : World).

(** A log name made of a prefix and the stamp of an instant. *)
Lemma log_name_read (prefix : string) (t : Datetime.t) :
  Datetime.valid t = true →
  Text.endswith (prefix +:+ Datetime.strftime t +:+ ".log") ".log" = true ∧
  stamp (prefix +:+ Datetime.strftime t +:+ ".log") = Return (Calendar.to_second t).
Proof.
  intros Hv. split.
  - rewrite <- string_app_assoc. apply endswith_log.
  - unfold stamp. rewrite (stamp_slice_any_prefix _ _ (strftime_length t)).
    now apply strptime_strftime.
Qed.

Lemma elem_of_touch (fs0 : Fs.t) q p k :
  (p, k) ∈ touch fs0 q → (p, k) ∈ fs0 ∨ (p = q ∧ k = Fs.RegularFile).
Proof.
  unfold touch, Fs.open_append.
  destruct (Fs.lookup fs0 q) as [[]|]; [auto..|].
  destruct (Fs.is_dir fs0 (Path.parent q)); [|auto]. cbn.
  rewrite elem_of_app, list_elem_of_singleton. intros [H|[= -> ->]]; auto.
Qed.

Lemma wf_touch (fs0 : Fs.t) q :
  Fs.wf fs0 → Fs.wf (touch fs0 q).
Proof.
  intros [Hnd Hpar]. split.
  - unfold touch, Fs.open_append.
    destruct (Fs.lookup fs0 q) as [[]|] eqn:Hl; [assumption..|].
    destruct (Fs.is_dir fs0 (Path.parent q)); [|assumption]. cbn.
    rewrite fmap_app. apply NoDup_app. split; [assumption|]. split.
    + intros x Hx. cbn. rewrite list_elem_of_singleton. intros ->.
      now apply lookup_None in Hl.
    + cbn. apply NoDup_singleton.
  - intros p k Hin. destruct (elem_of_touch _ _ _ _ Hin) as [Hold|[-> ->]].
    + apply is_dir_touch. eauto.
    + revert Hin. unfold touch, Fs.open_append.
      destruct (Fs.lookup fs0 q) as [[]|] eqn:Hl.
      * intros Hin. eauto.
      * intros Hin. eauto.
      * destruct (Fs.is_dir fs0 (Path.parent q)) eqn:Hd; cbn.
        -- intros _. now apply is_dir_app_new.
        -- intros Hin. eauto.
Qed.

(** A cleanup over a folder whose [*.log] entries all carry a stamp. *)
Lemma cleanup_old_logs_stamped days self w thr :
  Fs.wf (fs w) →
  Datetime.sub_days (clock w (reads w)) days = Return thr →
  (∀ p k name,
     (p, k) ∈ fs w → Fs.child_name (logfolder self) p = Some name →
     Text.endswith name ".log" = true →
     k = Fs.RegularFile ∧ ∃ d, stamp name = Return d) →
  cleanup_old_logs days self w =
    (Return tt, self, set_fs (tick w) (without_expired thr (logfolder self) (fs w))).
Proof.
  intros Hwf Hthr Hconf. rewrite cleanup_old_logs_eq, Hthr.
  rewrite <- (app_nil_r (Fs.glob_log (fs w) (logfolder self))).
  rewrite cleanup_loop_conforming.
  - change (fs (tick w)) with (fs w). rewrite (swept_glob _ _ _ Hwf). reflexivity.
  - apply glob_log_NoDup, Hwf.
  - apply Forall_forall. intros p Hp.
    apply glob_log_elem in Hp as (k & name & Hin & Hc & Hlog).
    rewrite (name_of_child _ _ _ Hc). exact (proj2 (Hconf p k name Hin Hc Hlog)).
  - apply Forall_forall. intros p Hp.
    apply glob_log_elem in Hp as (k & name & Hin & Hc & Hlog).
    intros _. cbn.
    rewrite (proj1 (Hconf p k name Hin Hc Hlog)) in Hin.
    apply lookup_elem_of; [apply Hwf | assumption].
Qed.

(** What [setup_logging] with saving does to the disk and the clock. *)
Lemma setup_logging_saving_run lvl self w :
  save_log self = true →
  Fs.is_dir (fs w) (logfolder self) = true →
  let info :=
    logfolder self ++ ["info_log" +:+ Datetime.strftime (clock w (reads w)) +:+ ".log"] in
  let debug :=
    logfolder self
      ++ ["debug_log" +:+ Datetime.strftime (clock w (S (reads w))) +:+ ".log"] in
  Fs.lookup (fs w) info ≠ Some Fs.Directory →
  Fs.lookup (fs w) debug ≠ Some Fs.Directory →
  ∃ w'',
    setup_logging lvl self w =
      (Return tt,
       {| save_log := save_log self; logfolder := logfolder self;
          logger := Some "4chan_requester" |}, w'') ∧
    fs w'' = touch (touch (fs w) info) debug ∧
    clock w'' = clock w ∧ reads w'' = S (S (reads w)).
Proof.
  intros Hsave Hdir info debug Hinfo Hdebug.
  unfold setup_logging.
  destruct (getLogger_handlers "4chan_requester" w)
    as (w1 & l & Hg & Hfs1 & Hc1 & Hr1 & He1 & Hl1 & Hh1 & _).
  unfold mbind at 1, Meth_bind at 1, in_world at 1. rewrite Hg.
  unfold mbind at 1, Meth_bind at 1, set_logger at 1.
  set (self1 := {| save_log := save_log self; logfolder := logfolder self;
                   logger := Some "4chan_requester" |}).
  unfold mbind at 1, Meth_bind at 1.
  rewrite (on_logger_eq _ self1 _ "4chan_requester" eq_refl).
  cbn [fst snd logger_setLevel].
  unfold mbind at 1, Meth_bind at 1.
  rewrite (on_logger_eq _ self1 _ "4chan_requester" eq_refl).
  cbn [fst snd logger_addHandler].
  unfold mbind at 1, Meth_bind at 1, get_self at 1.
  change (save_log self1) with (save_log self). rewrite Hsave.
  unfold mbind at 1, Meth_bind at 1.
  match goal with
  | |- context [_setup_save_logging ?fmt self1 ?w3] =>
      destruct (setup_save_logging_effects fmt self1 w3 "4chan_requester" eq_refl)
        as (w' & Heq & Hfs & Hck & Hrd & _ & _)
  end.
  - cbn [fs set_loggers]. now rewrite Hfs1.
  - cbn [fs set_loggers clock reads logfolder self1]. rewrite Hfs1, Hc1, Hr1.
    exact Hinfo.
  - cbn [fs set_loggers clock reads logfolder self1]. rewrite Hfs1, Hc1, Hr1.
    exact Hdebug.
  - rewrite Heq. rewrite (on_logger_eq _ self1 _ "4chan_requester" eq_refl).
    cbn [fs set_loggers clock reads logfolder self1] in Hfs, Hck, Hrd.
    rewrite Hfs1, Hc1, Hr1 in Hfs. rewrite Hc1 in Hck. rewrite Hr1 in Hrd.
    fold info debug in Hfs.
    unfold logger_debug.
    destruct (loggers w' !! "4chan_requester") as [l'|];
      [destruct (Logging.getEffectiveLevel _ _ l' <=? Logging.DEBUG)|];
      (eexists; split; [reflexivity|]); cbn [snd fs clock reads]; auto.
Qed.

(** X17: the life of the two log files.  With saving on, over a
    well-formed disk whose log folder exists and holds, as [*.log]
    entries, only regular files with a readable stamp, [setup_logging]
    followed by [cleanup_old_logs] returns both times; the disk left is the
    one after the setup without the expired logs; and each of the two files
    just created is removed by that cleanup exactly when the instant in its
    name, to the second, is before the threshold taken from the third
    reading of the clock. *)
Theorem setup_logging_then_cleanup_old_logs
    (stream_log_level days_to_keep : Z) (self : LoggerManager) (w : World)
    (threshold_date : Datetime.t) :
  let t1 := clock w (reads w) in
  let t2 := clock w (S (reads w)) in
  let info := logfolder self ++ ["info_log" +:+ Datetime.strftime t1 +:+ ".log"] in
  let debug := logfolder self ++ ["debug_log" +:+ Datetime.strftime t2 +:+ ".log"] in
  save_log self = true →
  Fs.wf (fs w) →
  Fs.is_dir (fs w) (logfolder self) = true →
  Datetime.valid t1 = true → Datetime.valid t2 = true →
  (∀ p k name,
     (p, k) ∈ fs w → Fs.child_name (logfolder self) p = Some name →
     Text.endswith name ".log" = true →
     k = Fs.RegularFile ∧ ∃ d, stamp name = Return d) →
  Datetime.sub_days (clock w (S (S (reads w)))) days_to_keep = Return threshold_date →
  let x := setup_logging stream_log_level self w in
  let y := cleanup_old_logs days_to_keep (object_after x) (world_after x) in
  outcome x = Return tt ∧ outcome y = Return tt ∧
  fs (world_after y) =
    without_expired threshold_date (logfolder self)
      (touch (touch (fs w) info) debug) ∧
  Fs.lookup (fs (world_after y)) info =
    (if Datetime.lt (Calendar.to_second t1) threshold_date
     then None else Some Fs.RegularFile) ∧
  Fs.lookup (fs (world_after y)) debug =
    (if Datetime.lt (Calendar.to_second t2) threshold_date
     then None else Some Fs.RegularFile).
Proof.
  intros t1 t2 info debug Hsave Hwf Hdir Hv1 Hv2 Hconf Hthr x y.
  destruct (log_name_read "info_log" t1 Hv1) as [Hend1 Hst1].
  destruct (log_name_read "debug_log" t2 Hv2) as [Hend2 Hst2].
  assert (Hinfo : Fs.lookup (fs w) info ≠ Some Fs.Directory).
  { intros Hl. apply lookup_Some in Hl.
    destruct (Hconf _ _ _ Hl (child_name_log _ _ Hend1) Hend1) as [? _]. discriminate. }
  assert (Hdebug : Fs.lookup (fs w) debug ≠ Some Fs.Directory).
  { intros Hl. apply lookup_Some in Hl.
    destruct (Hconf _ _ _ Hl (child_name_log _ _ Hend2) Hend2) as [? _]. discriminate. }
  assert (Hne : info ≠ debug).
  { subst info debug. intros E. apply app_inv_head in E. discriminate. }
  destruct (setup_logging_saving_run stream_log_level self w Hsave Hdir Hinfo Hdebug)
    as (w'' & Hx & Hfs & Hck & Hrd).
  fold t1 t2 in Hfs. fold info debug in Hfs.
  set (fs1 := touch (touch (fs w) info) debug) in *.
  assert (Hwf1 : Fs.wf fs1) by (subst fs1; now apply wf_touch, wf_touch).
  assert (Hconf1 : ∀ p k name,
             (p, k) ∈ fs1 → Fs.child_name (logfolder self) p = Some name →
             Text.endswith name ".log" = true →
             k = Fs.RegularFile ∧ ∃ d, stamp name = Return d).
  { intros p k name Hin Hc Hlog. subst fs1.
    apply elem_of_touch in Hin as [Hin|[-> ->]].
    - apply elem_of_touch in Hin as [Hin|[-> ->]]; [eauto|].
      split; [reflexivity|]. subst info.
      rewrite (child_name_log _ _ Hend1) in Hc. injection Hc as <-. eauto.
    - split; [reflexivity|]. subst debug.
      rewrite (child_name_log _ _ Hend2) in Hc. injection Hc as <-. eauto. }
  assert (Hy : y = (Return tt, object_after x,
                    set_fs (tick w'') (without_expired threshold_date (logfolder self) fs1))).
  { subst y x. rewrite Hx. cbn [object_after world_after fst snd].
    rewrite <- Hfs.
    apply (cleanup_old_logs_stamped days_to_keep
             {| save_log := save_log self; logfolder := logfolder self;
                logger := Some "4chan_requester" |} w'' threshold_date).
    - now rewrite Hfs.
    - now rewrite Hck, Hrd.
    - cbn [logfolder]. rewrite Hfs. exact Hconf1. }
  assert (Hl1 : Fs.lookup fs1 info = Some Fs.RegularFile).
  { subst fs1. apply lookup_touch_keeps. apply open_append_touch; [exact Hinfo|].
    subst info. erewrite parent_of_child by (apply child_name_log; exact Hend1).
    exact Hdir. }
  assert (Hl2 : Fs.lookup fs1 debug = Some Fs.RegularFile).
  { subst fs1. apply open_append_touch.
    - rewrite (lookup_touch_other _ _ _ Hne). exact Hdebug.
    - subst debug. erewrite parent_of_child by (apply child_name_log; exact Hend2).
      apply is_dir_touch, Hdir. }
  assert (Hlook : ∀ prefix t,
             Text.endswith (prefix +:+ Datetime.strftime t +:+ ".log") ".log" = true →
             stamp (prefix +:+ Datetime.strftime t +:+ ".log")
               = Return (Calendar.to_second t) →
             Fs.lookup fs1 (logfolder self ++ [prefix +:+ Datetime.strftime t +:+ ".log"])
               = Some Fs.RegularFile →
             Fs.lookup (without_expired threshold_date (logfolder self) fs1)
               (logfolder self ++ [prefix +:+ Datetime.strftime t +:+ ".log"]) =
             if Datetime.lt (Calendar.to_second t) threshold_date
             then None else Some Fs.RegularFile).
  { intros prefix t Hend Hst Hl.
    assert (Hd : doomed threshold_date (logfolder self)
                   (logfolder self ++ [prefix +:+ Datetime.strftime t +:+ ".log"]) =
                 Datetime.lt (Calendar.to_second t) threshold_date).
    { unfold doomed, expired. now rewrite (child_name_log _ _ Hend), Hend, Hst. }
    unfold without_expired.
    destruct (Datetime.lt (Calendar.to_second t) threshold_date).
    - now apply (lookup_without (doomed threshold_date (logfolder self))).
    - rewrite (lookup_filter (fun p => negb (doomed threshold_date (logfolder self) p)));
        [exact Hl|now rewrite Hd]. }
  rewrite Hy. subst x. rewrite Hx. cbn [outcome world_after fst snd fs set_fs].
  split; [reflexivity|]. split; [reflexivity|]. split; [reflexivity|].
  split; [exact (Hlook _ _ Hend1 Hst1 Hl1)|exact (Hlook _ _ Hend2 Hst2 Hl2)].
Qed.

End SetupThenCleanup.

Lemma regular_stamped_check_sound (folder : Path.t) (fs0 : Fs.t) :
  regular_stamped_check folder fs0 = true →
  ∀ p k name,
    (p, k) ∈ fs0 → Fs.child_name folder p = Some name →
    Text.endswith name ".log" = true →
    k = Fs.RegularFile ∧ ∃ d, stamp name = Return d.
Proof.
  intros Hc p k name Hin Hchild Hlog.
  unfold regular_stamped_check in Hc. rewrite forallb_forall in Hc.
  specialize (Hc (p, k) (proj1 (list_elem_of_In _ _) Hin)). cbn in Hc.
  rewrite Hchild, Hlog in Hc.
  destruct k; [|discriminate]. destruct (stamp name); [eauto|discriminate].
Qed.

(** Setting up at noon of 10 March 2024 in the tidy folder and cleaning up
    with three days kept: the info log just created is still there. *)
Lemma setup_logging_then_cleanup_old_logs_witness :
  let x := setup_logging Logging.INFO (LogSamples.manager true)
             (LogSamples.world_at LogSamples.noon LogSamples.tidy) in
  let y := cleanup_old_logs 3 (object_after x) (world_after x) in
  Fs.lookup (fs (world_after y))
    (LogSamples.folder ++ ["info_log2024_03_10_12_00_00.log"]) = Some Fs.RegularFile.
Proof.
  exact (proj1 (proj2 (proj2 (proj2
           (setup_logging_then_cleanup_old_logs Logging.INFO 3
              (LogSamples.manager true)
              (LogSamples.world_at LogSamples.noon LogSamples.tidy)
              (Datetime.Build 2024 3 7 12 0 0 250000)
              eq_refl (wf_check_sound LogSamples.tidy eq_refl) eq_refl eq_refl eq_refl
              (regular_stamped_check_sound LogSamples.folder LogSamples.tidy eq_refl)
              eq_refl))))).
Defined.

(** ** The command-line parser *)

Section GetArgparserFacts.

Import Argparse.

Variable float_of_string : string -> option spec_float.
Variable float_repr : spec_float -> string.
Variable str_repr : string -> string.

Lemma parents_1 (p : Path.t) :
  Path.is_absolute p = true →
  Pathlib.parents p !! 1%nat =
    if (3 <=? length p)%nat then Some (take (length p - 2) p) else None.
Proof.
  intros Habs. unfold Pathlib.parents. rewrite Habs.
  destruct p as [|a [|b [|c p]]]; try reflexivity.
  cbn [length]. replace (S (S (S (length p))) - 1)%nat with (S (S (length p))) by lia.
  rewrite !seq_S, !rev_app_distr. cbn [rev app fmap list_fmap lookup list_lookup].
  cbn. repeat f_equal; lia.
Qed.

(** The parser is built whenever the folder two levels up exists. *)
Lemma get_argparser_cases (this_file : Path.t) :
  match index (Pathlib.parents this_file) 1 with
  | Failed f => get_argparser this_file = Failed f
  | Done repo =>
      ∃ argparser,
        get_argparser this_file = Done argparser ∧
        description argparser = "4TCT tool" ∧
        (option_strings <$> _actions argparser) =
          [["-h"; "--help"]; ["-c"; "--config"]; ["-b"; "--boards"]; ["-e"; "--exclude"];
           ["--request-time-limit"]; ["--output-path"]; ["--no-save-log"];
           ["--no-clean-log"]] ∧
        (dest <$> _actions argparser) =
          ["help"; "config"; "boards"; "exclude"; "request_time_limit"; "output_path";
           "save_log"; "clean_log"] ∧
        (default <$> _actions argparser) =
          [SUPPRESS; VBool false; VList []; VBool false; VInt 1;
           VStr (Pathlib.str repo); VBool true; VBool true] ∧
        (type <$> _actions argparser) =
          [None; None; Some builtin_str; None; Some utils_check_positive_float;
           Some builtin_str; None; None] ∧
        (nargs <$> _actions argparser) =
          [Some (NInt 0); Some (NInt 0); Some (NStr "*"); Some (NInt 0); None; None;
           Some (NInt 0); Some (NInt 0)]
  end.
Proof.
  unfold get_argparser.
  destruct (index (Pathlib.parents this_file) 1) as [repo|f]; [|reflexivity].
  eexists. split; [reflexivity|]. repeat split.
Qed.

Lemma index_parents_1 (this_file : Path.t) :
  Path.is_absolute this_file = true →
  index (Pathlib.parents this_file) 1 =
    if (3 <=? length this_file)%nat
    then Done (take (length this_file - 2) this_file)
    else Failed (IndexError "1").
Proof.
  intros Habs. pose proof (parents_1 _ Habs) as H.
  unfold index, Path.t in *. rewrite H.
  now destruct (3 <=? length this_file)%nat.
Qed.

(** X18: what [get_argparser] declares.  For a module file at least two
    levels below the root the call returns a parser: no option string is
    declared twice, the attributes are [config], [boards], [exclude],
    [request_time_limit], [output_path], [save_log] and [clean_log] beside
    [help], and a command line without words parses to the defaults: the
    flags off, the two [--no-...] switches on, no boards, the folder two
    levels above the module file as output path, and the integer [1] as
    request time limit, which never went through [check_positive_float].
    For a module file nearer to the root, [parents[1]] raises
    [IndexError]. *)
Theorem get_argparser_declares (this_file : Path.t) :
  Path.is_absolute this_file = true →
  ((length this_file < 3)%nat →
   get_argparser this_file = Failed (IndexError "1")) ∧
  ((3 ≤ length this_file)%nat →
   ∃ argparser,
     get_argparser this_file = Done argparser ∧
     NoDup (mjoin (option_strings <$> _actions argparser)) ∧
     (dest <$> _actions argparser) =
       ["help"; "config"; "boards"; "exclude"; "request_time_limit"; "output_path";
        "save_log"; "clean_log"] ∧
     parse_args float_of_string float_repr str_repr [] argparser =
       Done [("config", VBool false); ("boards", VList []); ("exclude", VBool false);
             ("request_time_limit", VInt 1);
             ("output_path",
              VStr (Pathlib.str (take (length this_file - 2) this_file)));
             ("save_log", VBool true); ("clean_log", VBool true)]).
Proof.
  intros Habs.
  pose proof (get_argparser_cases this_file) as Hc.
  rewrite (index_parents_1 _ Habs) in Hc.
  split; intros Hlen.
  - replace (3 <=? length this_file)%nat with false in Hc
      by (symmetry; apply Nat.leb_gt; lia).
    exact Hc.
  - replace (3 <=? length this_file)%nat with true in Hc
      by (symmetry; apply Nat.leb_le; lia).
    destruct Hc as (argparser & Hget & _ & Hopts & Hdest & Hdef & Hty & _).
    exists argparser. split; [exact Hget|].
    split; [rewrite Hopts; cbn; apply (bool_decide_unpack _); vm_compute; exact I|].
    split; [exact Hdest|].
    destruct argparser as [descr actions]. cbn [_actions] in *.
    destruct actions as [|a0 [|a1 [|a2 [|a3 [|a4 [|a5 [|a6 [|a7 [|]]]]]]]]];
      try discriminate.
    destruct a0, a1, a2, a3, a4, a5, a6, a7. cbn in Hopts, Hdest, Hdef, Hty.
    injection Hdest as -> -> -> -> -> -> -> ->.
    injection Hdef as -> -> -> -> -> -> -> ->.
    injection Hty as -> -> -> -> -> -> -> ->.
    generalize (Pathlib.str (take (length this_file - 2) this_file)). intros out.
    unfold parse_args. cbn. rewrite String.eqb_refl. reflexivity.
Qed.

(** X19: the words of the command line through the [type] of their
    option.  A word given to [--request-time-limit] ends in one of three
    ways: it reads as a float of at least one (or NaN) and that float is
    the value; it reads as a float below one and the [ArgumentError]
    carries the message of [check_positive_float]; it does not read as a
    float and the [ArgumentError] carries the stock message.  No exception
    of the validator escapes the parser.  The words of the other options
    that take words, [--boards] and [--output-path], are kept as they
    are. *)
Theorem get_argparser_converts
    (this_file : Path.t) (argparser : ArgumentParser_) (action : Action)
    (arg_string : string) :
  get_argparser this_file = Done argparser →
  action ∈ _actions argparser →
  nargs action ≠ Some (NInt 0) →
  if bool_decide ("--request-time-limit" ∈ option_strings action)
  then
    match _get_value float_of_string float_repr str_repr action arg_string with
    | Done v =>
        ∃ f, v = VFloat f ∧ float_of_string arg_string = Some f ∧
             Py.float_lt f Py.float_one = false
    | Failed (ArgumentError argument_name message) =>
        argument_name = "--request-time-limit" ∧
        ((float_of_string arg_string = None ∧
          message = "invalid check_positive_float value: " +:+ str_repr arg_string) ∨
         (∃ f, float_of_string arg_string = Some f ∧
               Py.float_lt f Py.float_one = true ∧
               message = "--request-time-limit value should be at least 1, now is "
                           +:+ arg_string))
    | Failed _ => False
    end
  else
    _get_value float_of_string float_repr str_repr action arg_string =
      Done (VStr arg_string).
Proof.
  intros Hget Hin Hnargs.
  pose proof (get_argparser_cases this_file) as Hc.
  destruct (index (Pathlib.parents this_file) 1) as [repo|f];
    [|rewrite Hc in Hget; discriminate].
  destruct Hc as (argparser' & Hget' & _ & Hopts & _ & _ & Hty & Hna).
  rewrite Hget in Hget'. injection Hget' as <-.
  destruct argparser as [descr actions]. cbn [_actions] in *.
  destruct actions as [|a0 [|a1 [|a2 [|a3 [|a4 [|a5 [|a6 [|a7 [|]]]]]]]]];
    try discriminate.
  cbn in Hopts, Hty, Hna.
  injection Hopts as Ho0 Ho1 Ho2 Ho3 Ho4 Ho5 Ho6 Ho7.
  injection Hty as Ht0 Ht1 Ht2 Ht3 Ht4 Ht5 Ht6 Ht7.
  injection Hna as Hn0 Hn1 Hn2 Hn3 Hn4 Hn5 Hn6 Hn7.
  repeat (apply elem_of_cons in Hin as [->|Hin]); try congruence.
  - rewrite Ho2. cbn. unfold _get_value. now rewrite Ht2.
  - rewrite Ho4. cbn. unfold _get_value, _get_action_name. rewrite Ht4, Ho4.
    cbn [call String.concat]. unfold check_positive_float.
    cbn [Py.float mbind result_bind]. unfold mbind, result_bind.
    destruct (float_of_string arg_string) as [f|]; cbn.
    + destruct (Py.float_lt f Py.float_one) eqn:Hlt; cbn.
      * split; [reflexivity|]. right. exists f. auto.
      * exists f. auto.
    + split; [reflexivity|]. left. auto.
  - rewrite Ho5. cbn. unfold _get_value. now rewrite Ht5.
  - inversion Hin.
Qed.

End GetArgparserFacts.

(** With the module at [/srv/4tct/src/utils.py], a command line without
    words gives [/srv/4tct] as output path. *)
Lemma get_argparser_declares_witness :
  ∃ argparser,
    get_argparser ArgSamples.this_file = Argparse.Done argparser ∧
    Argparse.parse_args decimal_float_of_string (fun _ => "") (fun s => s) [] argparser =
      Argparse.Done
        [("config", Argparse.VBool false); ("boards", Argparse.VList []);
         ("exclude", Argparse.VBool false); ("request_time_limit", Argparse.VInt 1);
         ("output_path", Argparse.VStr "/srv/4tct");
         ("save_log", Argparse.VBool true); ("clean_log", Argparse.VBool true)].
Proof.
  destruct (proj2 (get_argparser_declares decimal_float_of_string (fun _ => "")
                     (fun s => s) ArgSamples.this_file eq_refl)
              ltac:(cbn; lia))
    as (argparser & Hget & _ & _ & Hparse).
  exists argparser. split; [exact Hget|exact Hparse].
Defined.

(** The word [0.5] for [--request-time-limit]: an [ArgumentError] with
    the message of the validator. *)
Lemma get_argparser_converts_witness :
  match Argparse._get_value decimal_float_of_string (fun _ => "") (fun s => s)
          ArgSamples.request_time_limit "0.5" with
  | Argparse.Done v =>
      ∃ f, v = Argparse.VFloat f ∧ decimal_float_of_string "0.5" = Some f ∧
           Py.float_lt f Py.float_one = false
  | Argparse.Failed (Argparse.ArgumentError argument_name message) =>
      argument_name = "--request-time-limit" ∧
      ((decimal_float_of_string "0.5" = None ∧
        message = "invalid check_positive_float value: " +:+ "0.5") ∨
       (∃ f, decimal_float_of_string "0.5" = Some f ∧
             Py.float_lt f Py.float_one = true ∧
             message = "--request-time-limit value should be at least 1, now is "
                         +:+ "0.5"))
  | Argparse.Failed _ => False
  end.
Proof.
  refine (get_argparser_converts decimal_float_of_string (fun _ => "")
            (fun s => s) ArgSamples.this_file _ ArgSamples.request_time_limit "0.5"
            eq_refl _ _).
  - apply list_elem_of_In. cbn. do 4 right. left. reflexivity.
  - discriminate.
Defined.

(** ** Cleaning up twice *)

Section CleanupTwice.

Implicit Types (self : LoggerManager) (w : World).

Lemma cmp_lt_le a : ∀ b c,
  Datetime.cmp a b = Lt → Datetime.cmp c b ≠ Lt → Datetime.cmp a c = Lt.
Proof.
  induction a as [|x a IH]; intros [|y b] [|z c]; cbn; try congruence.
  destruct (Z.compare_spec x y), (Z.compare_spec z y), (Z.compare_spec x z);
    try congruence; try lia; intros Hab Hcb; subst; try lia; eauto.
Qed.

(** A date before the earlier of two thresholds is before the later. *)
Lemma lt_le_trans (d a b : Datetime.t) :
  Datetime.lt b a = false → Datetime.lt d a = true → Datetime.lt d b = true.
Proof.
  unfold Datetime.lt. intros Hba Hda.
  destruct (Datetime.cmp (Datetime.fields d) (Datetime.fields a)) eqn:E; try discriminate.
  rewrite (cmp_lt_le _ _ _ E); [reflexivity|].
  intros Hc. now rewrite Hc in Hba.
Qed.

Lemma lt_asym (a b : Datetime.t) :
  Datetime.lt a b = true → Datetime.lt b a = false.
Proof.
  unfold Datetime.lt. rewrite (cmp_antisym (Datetime.fields a) (Datetime.fields b)).
  now destruct (Datetime.cmp _ _).
Qed.

Lemma doomed_mono (a b : Datetime.t) folder p :
  Datetime.lt b a = false → doomed a folder p = true → doomed b folder p = true.
Proof.
  intros Hba. unfold doomed, expired.
  destruct (Fs.child_name folder p) as [name|]; [|auto].
  destruct (Text.endswith name ".log"); [|auto]. cbn.
  destruct (stamp name) as [d|]; [|auto]. now apply lt_le_trans.
Qed.

Lemma filter_filter_absorb {A} (f g : A → bool) (l : list A) :
  (∀ x, f x = true → g x = true) →
  List.filter g (List.filter f l) = List.filter f l ∧
  List.filter f (List.filter g l) = List.filter f l.
Proof.
  intros Hfg. induction l as [|x l [IH1 IH2]]; [split; reflexivity|]. cbn.
  destruct (f x) eqn:Hf.
  - rewrite (Hfg x Hf). cbn. rewrite Hf, (Hfg x Hf), IH1, IH2. now split.
  - split; [assumption|]. destruct (g x); cbn; [rewrite Hf|]; assumption.
Qed.

(** Two sweeps are the sweep with the later threshold. *)
Lemma without_expired_twice (a b : Datetime.t) folder (fs0 : Fs.t) :
  without_expired b folder (without_expired a folder fs0) =
    without_expired (if Datetime.lt a b then b else a) folder fs0.
Proof.
  unfold without_expired.
  destruct (Datetime.lt a b) eqn:Hab.
  - apply (filter_filter_absorb
             (fun e => negb (doomed b folder (fst e)))
             (fun e => negb (doomed a folder (fst e)))).
    intros e Hb. apply negb_true_iff. apply negb_true_iff in Hb.
    destruct (doomed a folder (fst e)) eqn:Ha; [|reflexivity].
    rewrite (doomed_mono a b folder _ (lt_asym _ _ Hab) Ha) in Hb. discriminate.
  - apply (filter_filter_absorb
             (fun e => negb (doomed a folder (fst e)))
             (fun e => negb (doomed b folder (fst e)))).
    intros e Ha. apply negb_true_iff. apply negb_true_iff in Ha.
    destruct (doomed b folder (fst e)) eqn:Hb; [|reflexivity].
    rewrite (doomed_mono b a folder _ Hab Hb) in Ha. discriminate.
Qed.

Lemma elem_of_without thr folder (fs0 : Fs.t) e :
  e ∈ without_expired thr folder fs0 → e ∈ fs0.
Proof.
  unfold without_expired. rewrite !list_elem_of_In, filter_In. tauto.
Qed.

(** Sweeping a folder whose [*.log] entries are regular files keeps the
    file system well formed. *)
Lemma wf_without thr folder (fs0 : Fs.t) :
  Fs.wf fs0 →
  (∀ p k name,
     (p, k) ∈ fs0 → Fs.child_name folder p = Some name →
     Text.endswith name ".log" = true → k = Fs.RegularFile) →
  Fs.wf (without_expired thr folder fs0).
Proof.
  intros [Hnd Hpar] Hreg. split.
  - unfold without_expired.
    apply (sublist_NoDup (fst <$> List.filter (fun e => negb (doomed thr folder (fst e))) fs0) (fst <$> fs0)); [exact Hnd|].
    apply fmap_sublist, sublist_List_filter.
  - intros p k Hin. apply elem_of_without in Hin.
    specialize (Hpar p k Hin). revert Hpar. generalize (Path.parent p). intros q.
    unfold Fs.is_dir. destruct q as [|a q]; [auto|].
    destruct (bool_decide _); [auto|]. cbn.
    destruct (Fs.lookup fs0 (a :: q)) as [[]|] eqn:Hl; try discriminate. intros _.
    unfold without_expired.
    rewrite (lookup_filter (fun p => negb (doomed thr folder p))), Hl; [reflexivity|].
    apply negb_true_iff. destruct (doomed thr folder (a :: q)) eqn:Hd; [|reflexivity].
    rewrite doomed_is_log in Hd. apply andb_true_iff in Hd as [Hlog _].
    unfold is_log_of in Hlog.
    destruct (Fs.child_name folder (a :: q)) as [name|] eqn:Hc; [|discriminate].
    apply lookup_Some in Hl. specialize (Hreg _ _ _ Hl Hc Hlog). discriminate.
Qed.

(** X20: two cleanups in a row are one cleanup with the later of the two
    thresholds.  Over a well-formed disk whose log folder holds, as
    [*.log] entries, only regular files with a readable stamp, both calls
    return, and the disk left is the first one without the logs older
    than the later threshold; so a second call whose threshold is not
    after the first removes nothing. *)
Theorem cleanup_old_logs_twice
    (days1 days2 : Z) (self : LoggerManager) (w : World) (thr1 thr2 : Datetime.t) :
  Fs.wf (fs w) →
  (∀ p k name,
     (p, k) ∈ fs w → Fs.child_name (logfolder self) p = Some name →
     Text.endswith name ".log" = true →
     k = Fs.RegularFile ∧ ∃ d, stamp name = Return d) →
  Datetime.sub_days (clock w (reads w)) days1 = Return thr1 →
  Datetime.sub_days (clock w (S (reads w))) days2 = Return thr2 →
  let x := cleanup_old_logs days1 self w in
  let y := cleanup_old_logs days2 (object_after x) (world_after x) in
  outcome x = Return tt ∧ outcome y = Return tt ∧
  fs (world_after y) =
    without_expired (if Datetime.lt thr1 thr2 then thr2 else thr1) (logfolder self) (fs w) ∧
  (Datetime.lt thr1 thr2 = false → fs (world_after y) = fs (world_after x)).
Proof.
  intros Hwf Hconf Hthr1 Hthr2 x y.
  assert (Hx : x = (Return tt, self,
                    set_fs (tick w) (without_expired thr1 (logfolder self) (fs w))))
    by exact (cleanup_old_logs_stamped days1 self w thr1 Hwf Hthr1 Hconf).
  assert (Hy : y = (Return tt, self,
                    set_fs (tick (world_after x))
                      (without_expired thr2 (logfolder self)
                         (without_expired thr1 (logfolder self) (fs w))))).
  { subst y. rewrite Hx. cbn [object_after world_after fst snd].
    apply (cleanup_old_logs_stamped days2 self
             (set_fs (tick w) (without_expired thr1 (logfolder self) (fs w))) thr2).
    - cbn [fs set_fs]. apply wf_without; [exact Hwf|].
      intros p k name Hin Hc Hlog. exact (proj1 (Hconf p k name Hin Hc Hlog)).
    - exact Hthr2.
    - cbn [fs set_fs]. intros p k name Hin. apply elem_of_without in Hin.
      now apply Hconf. }
  rewrite Hy, Hx. cbn [outcome world_after fst snd fs set_fs].
  rewrite without_expired_twice.
  split; [reflexivity|]. split; [reflexivity|]. split; [reflexivity|].
  now intros ->.
Qed.

End CleanupTwice.

(** Three days kept, then five, over the tidy folder with a steady clock:
    the second cleanup removes nothing. *)
Lemma cleanup_old_logs_twice_witness :
  let x := cleanup_old_logs 3 (LogSamples.manager true)
             (LogSamples.world_at LogSamples.noon LogSamples.tidy) in
  let y := cleanup_old_logs 5 (object_after x) (world_after x) in
  fs (world_after y) = fs (world_after x).
Proof.
  exact (proj2 (proj2 (proj2
           (cleanup_old_logs_twice 3 5 (LogSamples.manager true)
              (LogSamples.world_at LogSamples.noon LogSamples.tidy)
              (Datetime.Build 2024 3 7 12 0 0 250000)
              (Datetime.Build 2024 3 5 12 0 0 250000)
              (wf_check_sound LogSamples.tidy eq_refl)
              (regular_stamped_check_sound LogSamples.folder LogSamples.tidy eq_refl)
              eq_refl eq_refl))) eq_refl).
Defined.
